(** * Transcript parsing and normalisation recipes (lhotse, Arabic corpora)

    A shallow embedding of the four recipes

      - [lhotse/recipes/callhome_gulf.py]
      - [lhotse/recipes/callhome_iraqi.py]
      - [lhotse/recipes/callhome_levant.py]
      - [lhotse/recipes/qasr.py]

    Python [str] values are lists of Unicode code points, the built-in
    string methods and the regular expressions the recipes use are
    functions on such lists, and a recipe is a function from the
    contents of the transcript files to the list of supervision
    segments it builds, or to the exception it raises. *)

From Stdlib Require Import String Ascii.
From Stdlib Require Import ZArith List Bool Lia.
From Stdlib Require Import Floats.SpecFloat DecimalZ DecimalNat DecimalPos.
Import ListNotations.
Open Scope Z_scope.

(** * Python strings *)

Module Py.

(** A [str] is its sequence of code points. *)
Definition str := list Z.

(** String literals are written in UTF-8, as in the Python sources, and
    decoded to code points. *)
Fixpoint utf8_decode (need : nat) (acc : Z) (bs : list Z) : str :=
  match bs with
  | [] => []
  | b :: r =>
    match need with
    | O =>
      if b <? 128 then b :: utf8_decode 0 0 r
      else if b <? 224 then utf8_decode 1 (b - 192) r
      else if b <? 240 then utf8_decode 2 (b - 224) r
      else utf8_decode 3 (b - 240) r
    | S O => (acc * 64 + (b - 128)) :: utf8_decode 0 0 r
    | S k => utf8_decode k (acc * 64 + (b - 128)) r
    end
  end.

Definition utf8 (s : String.string) : str :=
  utf8_decode 0 0
    (map (fun a => Z.of_nat (Ascii.nat_of_ascii a))
       (String.list_ascii_of_string s)).

Arguments utf8 s%_string.

Definition in_range (lo hi c : Z) : bool := (lo <=? c) && (c <=? hi).

Definition mem (c : Z) (l : list Z) : bool := existsb (Z.eqb c) l.

Fixpoint str_eqb (a b : str) : bool :=
  match a, b with
  | [], [] => true
  | x :: a', y :: b' => (x =? y) && str_eqb a' b'
  | _, _ => false
  end.

(** ** Character classes

    [isspace] is CPython's whitespace table: it is the one that
    [str.isspace], [str.split] without a separator, [str.strip] and the
    regular-expression class [\s] consult. *)
Definition isspace (c : Z) : bool :=
  in_range 9 13 c || in_range 28 31 c || (c =? 32) || (c =? 133)
  || (c =? 160) || (c =? 5760) || in_range 8192 8202 c || (c =? 8232)
  || (c =? 8233) || (c =? 8239) || (c =? 8287) || (c =? 12288).

(** Line boundaries of [str.splitlines]. *)
Definition islinebreak (c : Z) : bool :=
  in_range 10 13 c || in_range 28 30 c || (c =? 133) || (c =? 8232)
  || (c =? 8233).

Definition is_ascii_digit (c : Z) : bool := in_range 48 57 c.
Definition is_ascii_lower (c : Z) : bool := in_range 97 122 c.
Definition is_ascii_upper (c : Z) : bool := in_range 65 90 c.

(** The remaining tables of the Unicode database are parameters:
    [isdecimal] is the class [\d] of a [str] pattern ([str.isdecimal]
    on one character), [isnumeric] is [str.isnumeric] on one character,
    [isalnum] is [str.isalnum] on one character (with the underscore it
    makes the class [\w]) and [lower] is the lower-case mapping of one
    code point, which [str.lower] applies to every character of a
    string (one code point may map to several).  [str.lower] has one
    rule that looks at the neighbours of a character, for the capital
    sigma; the model applies the context-free mapping there. *)
Class Unicode := {
  isdecimal : Z -> bool;
  isnumeric : Z -> bool;
  isalnum : Z -> bool;
  lower : Z -> list Z
}.

(** [text.lower()] *)
Definition str_lower {U : Unicode} (text : str) : str := flat_map lower text.

Definition is_empty (t : str) : bool :=
  match t with
  | [] => true
  | _ :: _ => false
  end.

(** ** Searching and replacing *)

Fixpoint startswith (p t : str) : bool :=
  match p, t with
  | [], _ => true
  | _ :: _, [] => false
  | x :: p', y :: t' => (x =? y) && startswith p' t'
  end.

(** [w in t] *)
Fixpoint contains (w t : str) : bool :=
  match t with
  | [] => startswith w []
  | _ :: t' => startswith w t || contains w t'
  end.

(** [replace_from old new skip t] scans [t] from the left; [skip]
    counts the characters of a match that are still to be passed
    over. *)
Fixpoint replace_from (old new : str) (skip : nat) (t : str) : str :=
  match t with
  | [] => []
  | c :: t' =>
    match skip with
    | S k => replace_from old new k t'
    | O =>
      if startswith old t
      then new ++ replace_from old new (length old - 1) t'
      else c :: replace_from old new 0 t'
    end
  end.

(** [t.replace(old, new)]: every non-overlapping occurrence, leftmost
    first.  An empty [old] matches before every character and at the
    end. *)
Definition replace (old new t : str) : str :=
  match old with
  | [] => new ++ flat_map (fun c => c :: new) t
  | _ :: _ => replace_from old new 0 t
  end.

(** ** Stripping, splitting and joining *)

Fixpoint dropwhile (f : Z -> bool) (t : str) : str :=
  match t with
  | [] => []
  | c :: t' => if f c then dropwhile f t' else t
  end.

Fixpoint takewhile (f : Z -> bool) (t : str) : str :=
  match t with
  | [] => []
  | c :: t' => if f c then c :: takewhile f t' else []
  end.

Definition lstrip (t : str) : str := dropwhile isspace t.
Definition rstrip (t : str) : str := rev (dropwhile isspace (rev t)).
Definition strip (t : str) : str := rstrip (lstrip t).

(** [t.split()]: the maximal runs of non-whitespace characters.  [cur]
    is the word being read, reversed. *)
Fixpoint split_words (cur : str) (t : str) : list str :=
  match t with
  | [] => match cur with [] => [] | _ :: _ => [rev cur] end
  | c :: t' =>
    if isspace c
    then match cur with
         | [] => split_words [] t'
         | _ :: _ => rev cur :: split_words [] t'
         end
    else split_words (c :: cur) t'
  end.

Definition split (t : str) : list str := split_words [] t.

(** [t.split(maxsplit=n)]: after [n] words the rest of the string,
    without its leading whitespace, is the last item. *)
Fixpoint split_words_max (n : nat) (cur : str) (t : str) : list str :=
  match t with
  | [] => match cur with [] => [] | _ :: _ => [rev cur] end
  | c :: t' =>
    match cur with
    | [] =>
      if isspace c then split_words_max n [] t'
      else match n with
           | O => [t]
           | S _ => split_words_max n [c] t'
           end
    | _ :: _ =>
      if isspace c then rev cur :: split_words_max (Nat.pred n) [] t'
      else split_words_max n (c :: cur) t'
    end
  end.

Definition split_max (n : nat) (t : str) : list str := split_words_max n [] t.

(** [t.split(sep)] for a non-empty separator. *)
Fixpoint split_sep_from (sep : str) (skip : nat) (cur : str) (t : str)
  : list str :=
  match t with
  | [] => [rev cur]
  | c :: t' =>
    match skip with
    | S k => split_sep_from sep k cur t'
    | O =>
      if startswith sep t
      then rev cur :: split_sep_from sep (length sep - 1) [] t'
      else split_sep_from sep 0 (c :: cur) t'
    end
  end.

Definition split_sep (sep t : str) : list str := split_sep_from sep 0 [] t.

(** [sep.join(ws)] *)
Fixpoint join (sep : str) (ws : list str) : str :=
  match ws with
  | [] => []
  | [w] => w
  | w :: ws' => w ++ sep ++ join sep ws'
  end.

(** [t.splitlines()]: a carriage return followed by a line feed is one
    boundary, and a final boundary opens no further line. *)
Fixpoint splitlines_from (after_cr : bool) (cur : str) (t : str)
  : list str :=
  match t with
  | [] => match cur with [] => [] | _ :: _ => [rev cur] end
  | c :: t' =>
    if after_cr && (c =? 10) then splitlines_from false cur t'
    else if islinebreak c then rev cur :: splitlines_from (c =? 13) [] t'
    else splitlines_from false (c :: cur) t'
  end.

Definition splitlines (t : str) : list str := splitlines_from false [] t.

End Py.


(** ** Regular expressions of the recipes *)

Module Re.
Import Py.

(** [sub(r"[...]+", "", t)] for a character class: the characters of the
    class are deleted. *)
Definition sub_class (cls : Z -> bool) (t : str) : str :=
  filter (fun c => negb (cls c)) t.

(** [sub(r"\s+", " ", t)]: each maximal run of whitespace becomes one
    space.  [in_run] tells that the previous character was whitespace. *)
Fixpoint sub_spaces (in_run : bool) (t : str) : str :=
  match t with
  | [] => []
  | c :: t' =>
    if isspace c
    then if in_run then sub_spaces true t' else 32 :: sub_spaces true t'
    else c :: sub_spaces false t'
  end.

(** A match of [\s+\.\s+] at the head of [t]: what follows it.  The
    full stop is no whitespace, so both runs are maximal. *)
Definition match_space_dot_space (t : str) : option str :=
  match t with
  | [] => None
  | c :: _ =>
    if isspace c
    then match dropwhile isspace t with
         | 46 :: w :: r => if isspace w then Some (dropwhile isspace r) else None
         | _ => None
         end
    else None
  end.

(** [sub(r"\s+\.\s+", ".", t)] *)
Fixpoint sub_space_dot_space (skip : nat) (t : str) : str :=
  match t with
  | [] => []
  | c :: t' =>
    match skip with
    | S k => sub_space_dot_space k t'
    | O =>
      match match_space_dot_space t with
      | Some r => 46 :: sub_space_dot_space (length t' - length r) t'
      | None => c :: sub_space_dot_space 0 t'
      end
    end
  end.

End Re.


(** * Python numbers *)

Module Num.
Import Py.

(** ** Integers and their decimal notation *)

Fixpoint uint_chars (u : Decimal.uint) : str :=
  match u with
  | Decimal.Nil => []
  | Decimal.D0 u => 48 :: uint_chars u
  | Decimal.D1 u => 49 :: uint_chars u
  | Decimal.D2 u => 50 :: uint_chars u
  | Decimal.D3 u => 51 :: uint_chars u
  | Decimal.D4 u => 52 :: uint_chars u
  | Decimal.D5 u => 53 :: uint_chars u
  | Decimal.D6 u => 54 :: uint_chars u
  | Decimal.D7 u => 55 :: uint_chars u
  | Decimal.D8 u => 56 :: uint_chars u
  | Decimal.D9 u => 57 :: uint_chars u
  end.

(** [str(n)] and the presentation type [d] of a format specification. *)
Definition str_of_int (n : Z) : str :=
  match Z.to_int n with
  | Decimal.Pos u => uint_chars u
  | Decimal.Neg u => 45 :: uint_chars u
  end.

Definition digit_of (c : Z) : option (Decimal.uint -> Decimal.uint) :=
  if c =? 48 then Some Decimal.D0 else if c =? 49 then Some Decimal.D1
  else if c =? 50 then Some Decimal.D2 else if c =? 51 then Some Decimal.D3
  else if c =? 52 then Some Decimal.D4 else if c =? 53 then Some Decimal.D5
  else if c =? 54 then Some Decimal.D6 else if c =? 55 then Some Decimal.D7
  else if c =? 56 then Some Decimal.D8 else if c =? 57 then Some Decimal.D9
  else None.

Fixpoint chars_uint (t : str) : option Decimal.uint :=
  match t with
  | [] => Some Decimal.Nil
  | c :: t' =>
    match digit_of c, chars_uint t' with
    | Some d, Some u => Some (d u)
    | _, _ => None
    end
  end.

(** The value of a non-empty string of ASCII digits. *)
Definition digits_value (t : str) : option Z :=
  match t with
  | [] => None
  | _ :: _ => option_map Z.of_uint (chars_uint t)
  end.

(** A leading sign. *)
Definition split_sign (t : str) : bool * str :=
  match t with
  | 45 :: r => (true, r)
  | 43 :: r => (false, r)
  | _ => (false, t)
  end.

(** [int(t)] on the plain notation: surrounding whitespace, an optional
    sign and ASCII digits.  The constructor also reads digits of other
    scripts and underscores between digits; such strings are outside
    the model and count as malformed. *)
Definition int_of_str (t : str) : option Z :=
  let (neg, ds) := split_sign (strip t) in
  option_map (fun v => if neg then - v else v) (digits_value ds).

(** The format specifications [0>5d] and [0>2s]: pad on the left. *)
Definition rjust (width : nat) (fill : Z) (t : str) : str :=
  repeat fill (width - length t) ++ t.

(** [t.zfill(width)]: the zeros come after a leading sign. *)
Definition zfill (width : nat) (t : str) : str :=
  match t with
  | c :: r =>
    if (c =? 43) || (c =? 45)
    then c :: repeat 48 (width - length t) ++ r
    else repeat 48 (width - length t) ++ t
  | [] => repeat 48 width
  end.

(** ** Decimals

    A finite [decimal.Decimal]: sign, coefficient and exponent. *)
Record decimal := { dneg : bool; dcoeff : Z; dexp : Z }.

(** The plain notation [digits], [digits.digits], [.digits] and
    [digits.], with an optional sign: the string without its sign, and
    the digits before and after the point.  Exponents, infinities and
    NaNs are outside the model and count as malformed. *)
Definition plain_number (t : str) : option (bool * str * str) :=
  let (neg, r) := split_sign (strip t) in
  let ip := takewhile is_ascii_digit r in
  match dropwhile is_ascii_digit r with
  | [] => match ip with [] => None | _ :: _ => Some (neg, ip, []) end
  | 46 :: f =>
    if forallb is_ascii_digit f
    then match ip ++ f with [] => None | _ :: _ => Some (neg, ip, f) end
    else None
  | _ :: _ => None
  end.

(** [Decimal(t)]: exact. *)
Definition Decimal (t : str) : option decimal :=
  match plain_number t with
  | Some (neg, ip, f) =>
    option_map
      (fun c => {| dneg := neg; dcoeff := c; dexp := - Z.of_nat (length f) |})
      (digits_value (ip ++ f))
  | None => None
  end.

(** The default context: 28 significant digits, ties to even. *)
Definition context_prec : Z := 28.

Definition num_digits (c : Z) : Z := Z.of_nat (length (str_of_int c)).

Definition round_half_even (n d : Z) : Z :=
  let q := n / d in
  let r := n mod d in
  match 2 * r ?= d with
  | Lt => q
  | Gt => q + 1
  | Eq => if Z.even q then q else q + 1
  end.

Definition context_round (neg : bool) (c e : Z) : decimal :=
  if num_digits c <=? context_prec
  then {| dneg := neg; dcoeff := c; dexp := e |}
  else
    let k := num_digits c - context_prec in
    let q := round_half_even c (10 ^ k) in
    if q =? 10 ^ context_prec
    then {| dneg := neg; dcoeff := 10 ^ (context_prec - 1); dexp := e + k + 1 |}
    else {| dneg := neg; dcoeff := q; dexp := e + k |}.

Definition signed_coeff (a : decimal) (e : Z) : Z :=
  let c := dcoeff a * 10 ^ (dexp a - e) in
  if dneg a then - c else c.

(** [a - b] in the default context: the exact difference at the smaller
    exponent, rounded to the context precision. *)
Definition decimal_sub (a b : decimal) : decimal :=
  let e := Z.min (dexp a) (dexp b) in
  let n := signed_coeff a e - signed_coeff b e in
  let neg :=
    match n with
    | Z0 => dneg a && negb (dneg b)
    | Zpos _ => false
    | Zneg _ => true
    end in
  context_round neg (Z.abs n) e.

(** ** Floats: IEEE 754 binary64 *)

Definition float := spec_float.

Definition prec : Z := 53.
Definition emax : Z := 1024.

(** The float nearest to [n / d], ties to even. *)
Definition float_of_ratio (neg : bool) (n d : Z) : float :=
  match n, d with
  | Zpos p, Zpos q =>
    SFdiv prec emax (S754_finite neg p 0) (S754_finite false q 0)
  | Z0, Zpos _ => S754_zero neg
  | _, _ => S754_nan
  end.

(** [float(d)] for a decimal. *)
Definition float_of_decimal (a : decimal) : float :=
  if 0 <=? dexp a
  then float_of_ratio (dneg a) (dcoeff a * 10 ^ dexp a) 1
  else float_of_ratio (dneg a) (dcoeff a) (10 ^ (- dexp a)).

(** [float(t)] on the plain notation. *)
Definition float_of_str (t : str) : option float :=
  option_map float_of_decimal (Decimal t).

(** [float(n)] and the conversion of an [int] operand. *)
Definition float_of_int (n : Z) : float :=
  float_of_ratio (n <? 0) (Z.abs n) 1.

Definition fsub : float -> float -> float := SFsub prec emax.
Definition fmul : float -> float -> float := SFmul prec emax.

Definition fzero : float := S754_zero false.

(** [x <= 0] and [x > 0.0] *)
Definition le_zero (x : float) : bool := SFleb x fzero.
Definition gt_zero (x : float) : bool := SFltb fzero x.

(** [x >= 0], for stating properties. *)
Definition ge_zero (x : float) : bool := SFleb fzero x.

Definition is_finite (x : float) : bool :=
  match x with
  | S754_zero _ | S754_finite _ _ _ => true
  | _ => false
  end.

(** [x <= n] for an [int] [n]: Python compares the exact values. *)
Definition le_int (x : float) (n : Z) : bool :=
  match x with
  | S754_zero _ => 0 <=? n
  | S754_infinity s => s
  | S754_nan => false
  | S754_finite s m e =>
    let v := if s then Zneg m else Zpos m in
    if 0 <=? e then v * 2 ^ e <=? n else v <=? n * 2 ^ (- e)
  end.



(** [int(x)]: truncation; [None] for an infinity or a NaN. *)
Definition int_of_float (x : float) : option Z :=
  match x with
  | S754_zero _ => Some 0
  | S754_finite s m e =>
    let v := if 0 <=? e then Zpos m * 2 ^ e else Zpos m / 2 ^ (- e) in
    Some (if s then - v else v)
  | _ => None
  end.

(** [round(x, ndigits)]: the decimal with [ndigits] places nearest to
    the exact value of [x], ties to even, converted back. *)
Definition round (x : float) (ndigits : Z) : float :=
  match x with
  | S754_finite s m e =>
    if 0 <=? e then x
    else float_of_ratio s (round_half_even (Zpos m * 10 ^ ndigits) (2 ^ (- e)))
           (10 ^ ndigits)
  | _ => x
  end.

End Num.
(** * Text normalisation

    The three CALLHOME recipes define the same cleaning functions; they
    differ in the list of special words and in what a punctuation mark
    is replaced with.  QASR reuses four of them and adds two. *)

Module Text.
Import Py Re.

Section Normalizer.
Context {U : Unicode}.

(** The module-level list [words_to_remove] and the replacement string
    of [remove_punctuations]. *)
Variable words_to_remove : list str.
Variable punct_replacement : str.

Definition remove_special_words (text : str) : str :=
  fold_left
    (fun text word =>
       if contains word text then replace word [] text else text)
    words_to_remove text.

(** The class [[\u064B-\u0652\u06D4\u0670\u0674\u06D5-\u06ED]]. *)
Definition is_diacritic (c : Z) : bool :=
  in_range 0x64B 0x652 c || (c =? 0x6D4) || (c =? 0x670) || (c =? 0x674)
  || in_range 0x6D5 0x6ED c.

Definition remove_diacritics (text : str) : str :=
  sub_class is_diacritic text.

Definition arabic_punctuations : str :=
  Eval vm_compute in
  utf8 "﴿﴾`÷×؛<>_()*&^%][ـ،/:" ++ [34] ++ utf8 "؟.,'{}~¦+|!”…“–ـ".

(** [string.punctuation] *)
Definition english_punctuations : str :=
  Eval vm_compute in
  utf8 "!" ++ [34] ++ utf8 "#$%&'()*+,-./:;<=>?@[\]^_`{|}~".

(** The characters of [set(arabic_punctuations + english_punctuations)],
    each once. *)
Definition all_punctuations : list Z :=
  Eval vm_compute in
  nodup Z.eq_dec (arabic_punctuations ++ english_punctuations).

(** The loop over the set, visited in the order [order]. *)
Definition remove_punctuations_in (order : list Z) (text : str) : str :=
  fold_left
    (fun text p =>
       if contains [p] text then replace [p] punct_replacement text else text)
    order text.

Definition remove_punctuations (text : str) : str :=
  remove_punctuations_in all_punctuations text.

(** The complement of the class [[^\u0600-\u06FF\s\da-z]]. *)
Definition is_alphanumeric (c : Z) : bool :=
  in_range 0x600 0x6FF c || isspace c || isdecimal c || is_ascii_lower c.

Definition remove_non_alphanumeric (text : str) : str :=
  let text := str_lower text in
  sub_class (fun c => negb (is_alphanumeric c)) text.

Definition remove_extra_space (text : str) : str :=
  let text := sub_spaces false text in
  let text := sub_space_dot_space 0 text in
  text.

Definition cleaning (text : str) : str :=
  let text := remove_special_words text in
  let text := remove_diacritics text in
  let text := remove_punctuations text in
  let text := remove_non_alphanumeric text in
  let text := remove_extra_space text in
  let text := strip text in
  text.

End Normalizer.

(** What the pipelines need of the Unicode database: ASCII has no
    decimal digit besides [0-9]; the characters that
    [remove_non_alphanumeric] keeps (Arabic block, whitespace, decimal
    digits, [a-z]) have no other lower-case form; and a character that
    lower-casing newly produces is never Arabic, whitespace or a
    decimal digit. *)
Class UnicodeLaws (U : Unicode) : Prop := {
  isdecimal_ascii :
    forall c, 0 <= c < 128 -> isdecimal c = is_ascii_digit c;
  lower_alphanumeric :
    forall c, is_alphanumeric c = true -> lower c = [c];
  lower_image :
    forall c d, In d (lower c) -> d <> c ->
      in_range 0x600 0x6FF d || isspace d || isdecimal d = false
}.

End Text.


(** * Manifests and outcomes *)

Module Lhotse.
Import Py Num.

(** The [speaker] of a segment is a string in the CALLHOME recipes and
    an integer in QASR. *)
Inductive speaker_id :=
| SpeakerName (name : str)
| SpeakerIndex (index : Z).

(** The fields of [SupervisionSegment] that the recipes set. *)
Record SupervisionSegment := {
  id : str;
  recording_id : str;
  start : float;
  duration : float;
  channel : Z;
  text : str;
  language : option str;
  speaker : speaker_id
}.

(** Of a [Recording] the recipes only read the identifier. *)
Record Recording := { rec_id : str }.

(** A transcript file: the stem of its path and what [read_text]
    returns. *)
Record transcript := { stem : str; content : str }.

(** The exceptions that the recipes can raise. *)
Inductive exn :=
| ValueError
| TypeError
| IndexError
| AttributeError
| ZeroDivisionError
| OverflowError
| InvalidOperation
| AssertionError
| BdbQuit.

Inductive result (A : Type) :=
| Ok (a : A)
| Raise (e : exn).

Arguments Ok {A} a.
Arguments Raise {A} e.

Definition bind {A B} (r : result A) (k : A -> result B) : result B :=
  match r with
  | Ok a => k a
  | Raise e => Raise e
  end.

Notation "'let*' x ':=' r 'in' k" := (bind r (fun x => k))
  (at level 10, x pattern, r at level 100, k at level 200).

(** A value that a built-in computes unless it raises [e]. *)
Definition or_raise {A} (e : exn) (o : option A) : result A :=
  match o with
  | Some a => Ok a
  | None => Raise e
  end.

(** Unpacking a list into a fixed number of targets. *)
Definition unpack2 {A} (l : list A) : result (A * A) :=
  match l with
  | [a; b] => Ok (a, b)
  | _ => Raise ValueError
  end.

Definition unpack3 {A} (l : list A) : result (A * A * A) :=
  match l with
  | [a; b; c] => Ok (a, b, c)
  | _ => Raise ValueError
  end.

Definition unpack4 {A} (l : list A) : result (A * A * A * A) :=
  match l with
  | [a; b; c; d] => Ok (a, b, c, d)
  | _ => Raise ValueError
  end.

(** [l[i]] *)
Definition index {A} (l : list A) (i : nat) : result A :=
  or_raise IndexError (nth_error l i).

(** [ord(t)] *)
Definition ord (t : str) : result Z :=
  match t with
  | [c] => Ok c
  | _ => Raise TypeError
  end.

(** A loop over [items] whose body either leaves the state as it is
    ([continue]), replaces it, or raises. *)
Fixpoint for_each {A S} (body : S -> A -> result S) (items : list A) (s : S)
  : result S :=
  match items with
  | [] => Ok s
  | x :: rest =>
    match body s x with
    | Ok s' => for_each body rest s'
    | Raise e => Raise e
    end
  end.

(** Modelled from the spec: [SupervisionSegment.transform_text] is a
    lhotse library method that is not part of the recipe files.  A
    segment is not mutated except in its text, which the transform
    replaces by its image. *)
Definition set_text (f : str -> str) (s : SupervisionSegment)
  : SupervisionSegment :=
  {| id := id s; recording_id := recording_id s; start := start s;
     duration := duration s; channel := channel s; text := f (text s);
     language := language s; speaker := speaker s |}.

(** Modelled from the spec: [SupervisionSet.transform_text] is a lhotse
    library method that is not part of the recipe files.  The spec
    describes it as a bulk operation applied uniformly across a whole
    set. *)
Definition transform_text (f : str -> str) (sups : list SupervisionSegment)
  : list SupervisionSegment :=
  map (set_text f) sups.

(** A program that may stop at a debugger prompt: [pdb.set_trace()]
    hands control to the terminal and resumes with the command that is
    typed there. *)
Inductive pdb_command := pdb_continue | pdb_quit.

Inductive run (A : Type) :=
| Done (r : result A)
| Breakpoint (k : pdb_command -> run A).

Arguments Done {A} r.
Arguments Breakpoint {A} k.

End Lhotse.

(** * The tab-delimited CALLHOME recipes (Gulf and Iraqi)

    [prepare_callhome_gulf] and [prepare_callhome_iraqi] run the same
    loop.  They differ in the recording identifier, which is the stem of
    the transcript path for Gulf and its lower-case form for Iraqi, and
    in their [cleaning] function.

    The model of a recipe ends with the list of segments that it hands
    to [SupervisionSet.from_segments].  What happens to the list
    afterwards ([fix_manifests], [validate_recordings_and_supervisions]
    and [to_file]) is the work of lhotse functions that are not part of
    the recipe files, as is the discovery of the recordings
    ([RecordingSet.from_dir]) and of the transcript paths
    ([check_and_rglob], [glob]). *)

Module Callhome.
Import Py Re Num Lhotse.

Inductive split_name := devtest | train2c | train1c.

(** The two assignments to [spk]: the colon and every ASCII digit are
    removed from the speaker field. *)
Definition speaker_tag (spk : str) : str :=
  let spk := replace (utf8 ":") (utf8 "") spk in
  let spk := sub_class is_ascii_digit spk in
  spk.

(** The segment that both CALLHOME loops append: the identifier is
    [f"{recording_id}_{spk:0>2s}_{idx:0>5d}"]. *)
Definition supervision (recording_id spk : str) (idx : Z)
  (start duration : float) (text : str) (channel : Z) : SupervisionSegment :=
  {| id := recording_id ++ utf8 "_" ++ rjust 2 48 spk ++ utf8 "_"
           ++ rjust 5 48 (str_of_int idx);
     recording_id := recording_id;
     start := start;
     duration := duration;
     channel := channel;
     text := text;
     language := None;
     speaker := SpeakerName (recording_id ++ utf8 "_" ++ rjust 2 48 spk) |}.


(** The statement [if split == "train1c"]: channel 0, or else the
    offset of the speaker tag from ["A"]. *)
Definition channel_of (split : split_name) (spk : str) : result Z :=
  match split with
  | train1c => Ok 0
  | _ => let* c := ord spk in Ok (c - 65)
  end.

(** The class [[\[\]]]. *)
Definition is_bracket (c : Z) : bool := (c =? 91) || (c =? 93).

(** The two nested loops that collect the segments are the same in the
    three CALLHOME recipes; [process_line stem idx line] is the body of
    the inner one, [None] when it ends in [continue]. *)
Section Loops.
Variable process_line :
  str -> Z -> str -> result (option SupervisionSegment).

(** One iteration: the list [supervisions] grows and [idx] advances
    only when a segment is appended. *)
Definition line_step (stem : str)
  (state : list SupervisionSegment * Z) (line : str)
  : result (list SupervisionSegment * Z) :=
  let (supervisions, idx) := state in
  let* r := process_line stem idx line in
  match r with
  | None => Ok (supervisions, idx)
  | Some s => Ok (supervisions ++ [s], idx + 1)
  end.

(** The loop over the lines of one path, [idx] starting at zero. *)
Definition process_transcript
  (supervisions : list SupervisionSegment) (p : transcript)
  : result (list SupervisionSegment) :=
  let* (supervisions, _) :=
    for_each (line_step (stem p)) (splitlines (content p))
      (supervisions, 0) in
  Ok supervisions.

(** The loop over the paths: the segments as they are handed to
    [SupervisionSet.from_segments]. *)
Definition collect (transcript_paths : list transcript)
  : result (list SupervisionSegment) :=
  for_each process_transcript transcript_paths [].

End Loops.

Section Recipe.
Variable recording_id_of : str -> str.
Variable cleaning : str -> str.

(** The body of the loop over the lines of one transcript.  [None] is
    [continue]. *)
Definition process_line (split : split_name) (text_cleaning : bool)
  (stem : str) (idx : Z) (line : str) : result (option SupervisionSegment) :=
  let line := strip line in
  if is_empty line || Nat.ltb (length (split_sep [9] line)) 4 then Ok None
  else
    let recording_id := recording_id_of stem in
    let* (time, spk, text, text_bw) := unpack4 (split_sep [9] line) in
    let time := sub_class is_bracket time in
    let* (start, end_) := unpack2 (Py.split time) in
    let spk := speaker_tag spk in
    let* dend := or_raise InvalidOperation (Decimal end_) in
    let* dstart := or_raise InvalidOperation (Decimal start) in
    let duration := float_of_decimal (decimal_sub dend dstart) in
    let text := if text_cleaning then cleaning text else text in
    if le_zero duration || is_empty text then Ok None
    else
      let* channel := channel_of split spk in
      let* start := or_raise ValueError (float_of_str start) in
      Ok (Some
        (supervision recording_id spk idx start duration text channel)).

(** The segments of one split. *)
Definition split_supervisions (split : split_name) (text_cleaning : bool)
  (transcript_paths : list transcript) : result (list SupervisionSegment) :=
  collect (process_line split text_cleaning) transcript_paths.


End Recipe.
End Callhome.

(** * The recipes *)

Module Gulf.
Import Py.

Definition words_to_remove : list str :=
  Eval vm_compute in
  [utf8 "(ضجة)"; utf8 "(ضجة\)"; utf8 "(تنفس)"; utf8 "(())"; utf8 "(ضحك)";
   utf8 "(الشفة)"; utf8 "(-ap Pronounced)"; utf8 "(lam Pronounced)";
   utf8 "(FOR)"; utf8 "(سعال)"; utf8 "(عطس)"; utf8 "(ENGLISH";
   utf8 "(FRENCH"; utf8 "(KURDISH"; utf8 "(PAKISTANI"].

Definition remove_special_words := Text.remove_special_words words_to_remove.
Definition remove_diacritics := Text.remove_diacritics.
Definition remove_punctuations := Text.remove_punctuations (utf8 " ").
Definition remove_non_alphanumeric {U : Unicode} :=
  Text.remove_non_alphanumeric.
Definition remove_extra_space := Text.remove_extra_space.

Definition cleaning {U : Unicode} (text : str) : str :=
  let text := remove_special_words text in
  let text := remove_diacritics text in
  let text := remove_punctuations text in
  let text := remove_non_alphanumeric text in
  let text := remove_extra_space text in
  let text := strip text in
  text.

(** The recipe: the recording identifier is [p.stem]. *)
Definition process_line {U : Unicode} :=
  Callhome.process_line (fun stem => stem) cleaning.

Definition split_supervisions {U : Unicode} :=
  Callhome.split_supervisions (fun stem => stem) cleaning.


End Gulf.

Module Iraqi.
Import Py.

Definition words_to_remove : list str :=
  Eval vm_compute in
  [utf8 "(ضجة)"; utf8 "(ضجة\)"; utf8 "(تنفس)"; utf8 "(())"; utf8 "(ضحك)";
   utf8 "(الشفة)"; utf8 "(-ap Pronounced)"; utf8 "(lam Pronounced)";
   utf8 "(FOR)"; utf8 "(سعال)"; utf8 "(عطس)"; utf8 "(ENGLISH";
   utf8 "(FRENCH"; utf8 "(KURDISH"; utf8 "(PAKISTANI"].

Definition remove_special_words := Text.remove_special_words words_to_remove.
Definition remove_diacritics := Text.remove_diacritics.
Definition remove_punctuations := Text.remove_punctuations (utf8 "").
Definition remove_non_alphanumeric {U : Unicode} :=
  Text.remove_non_alphanumeric.
Definition remove_extra_space := Text.remove_extra_space.

Definition cleaning {U : Unicode} (text : str) : str :=
  let text := remove_special_words text in
  let text := remove_diacritics text in
  let text := remove_punctuations text in
  let text := remove_non_alphanumeric text in
  let text := remove_extra_space text in
  let text := strip text in
  text.

(** The recipe: the recording identifier is [(p.stem).lower()]. *)
Definition process_line {U : Unicode} :=
  Callhome.process_line str_lower cleaning.

Definition split_supervisions {U : Unicode} :=
  Callhome.split_supervisions str_lower cleaning.


End Iraqi.

Module Levant.
Import Py Re Num Lhotse.

Definition words_to_remove : list str :=
  Eval vm_compute in
  [utf8 "%ضجّة"; utf8 "%أصوات"; utf8 "%أجنبي"; utf8 "(())"; utf8 "%تنفّس";
   utf8 "%مهم"; utf8 "%تداخل"; utf8 "%تداخل\"; utf8 "%سعال"; utf8 "%صمت";
   utf8 "%متكلمجديد"; utf8 "%متكلمجديد\"; utf8 "%ضحك"].

Definition remove_special_words := Text.remove_special_words words_to_remove.
Definition remove_diacritics := Text.remove_diacritics.
Definition remove_punctuations := Text.remove_punctuations (utf8 " ").
Definition remove_non_alphanumeric {U : Unicode} :=
  Text.remove_non_alphanumeric.
Definition remove_extra_space := Text.remove_extra_space.

Definition cleaning {U : Unicode} (text : str) : str :=
  let text := remove_special_words text in
  let text := remove_diacritics text in
  let text := remove_punctuations text in
  let text := remove_non_alphanumeric text in
  let text := remove_extra_space text in
  let text := strip text in
  text.

(** Only the colon is removed from the speaker field. *)
Definition speaker_tag (spk : str) : str := replace (utf8 ":") (utf8 "") spk.

(** The body of the loop over the lines of one transcript. *)
Definition process_line {U : Unicode} (text_cleaning : bool) (stem : str)
  (idx : Z) (line : str) : result (option SupervisionSegment) :=
  let line := strip line in
  if is_empty line || Nat.ltb (length (Py.split line)) 4 then Ok None
  else
    let recording_id := str_lower stem in
    let* (start, end_, spk, text) := unpack4 (split_max 3 line) in
    let spk := speaker_tag spk in
    let* dend := or_raise InvalidOperation (Decimal end_) in
    let* dstart := or_raise InvalidOperation (Decimal start) in
    let duration := float_of_decimal (decimal_sub dend dstart) in
    let text := if text_cleaning then cleaning text else text in
    if le_zero duration || is_empty text then Ok None
    else
      let* start := or_raise ValueError (float_of_str start) in
      let* c := ord spk in
      let channel := c - 65 in
      Ok (Some
        (Callhome.supervision recording_id spk idx start duration text
           channel)).

(** The segments handed to [SupervisionSet.from_segments]. *)
Definition all_supervisions {U : Unicode} (text_cleaning : bool)
  (transcript_paths : list transcript) : result (list SupervisionSegment) :=
  Callhome.collect (process_line text_cleaning) transcript_paths.

(** [dev_re.match(t)] and [test_re.match(t)] for the patterns
    [fla_00[0-7][0-9]] and [fla_01[0-7][0-9]]: a match at the start of
    the string. *)
Definition match_fla (prefix : str) (t : str) : bool :=
  startswith prefix t
  && match skipn (length prefix) t with
     | a :: b :: _ => in_range 48 55 a && in_range 48 57 b
     | _ => false
     end.

Definition dev_re : str -> bool := match_fla (utf8 "fla_00").
Definition test_re : str -> bool := match_fla (utf8 "fla_01").

(** What [lev_split] writes to the output directory. *)
Record subsets := {
  sup_lev_train : list SupervisionSegment;
  sup_lev_dev : list SupervisionSegment;
  sup_lev_test : list SupervisionSegment;
  rec_lev_train : list Recording;
  rec_lev_dev : list Recording;
  rec_lev_test : list Recording
}.

Definition lev_filters (all_supervisions : list SupervisionSegment)
  (all_recordings : list Recording) : subsets :=
  {| sup_lev_train :=
       filter (fun x => negb (test_re (recording_id x))
                        && negb (dev_re (recording_id x))) all_supervisions;
     sup_lev_dev := filter (fun x => dev_re (recording_id x)) all_supervisions;
     sup_lev_test :=
       filter (fun x => test_re (recording_id x)) all_supervisions;
     rec_lev_train :=
       filter (fun x => negb (test_re (rec_id x)) && negb (dev_re (rec_id x)))
         all_recordings;
     rec_lev_dev := filter (fun x => dev_re (rec_id x)) all_recordings;
     rec_lev_test := filter (fun x => test_re (rec_id x)) all_recordings |}.

(** The three assertions on the sizes of the recording subsets. *)
Definition check_sizes (s : subsets) : result subsets :=
  if negb (Z.of_nat (length (rec_lev_dev s)) =? 79)
  then Raise AssertionError
  else if negb (Z.of_nat (length (rec_lev_test s)) =? 80)
  then Raise AssertionError
  else if negb (Z.of_nat (length (rec_lev_train s)) =? 1499)
  then Raise AssertionError
  else Ok s.

(** [lev_split] opens with [pdb.set_trace()]. *)
Definition lev_split (all_supervisions : list SupervisionSegment)
  (all_recordings : list Recording) : run subsets :=
  Breakpoint (fun command =>
    match command with
    | pdb_quit => Done (Raise BdbQuit)
    | pdb_continue =>
      Done (check_sizes (lev_filters all_supervisions all_recordings))
    end).

(** The recipe with [skip_prep=False]. *)
Definition prepare_callhome_levant {U : Unicode}
  (all_recordings : list Recording) (transcript_paths : list transcript)
  (text_cleaning : bool) : run subsets :=
  match all_supervisions text_cleaning transcript_paths with
  | Raise e => Done (Raise e)
  | Ok supervisions => lev_split supervisions all_recordings
  end.

End Levant.

Module Qasr.
Import Py Re Num Lhotse.

Definition remove_diacritics := Text.remove_diacritics.
Definition remove_punctuations := Text.remove_punctuations (utf8 " ").
Definition remove_non_alphanumeric {U : Unicode} :=
  Text.remove_non_alphanumeric.
Definition remove_extra_space := Text.remove_extra_space.

(** [word.isnumeric()] *)
Definition str_isnumeric {U : Unicode} (word : str) : bool :=
  match word with
  | [] => false
  | _ :: _ => forallb isnumeric word
  end.

Definition remove_single_char_word {U : Unicode} (text : str) : str :=
  let words := split text in
  let filter_words :=
    filter (fun word => (1 <? length word)%nat || str_isnumeric word) words in
  join (utf8 " ") filter_words.

Definition eastern_to_western : list (Z * Z) :=
  [(0x660, 48); (0x661, 49); (0x662, 50); (0x663, 51); (0x664, 52);
   (0x665, 53); (0x666, 54); (0x667, 55); (0x668, 56); (0x669, 57);
   (0x66A, 37); (95, 32); (0x6A4, 0x641); (124, 32)].

Fixpoint translate_char (table : list (Z * Z)) (c : Z) : Z :=
  match table with
  | [] => c
  | (k, v) :: table' => if c =? k then v else translate_char table' c
  end.

(** [text.translate(str.maketrans(eastern_to_western))] *)
Definition east_to_west_num (text : str) : str :=
  map (translate_char eastern_to_western) text.

Definition cleaning {U : Unicode} (text : str) : str :=
  let text := remove_punctuations text in
  let text := east_to_west_num text in
  let text := remove_diacritics text in
  let text := remove_non_alphanumeric text in
  let text := remove_single_char_word text in
  let text := remove_extra_space text in
  text.

(** [f.readlines()]: the lines with their terminator, after the
    translation of every line ending to a line feed. *)
Fixpoint readlines_from (after_cr : bool) (cur : str) (t : str) : list str :=
  match t with
  | [] => match cur with [] => [] | _ :: _ => [rev cur] end
  | c :: t' =>
    if after_cr && (c =? 10) then readlines_from false cur t'
    else if (c =? 10) || (c =? 13)
    then rev (10 :: cur) :: readlines_from (c =? 13) [] t'
    else readlines_from false (c :: cur) t'
  end.

Definition readlines (t : str) : list str := readlines_from false [] t.

(** [int(t)/100]: the float nearest to the quotient. *)
Definition hundredth (n : Z) : result float :=
  let x := float_of_ratio (n <? 0) (Z.abs n) 100 in
  if is_finite x then Ok x else Raise OverflowError.

(** The body of the loop of [read_text]: the segment of one line. *)
Definition read_line (line : str) : result SupervisionSegment :=
  let* line1 := index (Py.split (strip line)) 0 in
  let text := join (utf8 " ") (tl (Py.split (strip line))) in
  let* (rec_id, spk, time) := unpack3 (split_sep (utf8 "_") line1) in
  let* spk := index (split_sep (utf8 "-") spk) 1 in
  let* spk := or_raise ValueError (int_of_str spk) in
  let* (s_time1, e_time1) :=
    unpack2 (split_sep (utf8 ":") (replace (utf8 "seg-") (utf8 "") time)) in
  let* s_int := or_raise ValueError (int_of_str s_time1) in
  let* s_time := hundredth s_int in
  let* e_int := or_raise ValueError (int_of_str e_time1) in
  let* e_time := hundredth e_int in
  Ok {| id := rec_id ++ utf8 "_" ++ str_of_int spk ++ utf8 "_" ++ s_time1
              ++ utf8 "_" ++ e_time1;
        recording_id := rec_id;
        start := s_time;
        duration := round (fsub e_time s_time) 10;
        channel := 0;
        text := text;
        language := Some (utf8 "ar");
        speaker := SpeakerIndex spk |}.

Definition read_text (file : str) : result (list SupervisionSegment) :=
  for_each
    (fun segments line =>
       let* s := read_line line in Ok (segments ++ [s]))
    (readlines file) [].

(** A [segment] element of a parsed transcript document: the
    attributes that [make_supervisions] reads and the [string] of each
    [element] below it. *)
Record xml_segment := {
  seg_id : str;
  who : str;
  starttime : str;
  endtime : str;
  WMER : str;
  elements : list (option str)
}.

Definition isword {U : Unicode} (c : Z) : bool := isalnum c || (c =? 95).

(** What follows [speaker] in a match of [\w+speaker(\d+)\w+]: the
    longest run of [j] digits, among the first [n], that a word
    character follows is the group. *)
Fixpoint speaker_group {U : Unicode} (n : nat) (t : str) : option str :=
  match n with
  | O => None
  | S j =>
    match skipn n t with
    | c :: _ => if isword c then Some (firstn n t) else speaker_group j t
    | [] => speaker_group j t
    end
  end.

(** The greedy prefix [\w+]: the longest of the first [n] characters
    after which the rest of the pattern matches. *)
Fixpoint speaker_match {U : Unicode} (n : nat) (t : str) : option str :=
  match n with
  | O => None
  | S j =>
    let r := skipn n t in
    let found :=
      if startswith (utf8 "speaker") r
      then let d := skipn 7 r in
           speaker_group (length (takewhile isdecimal d)) d
      else None in
    match found with
    | Some g => Some g
    | None => speaker_match j t
    end
  end.

(** [match(r"\w+speaker(\d+)\w+", t).group(1)] *)
Definition speaker_of {U : Unicode} (t : str) : result str :=
  or_raise AttributeError
    (speaker_match (length (takewhile isword t)) t).

(** The hundredths of a timestamp: [int(float(t)*100)]. *)
Definition centiseconds (t : str) : result Z :=
  let* x := or_raise ValueError (float_of_str t) in
  match fmul x (float_of_int 100) with
  | S754_infinity _ => Raise OverflowError
  | y => or_raise ValueError (int_of_float y)
  end.

(** One item of the list comprehension of [make_supervisions]; [None]
    when the condition drops the segment. *)
Definition make_supervision {U : Unicode} (mer_thresh : option Z)
  (segment : xml_segment) : result (option SupervisionSegment) :=
  let* keep :=
    match mer_thresh with
    | None => Ok true
    | Some thresh =>
      let* wmer := or_raise ValueError (float_of_str (WMER segment)) in
      Ok (le_int wmer thresh)
    end in
  if negb keep then Ok None
  else
    let* head := index (split_sep (utf8 "_utt") (seg_id segment)) 0 in
    let* g := speaker_of (who segment) in
    let* spk := or_raise ValueError (int_of_str g) in
    let* s_cs := centiseconds (starttime segment) in
    let* e_cs := centiseconds (endtime segment) in
    let* s_time := or_raise ValueError (float_of_str (starttime segment)) in
    let* e_time := or_raise ValueError (float_of_str (endtime segment)) in
    Ok (Some
      {| id := head ++ utf8 "_" ++ str_of_int spk ++ utf8 "_"
               ++ zfill 7 (str_of_int s_cs) ++ utf8 "_"
               ++ zfill 7 (str_of_int e_cs);
         recording_id := replace (utf8 "_") (utf8 "-") head;
         start := s_time;
         duration := round (fsub e_time s_time) 8;
         channel := 0;
         text := join (utf8 " ")
                   (flat_map (fun e => match e with
                                       | Some s => [s]
                                       | None => []
                                       end) (elements segment));
         language := Some (utf8 "ar");
         speaker := SpeakerIndex spk |}).

Definition make_supervisions {U : Unicode} (xml : list xml_segment)
  (mer_thresh : option Z) : result (list SupervisionSegment) :=
  for_each
    (fun segments segment =>
       let* r := make_supervision mer_thresh segment in
       match r with
       | Some s => Ok (segments ++ [s])
       | None => Ok segments
       end)
    xml [].

(** The parts of the corpus and what each is read from. *)
Inductive part_input :=
| test_part (verbatim : str)
| dev_part (verbatim : str)
| train_part (xml_paths : list (list xml_segment)).

(** The supervision count that the recipe asserts for each part. *)
Definition expected_count (part : part_input) : Z :=
  match part with
  | test_part _ => 5366
  | dev_part _ => 5002
  | train_part _ => 1592226
  end.

Definition supervisions_list {U : Unicode} (part : part_input)
  (mer_thresh : option Z) : result (list SupervisionSegment) :=
  match part with
  | test_part verbatim | dev_part verbatim => read_text verbatim
  | train_part xml_paths =>
    for_each
      (fun segments p =>
         let* l := make_supervisions p mer_thresh in Ok (segments ++ l))
      xml_paths []
  end.

(** One iteration of the loop of [prepare_qasr] over the parts, for a
    part whose manifests are not cached: the supervisions that go to
    [fix_manifests]. *)
Definition prepare_part {U : Unicode} (part : part_input)
  (text_cleaning : bool) (mer_thresh : option Z)
  : result (list SupervisionSegment) :=
  let* supervisions_list := supervisions_list part mer_thresh in
  let supervisions :=
    filter (fun s => gt_zero (duration s)) supervisions_list in
  if negb (Z.of_nat (length supervisions) =? expected_count part)
  then Raise AssertionError
  else
    let supervisions :=
      if text_cleaning then transform_text cleaning supervisions
      else supervisions in
    Ok supervisions.

(** The loop over [dataset_parts = ["test", "train_20210109", "dev"]]. *)
Definition prepare_qasr {U : Unicode} (test_verbatim : str)
  (train_xml : list (list xml_segment)) (dev_verbatim : str)
  (text_cleaning : bool) (mer_thresh : option Z)
  : result (list (part_input * list SupervisionSegment)) :=
  for_each
    (fun manifests part =>
       let* supervisions := prepare_part part text_cleaning mer_thresh in
       Ok (manifests ++ [(part, supervisions)]))
    [test_part test_verbatim; train_part train_xml; dev_part dev_verbatim] [].

End Qasr.

(** * The whole call of the Levantine recipe

    [prepare_callhome_levant] with its parameters [output_dir] and
    [skip_prep].  The local variables [manifests], [recordings] and
    [supervisions] are assigned under [if not skip_prep] only, and
    [recordings] and [supervisions] again when the manifest file is
    found in the output directory.  The functions that are not part of
    the recipe files are parameters: each returns a value or fails. *)

Module LevantCall.
Import Py Lhotse.

(** How a call ends when it does not return: with an exception that a
    statement of the recipe raises, with the [UnboundLocalError] of a
    local variable that is read before it is assigned, or with an
    exception that a function outside the recipe files raises. *)
Inductive failure :=
| Raised (e : exn)
| UnboundLocalError
| Outside (name : str).

Inductive outcome (A : Type) :=
| Returns (a : A)
| Fails (f : failure).

Arguments Returns {A} a.
Arguments Fails {A} f.

(** A call that may stop at debugger prompts. *)
Inductive call (A : Type) :=
| Ends (o : outcome A)
| Prompt (k : pdb_command -> call A).

Arguments Ends {A} o.
Arguments Prompt {A} k.

(** The call ends with [o] for some commands typed at its prompts. *)
Inductive ends_with {A : Type} : call A -> outcome A -> Prop :=
| ends_now o : ends_with (Ends o) o
| ends_later k command o : ends_with (k command) o -> ends_with (Prompt k) o.

(** What follows a function that may stop at a breakpoint. *)
Fixpoint after_run {A B : Type} (r : run A) (k : A -> call B) : call B :=
  match r with
  | Done (Ok a) => k a
  | Done (Raise e) => Ends (Fails (Raised e))
  | Breakpoint f => Prompt (fun command => after_run (f command) k)
  end.

(** The pair of manifests, and the dictionary that the recipe returns. *)
Definition pair : Type := list Recording * list SupervisionSegment.
Definition manifests : Type := list (str * pair).

Section Call.
Context {U : Unicode}.

(** [glob] on the audio directory, [Recording.from_file] and
    [RecordingSet.from_recordings]. *)
Variable from_recordings : outcome (list Recording).

(** The transcripts that [glob] finds. *)
Variable transcript_paths : list transcript.

(** [SupervisionSet.from_segments], [fix_manifests] and
    [validate_recordings_and_supervisions]. *)
Variable fix_and_validate :
  list Recording -> list SupervisionSegment -> outcome pair.

(** [mkdir] and the two calls of [to_file] for the whole corpus. *)
Variable write_all : pair -> outcome unit.

(** The test [is_file] on the manifest of all recordings and the two
    calls of [from_file]: [None] when the file is not there.  The
    argument is what this call has written, if it has. *)
Variable load_all : option pair -> option (outcome pair).

(** The six calls of [to_file] at the end of [lev_split]. *)
Variable write_subsets : Levant.subsets -> outcome unit.

(** The statements under [if not skip_prep], after [manifests = {}]. *)
Definition prepare_manifests (output_dir : option str) (text_cleaning : bool)
  : outcome pair :=
  match from_recordings with
  | Fails f => Fails f
  | Returns recordings =>
    match Levant.all_supervisions text_cleaning transcript_paths with
    | Raise e => Fails (Raised e)
    | Ok supervisions =>
      match fix_and_validate recordings supervisions with
      | Fails f => Fails f
      | Returns (recordings, supervisions) =>
        match output_dir with
        | None => Returns (recordings, supervisions)
        | Some _ =>
          match write_all (recordings, supervisions) with
          | Fails f => Fails f
          | Returns _ => Returns (recordings, supervisions)
          end
        end
      end
    end
  end.

(** The function.  [manifests] and [locals] are the local variables
    [manifests] and [recordings], [supervisions]: [None] while they
    are not assigned. *)
Definition prepare_callhome_levant (output_dir : option str)
  (text_cleaning skip_prep : bool) : call manifests :=
  let first : outcome (option manifests * option pair) :=
    if skip_prep then Returns (None, None)
    else
      match prepare_manifests output_dir text_cleaning with
      | Fails f => Fails f
      | Returns rs => Returns (Some [], Some rs)
      end in
  match first with
  | Fails f => Ends (Fails f)
  | Returns (manifests, locals) =>
    match output_dir with
    | None => Ends (Fails (Raised TypeError))
    | Some _ =>
      let reloaded : outcome (option pair) :=
        match load_all locals with
        | None => Returns locals
        | Some (Fails f) => Fails f
        | Some (Returns rs) => Returns (Some rs)
        end in
      match reloaded with
      | Fails f => Ends (Fails f)
      | Returns None => Ends (Fails UnboundLocalError)
      | Returns (Some (recordings, supervisions)) =>
        after_run (Levant.lev_split supervisions recordings)
          (fun subsets =>
             match write_subsets subsets with
             | Fails f => Ends (Fails f)
             | Returns _ =>
               match manifests with
               | None => Ends (Fails UnboundLocalError)
               | Some m =>
                 Ends (Returns
                         (m ++ [(utf8 "train", (recordings, supervisions))]))
               end
             end)
      end
    end
  end.

End Call.
End LevantCall.

(** * The tables on ASCII and the Arabic block

    An instance of the tables that serves to evaluate the recipes on
    concrete transcripts.  It agrees with the Unicode database on
    ASCII, on the Arabic letters U+0620 to U+064A and on the two ranges
    of Arabic digits, which is where the characters of the sample
    transcripts lie. *)

Module Basic.
Import Py.

Definition basic_isdecimal (c : Z) : bool :=
  is_ascii_digit c || in_range 0x660 0x669 c || in_range 0x6F0 0x6F9 c.

Definition basic_isalnum (c : Z) : bool :=
  is_ascii_digit c || is_ascii_upper c || is_ascii_lower c
  || in_range 0x620 0x64A c || basic_isdecimal c.

Definition basic_lower (c : Z) : list Z :=
  if is_ascii_upper c then [c + 32] else [c].

#[export] Instance basic_unicode : Unicode :=
  {| isdecimal := basic_isdecimal;
     isnumeric := basic_isdecimal;
     isalnum := basic_isalnum;
     lower := basic_lower |}.

End Basic.
(** * Sample inputs

    Lines, transcripts and segments on which the statements below are
    tried. *)

Module Samples.
Import Py Num Lhotse.

Definition raw_text : str :=
  Eval vm_compute in utf8 "ألو (ضجة) ١٢ a Hello_World".


(** The example line of the recipes. *)
Definition example_line : str :=
  Eval vm_compute in
  utf8 "[3.2701] [5.4100]" ++ [9] ++ utf8 "B:" ++ [9] ++ utf8 "ألو (ضجة)"
  ++ [9] ++ utf8 ">alaw (Djp)".

Definition example_transcript : transcript :=
  Eval vm_compute in
  {| stem := utf8 "AR_4001"; content := example_line ++ [10] |}.

(** Its segment in the Gulf recipe and in the Iraqi recipe. *)
Definition gulf_segment : SupervisionSegment :=
  Eval vm_compute in
  Callhome.supervision (utf8 "AR_4001") (utf8 "B") 0
    (S754_finite false 7363610570732129 (-51))
    (S754_finite false 4818626421305062 (-51))
    (utf8 "ألو") 1.

Definition iraqi_segment : SupervisionSegment :=
  Eval vm_compute in
  Callhome.supervision (utf8 "ar_4001") (utf8 "B") 0
    (S754_finite false 7363610570732129 (-51))
    (S754_finite false 4818626421305062 (-51))
    (utf8 "ألو") 1.

(** The segment of the same line in the single-channel split. *)
Definition gulf_segment_1c : SupervisionSegment :=
  Eval vm_compute in
  Callhome.supervision (utf8 "AR_4001") (utf8 "B") 0
    (S754_finite false 7363610570732129 (-51))
    (S754_finite false 4818626421305062 (-51))
    (utf8 "ألو") 0.

Definition levant_transcript : transcript :=
  Eval vm_compute in
  {| stem := utf8 "FLA_0001";
     content := utf8 "7.29 8.35 A: يعطيك العافية" ++ [10] |}.

Definition levant_segment : SupervisionSegment :=
  Eval vm_compute in
  Callhome.supervision (utf8 "fla_0001") (utf8 "A") 0
    (S754_finite false 8207810320882729 (-50))
    (S754_finite false 4773815605012726 (-52))
    (utf8 "يعطيك العافية") 0.

(** A Gulf transcript whose only line starts before zero. *)
Definition early_transcript : transcript :=
  Eval vm_compute in
  {| stem := utf8 "AR_4003";
     content := utf8 "[-1.0] [2.0]" ++ [9] ++ utf8 "A:" ++ [9] ++ utf8 "ألو"
                ++ [9] ++ utf8 ">alw" ++ [10] |}.

(** Two transcripts of one Iraqi split whose stems differ in the case
    of their letters only. *)
Definition iraqi_pair : list transcript :=
  Eval vm_compute in
  [ {| stem := utf8 "AR_4001"; content := example_line ++ [10] |};
    {| stem := utf8 "ar_4001"; content := example_line ++ [10] |} ].

(** Two lines of the flat format with the same compound identifier. *)
Definition flat_line : str :=
  Eval vm_compute in utf8 "ABC123_spk-0001_seg-0000171:0000458 hello".

Definition flat_line_again : str :=
  Eval vm_compute in utf8 "ABC123_spk-0001_seg-0000171:0000458 hello again".

Definition flat_segment : SupervisionSegment :=
  Eval vm_compute in
  {| id := utf8 "ABC123_1_0000171_0000458";
     recording_id := utf8 "ABC123";
     start := S754_finite false 7701155362803548 (-52);
     duration := S754_finite false 6462665465276662 (-51);
     channel := 0;
     text := utf8 "hello";
     language := Some (utf8 "ar");
     speaker := SpeakerIndex 1 |}.

Definition flat_segment_again : SupervisionSegment :=
  Eval vm_compute in set_text (fun _ => utf8 "hello again") flat_segment.


(** A flat transcript whose only line lacks the speaker part of the
    compound identifier. *)
Definition undecodable_flat : str :=
  Eval vm_compute in utf8 "rec01_seg-0000001:0000002 hello" ++ [10].

(** A line with five tab-separated fields. *)
Definition five_fields : str :=
  Eval vm_compute in
  utf8 "[1.0] [2.0]" ++ [9] ++ utf8 "A:" ++ [9] ++ utf8 "ألو" ++ [9]
  ++ utf8 ">alw" ++ [9] ++ utf8 "x".

(** A line with two tab-separated fields. *)
Definition two_fields : str := Eval vm_compute in utf8 "[1.0] [2.0]" ++ [9] ++ utf8 "A:".

Definition flat_file : str := Eval vm_compute in flat_line ++ [10].

(** A short line of the flat format. *)
Definition short_flat_line : str := Eval vm_compute in utf8 "r_s-1_seg-5:9 hi".

(** A [segment] element of a structured transcript. *)
Definition xml_example : Qasr.xml_segment :=
  Eval vm_compute in
  {| Qasr.seg_id := utf8 "ABC_DEF_utt_12";
     Qasr.who := utf8 "ABC_DEF_speaker3_x";
     Qasr.starttime := utf8 "1.5";
     Qasr.endtime := utf8 "2.75";
     Qasr.WMER := utf8 "12.5";
     Qasr.elements := [Some (utf8 "a"); None; Some (utf8 "b")] |}.

Definition xml_segment_example : SupervisionSegment :=
  Eval vm_compute in
  {| id := utf8 "ABC_DEF_3_0000150_0000275";
     recording_id := utf8 "ABC-DEF";
     start := S754_finite false 6755399441055744 (-52);
     duration := S754_finite false 5629499534213120 (-52);
     channel := 0;
     text := utf8 "a b";
     language := Some (utf8 "ar");
     speaker := SpeakerIndex 3 |}.






Definition field (fields : list str) (i : nat) : str := nth i fields [].

Definition levant_two_letter_line : str :=
  Eval vm_compute in utf8 "9.10 9.90 AB: يعطيك العافية".

Definition levant_first_line : str :=
  Eval vm_compute in utf8 "7.29 8.35 A: يعطيك العافية".




End Samples.

(** * More sample inputs *)

Module MoreSamples.
Import Py Num Lhotse Samples.

(** A Gulf transcript of three lines, the second of which has two
    fields only. *)
Definition gapped_transcript : transcript :=
  Eval vm_compute in
  {| stem := utf8 "AR_4004";
     content := example_line ++ [10] ++ two_fields ++ [10]
                ++ utf8 "[6.10] [7.25]" ++ [9] ++ utf8 "A:" ++ [9]
                ++ utf8 "نعم" ++ [9] ++ utf8 "nEm" ++ [10] |}.

(** Its two segments. *)
Definition gapped_segments : list SupervisionSegment :=
  Eval vm_compute in
  [ Callhome.supervision (utf8 "AR_4004") (utf8 "B") 0
      (S754_finite false 7363610570732129 (-51))
      (S754_finite false 4818626421305062 (-51))
      (utf8 "ألو") 1;
    Callhome.supervision (utf8 "AR_4004") (utf8 "A") 1
      (float_of_decimal {| dneg := false; dcoeff := 610; dexp := -2 |})
      (float_of_decimal {| dneg := false; dcoeff := 115; dexp := -2 |})
      (utf8 "نعم") 0 ].

(** A line whose time field holds one stamp. *)
Definition one_stamp : str :=
  Eval vm_compute in
  utf8 "[1.0]" ++ [9] ++ utf8 "A:" ++ [9] ++ utf8 "ألو" ++ [9] ++ utf8 ">alw".





(** A flat transcript whose second line is blank. *)
Definition flat_with_blank : str :=
  Eval vm_compute in flat_line ++ [10] ++ utf8 "  " ++ [10].

(** A flat line whose compound identifier has two parts, and one whose
    speaker part has no hyphen. *)
Definition flat_two_parts : str :=
  Eval vm_compute in utf8 "rec01_seg-0000001:0000002 hello".

Definition flat_no_hyphen : str :=
  Eval vm_compute in utf8 "rec01_spk1_seg-0000001:0000002 hello".

(** A structured segment whose match error rate is 85.5, with an
    end time that is not a number, after a segment that is kept. *)
Definition xml_noisy : Qasr.xml_segment :=
  Eval vm_compute in
  {| Qasr.seg_id := utf8 "ABC_DEF_utt_13";
     Qasr.who := utf8 "ABC_DEF_speaker3_x";
     Qasr.starttime := utf8 "2.75";
     Qasr.endtime := utf8 "3.5";
     Qasr.WMER := utf8 "85.5";
     Qasr.elements := [Some (utf8 "c")] |}.

Definition xml_noisy_segment : SupervisionSegment :=
  Eval vm_compute in
  {| id := utf8 "ABC_DEF_3_0000275_0000350";
     recording_id := utf8 "ABC-DEF";
     start := S754_finite false 6192449487634432 (-51);
     duration := S754_finite false 6755399441055744 (-53);
     channel := 0;
     text := utf8 "c";
     language := Some (utf8 "ar");
     speaker := SpeakerIndex 3 |}.

(** Recordings as the Levantine split expects them: 79 whose
    identifiers match the dev pattern, 80 that match the test pattern
    and 1499 others. *)
Definition numbered (prefix : str) (width : nat) (n : nat) : list Recording :=
  map (fun i => {| rec_id := prefix ++ rjust width 48 (str_of_int (Z.of_nat i)) |})
    (seq 0 n).

Definition levant_recordings : list Recording :=
  numbered (utf8 "fla_00") 2 79 ++ numbered (utf8 "fla_01") 2 80
  ++ numbered (utf8 "fla_1") 3 1499.

(** Functions outside the recipe that never fail: validation that
    changes nothing, writing, and reading back what was written. *)
Definition unchanged (recordings : list Recording)
  (supervisions : list SupervisionSegment) : LevantCall.outcome LevantCall.pair :=
  LevantCall.Returns (recordings, supervisions).

Definition always_written {A : Type} (x : A) : LevantCall.outcome unit :=
  LevantCall.Returns tt.

Definition read_back (written : option LevantCall.pair)
  : option (LevantCall.outcome LevantCall.pair) :=
  option_map LevantCall.Returns written.



End MoreSamples.


(** * Facts about the string primitives *)

Module PyFacts.
Import Py Re.

Lemma mem_In c l : mem c l = true <-> In c l.
Proof.
  unfold mem. rewrite existsb_exists. split.
  - intros [x [Hx Hc]]. apply Z.eqb_eq in Hc. now subst.
  - intro H. exists c. split; [assumption | apply Z.eqb_refl].
Qed.

Lemma mem_not_In c l : mem c l = false <-> ~ In c l.
Proof.
  rewrite <- mem_In. destruct (mem c l); split; congruence.
Qed.

Lemma startswith_In p : forall t c,
  startswith p t = true -> In c p -> In c t.
Proof.
  induction p as [|x p IH]; intros [|y t] c H Hc; simpl in *;
    try contradiction; try discriminate.
  apply andb_true_iff in H as [Hxy Hp]. apply Z.eqb_eq in Hxy. subst y.
  destruct Hc as [-> | Hc]; [now left | right; eauto].
Qed.

Lemma contains_In w : forall t c,
  contains w t = true -> In c w -> In c t.
Proof.
  induction t as [|y t IH]; intros c H Hc; simpl in H.
  - destruct w; [contradiction | discriminate].
  - apply orb_true_iff in H as [H | H].
    + eapply startswith_In; eassumption.
    + right. eauto.
Qed.

Lemma contains_absent w t c :
  In c w -> ~ In c t -> contains w t = false.
Proof.
  intros Hw Ht. destruct (contains w t) eqn:E; [|reflexivity].
  exfalso. apply Ht. eapply contains_In; eassumption.
Qed.

(** Replacing a single character is a character-wise substitution. *)
Lemma replace_char p r t :
  replace [p] r t = flat_map (fun c => if c =? p then r else [c]) t.
Proof.
  unfold replace. induction t as [|c t IH]; [reflexivity|].
  simpl. rewrite (Z.eqb_sym p c). destruct (c =? p); simpl.
  - now rewrite IH.
  - now rewrite IH.
Qed.

Lemma flat_map_fix (f : Z -> list Z) t :
  Forall (fun c => f c = [c]) t -> flat_map f t = t.
Proof.
  induction 1 as [|c t Hc _ IH]; simpl; [reflexivity|].
  now rewrite Hc, IH.
Qed.

Lemma contains_char p t : contains [p] t = mem p t.
Proof.
  induction t as [|c t IH]; [reflexivity|].
  simpl. rewrite IH. now rewrite andb_true_r.
Qed.

(** The guard [if p in text] never changes the outcome. *)
Lemma replace_char_guard p r t :
  (if contains [p] t then replace [p] r t else t) = replace [p] r t.
Proof.
  destruct (contains [p] t) eqn:E; [reflexivity|].
  rewrite replace_char. symmetry. apply flat_map_fix.
  rewrite contains_char in E. apply mem_not_In in E.
  apply Forall_forall. intros c Hc.
  destruct (Z.eqb_spec c p); [subst; contradiction | reflexivity].
Qed.

Lemma filter_fix (f : Z -> bool) t :
  Forall (fun c => f c = true) t -> filter f t = t.
Proof.
  induction 1 as [|c t Hc _ IH]; simpl; [reflexivity|].
  now rewrite Hc, IH.
Qed.

Lemma sub_class_fix cls t :
  Forall (fun c => cls c = false) t -> sub_class cls t = t.
Proof.
  intro H. apply filter_fix. eapply Forall_impl; [|exact H].
  simpl. intros c ->. reflexivity.
Qed.

Lemma sub_class_Forall cls t : Forall (fun c => cls c = false) (sub_class cls t).
Proof.
  apply Forall_forall. intros c Hc. apply filter_In in Hc as [_ Hc].
  now apply negb_true_iff in Hc.
Qed.

Lemma sub_class_keeps (P : Z -> Prop) cls t :
  Forall P t -> Forall P (sub_class cls t).
Proof.
  intro H. apply Forall_forall. intros c Hc. apply filter_In in Hc as [Hc _].
  rewrite Forall_forall in H. auto.
Qed.

(** ** Whitespace *)

(** [spaced prev t]: every whitespace character of [t] is a single
    space that follows a non-whitespace character, [prev] telling
    whether whitespace comes just before [t]. *)
Fixpoint spaced (prev : bool) (t : str) : bool :=
  match t with
  | [] => true
  | c :: t' =>
    if isspace c then negb prev && (c =? 32) && spaced true t'
    else spaced false t'
  end.

Lemma spaced_sub_spaces t : forall b, spaced b (sub_spaces b t) = true.
Proof.
  induction t as [|c t IH]; intro b; simpl; [reflexivity|].
  destruct (isspace c) eqn:E.
  - destruct b; [apply IH|]. simpl. apply IH.
  - simpl. rewrite E. apply IH.
Qed.

Lemma sub_spaces_fix t : forall b, spaced b t = true -> sub_spaces b t = t.
Proof.
  induction t as [|c t IH]; intros b H; simpl in *; [reflexivity|].
  destruct (isspace c) eqn:E.
  - apply andb_true_iff in H as [H Ht]. apply andb_true_iff in H as [Hb Hc].
    apply negb_true_iff in Hb. apply Z.eqb_eq in Hc. subst.
    now rewrite IH.
  - now rewrite IH.
Qed.

Lemma spaced_weaken t : spaced true t = true -> spaced false t = true.
Proof.
  destruct t as [|c t]; simpl; [reflexivity|].
  destruct (isspace c); [discriminate | auto].
Qed.

Lemma spaced_any t b : spaced b t = true -> spaced false t = true.
Proof. destruct b; [apply spaced_weaken | auto]. Qed.

Lemma spaced_app t u : forall b, spaced b (t ++ u) = true -> spaced b t = true.
Proof.
  induction t as [|c t IH]; intros b H; simpl in *; [reflexivity|].
  destruct (isspace c).
  - apply andb_true_iff in H as [H Ht]. rewrite H. simpl. eauto.
  - eauto.
Qed.

Lemma spaced_dropwhile t : forall b,
  spaced b t = true -> spaced false (dropwhile isspace t) = true.
Proof.
  induction t as [|c t IH]; intros b H; simpl in *; [reflexivity|].
  destruct (isspace c) eqn:E.
  - apply andb_true_iff in H as [_ Ht]. eauto.
  - simpl. now rewrite E.
Qed.

Lemma takewhile_dropwhile f t : takewhile f t ++ dropwhile f t = t.
Proof.
  induction t as [|c t IH]; simpl; [reflexivity|].
  destruct (f c); simpl; [now rewrite IH | reflexivity].
Qed.

(** [rstrip] cuts a suffix off. *)
Lemma rstrip_prefix t : exists u, t = rstrip t ++ u.
Proof.
  unfold rstrip. exists (rev (takewhile isspace (rev t))).
  rewrite <- rev_app_distr, takewhile_dropwhile. now rewrite rev_involutive.
Qed.

Lemma spaced_strip t b : spaced b t = true -> spaced false (strip t) = true.
Proof.
  intro H. unfold strip. apply spaced_dropwhile in H.
  destruct (rstrip_prefix (lstrip t)) as [u Hu].
  unfold lstrip in *. rewrite Hu in H. eapply spaced_app. exact H.
Qed.

(** No whitespace at the head. *)
Definition no_lead (t : str) : Prop :=
  match t with
  | [] => True
  | c :: _ => isspace c = false
  end.

Lemma no_lead_dropwhile t : no_lead (dropwhile isspace t).
Proof.
  induction t as [|c t IH]; simpl; [exact I|].
  destruct (isspace c) eqn:E; [exact IH | exact E].
Qed.

Lemma dropwhile_fix t : no_lead t -> dropwhile isspace t = t.
Proof.
  destruct t as [|c t]; simpl; [reflexivity|]. now intros ->.
Qed.

Lemma no_lead_rstrip t : no_lead t -> no_lead (rstrip t).
Proof.
  destruct t as [|c t]; intro H; [exact I|]. simpl in H.
  unfold rstrip. simpl.
  assert (G : forall u, exists v, dropwhile isspace (u ++ [c]) = v ++ [c]).
  { induction u as [|x u IHu]; simpl.
    - rewrite H. now exists [].
    - destruct (isspace x); [exact IHu | now exists (x :: u)]. }
  destruct (G (rev t)) as [v ->]. rewrite rev_app_distr. simpl. exact H.
Qed.

Lemma strip_fix t : no_lead t -> no_lead (rev t) -> strip t = t.
Proof.
  intros H1 H2. unfold strip, lstrip, rstrip.
  rewrite (dropwhile_fix t H1), (dropwhile_fix _ H2). apply rev_involutive.
Qed.

Lemma strip_no_lead t : no_lead (strip t) /\ no_lead (rev (strip t)).
Proof.
  unfold strip. split.
  - apply no_lead_rstrip. apply no_lead_dropwhile.
  - unfold rstrip. rewrite rev_involutive. apply no_lead_dropwhile.
Qed.

Lemma strip_strip t : strip (strip t) = strip t.
Proof.
  apply strip_fix;
    [exact (proj1 (strip_no_lead t)) | exact (proj2 (strip_no_lead t))].
Qed.

Lemma dropwhile_incl f t c : In c (dropwhile f t) -> In c t.
Proof.
  induction t as [|x t IH]; simpl; [auto|].
  destruct (f x); [right; auto | auto].
Qed.

Lemma strip_incl t c : In c (strip t) -> In c t.
Proof.
  unfold strip, rstrip, lstrip. intro H. apply in_rev in H.
  apply dropwhile_incl in H. apply in_rev in H.
  now apply dropwhile_incl in H.
Qed.

Lemma sub_spaces_incl t : forall b c,
  In c (sub_spaces b t) -> c = 32 \/ In c t.
Proof.
  induction t as [|x t IH]; intros b c H; simpl in *; [contradiction|].
  destruct (isspace x).
  - destruct b; [|destruct H as [<- | H]; [now left|]];
      (apply IH in H as [H | H]; [now left | right; now right]).
  - destruct H as [<- | H]; [right; now left|].
    apply IH in H as [H | H]; [now left | right; now right].
Qed.

(** Without a full stop there is nothing for [\\s+\\.\\s+] to match. *)
Lemma match_space_dot_space_none t :
  ~ In 46 t -> match_space_dot_space t = None.
Proof.
  intro H. unfold match_space_dot_space.
  destruct t as [|c t]; [reflexivity|].
  destruct (isspace c); [|reflexivity].
  destruct (dropwhile isspace (c :: t)) as [|d r] eqn:E; [reflexivity|].
  assert (Hd : In d (c :: t)).
  { apply dropwhile_incl with (f := isspace). rewrite E. now left. }
  destruct (Z.eqb_spec d 46) as [-> | Hne]; [contradiction|].
  destruct d as [|d|d]; try reflexivity.
  do 6 (destruct d as [d|d|]; try reflexivity). congruence.
Qed.

Lemma sub_space_dot_space_fix t :
  ~ In 46 t -> sub_space_dot_space 0 t = t.
Proof.
  induction t as [|c t IH]; intro H; [reflexivity|].
  cbn [sub_space_dot_space]. rewrite match_space_dot_space_none by exact H.
  rewrite IH; [reflexivity|]. intro G. apply H. now right.
Qed.

(** A separator that does not occur before it splits a string in one
    way only. *)
Lemma app_sep_unique (x : Z) a : forall a' b b',
  ~ In x a -> ~ In x a' -> a ++ x :: b = a' ++ x :: b' -> a = a' /\ b = b'.
Proof.
  induction a as [|c a IH]; intros [|c' a'] b b' Ha Ha' E; cbn [app] in E.
  - injection E as ->. now split.
  - injection E as <- _. exfalso. apply Ha'. now left.
  - injection E as -> _. exfalso. apply Ha. now left.
  - injection E as -> E.
    destruct (IH a' b b') as [-> ->]; [| |exact E|now split].
    + intro H. apply Ha. now right.
    + intro H. apply Ha'. now right.
Qed.

(** The same from the right: what follows the last separator. *)
Lemma app_sep_unique_r (x : Z) a a' b b' :
  ~ In x b -> ~ In x b' -> a ++ x :: b = a' ++ x :: b' -> a = a' /\ b = b'.
Proof.
  intros Hb Hb' E.
  apply (f_equal (@rev Z)) in E. rewrite !rev_app_distr in E.
  cbn [rev] in E. rewrite <- !app_assoc in E. cbn [app] in E.
  apply app_sep_unique in E as [Eb Ea].
  - apply (f_equal (@rev Z)) in Ea, Eb. rewrite !rev_involutive in Ea, Eb.
    now split.
  - intro H. apply Hb. now apply in_rev.
  - intro H. apply Hb'. now apply in_rev.
Qed.

End PyFacts.

(** * Facts about the cleaning functions *)

Module TextFacts.
Import Py Re PyFacts Text.

#[local] Opaque all_punctuations.

Lemma basic_laws : UnicodeLaws Basic.basic_unicode.
Proof.
  split.
  - intros c Hc. simpl. unfold Basic.basic_isdecimal, is_ascii_digit, in_range.
    lia.
  - intros c Hc. simpl. unfold Basic.basic_lower.
    destruct (is_ascii_upper c) eqn:E; [|reflexivity]. exfalso.
    unfold is_alphanumeric, isspace, Basic.basic_unicode, isdecimal,
      Basic.basic_isdecimal, is_ascii_digit, is_ascii_lower, is_ascii_upper,
      in_range in *. lia.
  - intros c d Hd Hne. simpl in Hd. unfold Basic.basic_lower in Hd.
    destruct (is_ascii_upper c) eqn:E.
    + destruct Hd as [<- | []]. simpl.
      unfold isspace, Basic.basic_isdecimal, is_ascii_digit, is_ascii_upper,
        in_range in *. lia.
    + destruct Hd as [<- | []]. congruence.
Qed.

Lemma remove_special_words_marked ws t :
  Forall (fun w => exists c, In c w /\ mem c all_punctuations = true) ws ->
  Forall (fun c => mem c all_punctuations = false) t ->
  remove_special_words ws t = t.
Proof.
  intros Hw H. unfold remove_special_words.
  induction Hw as [|w ws [c [Hc Hp]] _ IH]; cbn [fold_left]; [reflexivity|].
  rewrite (contains_absent w t c Hc); [exact IH|].
  intro Hin. rewrite Forall_forall in H. specialize (H c Hin). congruence.
Qed.

Section Callhome.
Context {U : Unicode} {L : UnicodeLaws U}.
Variable words_to_remove : list str.
Variable punct_replacement : str.

(** The replacement is empty or a space, and every special word
    carries a punctuation mark. *)
Hypothesis replacement_blank : Forall (fun c => c = 32) punct_replacement.
Hypothesis words_marked :
  Forall (fun w => exists c, In c w /\ mem c all_punctuations = true)
    words_to_remove.

(** Neither a punctuation mark nor a diacritic. *)
Definition plain (c : Z) : Prop :=
  mem c all_punctuations = false /\ is_diacritic c = false.

Lemma plain_space : plain 32.
Proof. split; vm_compute; reflexivity. Qed.

Lemma punctuations_not_lower :
  forallb (fun p => negb (is_ascii_lower p)) all_punctuations = true.
Proof. vm_compute. reflexivity. Qed.

Lemma plain_ascii_lower c : is_ascii_lower c = true -> plain c.
Proof.
  intro H. split.
  - apply mem_not_In. intro Hin.
    pose proof punctuations_not_lower as G. rewrite forallb_forall in G.
    specialize (G c Hin). rewrite H in G. discriminate.
  - unfold is_diacritic, is_ascii_lower, in_range in *. lia.
Qed.

Lemma remove_punctuations_in_spec order : forall t,
  Forall (fun c => mem c order = false) punct_replacement ->
  remove_punctuations_in punct_replacement order t
  = flat_map (fun c => if mem c order then punct_replacement else [c]) t.
Proof.
  unfold remove_punctuations_in.
  induction order as [|p order IH]; intros t Hr; cbn [fold_left].
  - symmetry. apply flat_map_fix. now apply Forall_forall.
  - rewrite replace_char_guard, replace_char.
    assert (Hr' : Forall (fun c => mem c order = false) punct_replacement).
    { eapply Forall_impl; [|exact Hr]. simpl. intros c Hc.
      now apply orb_false_iff in Hc as [_ ?]. }
    rewrite IH by exact Hr'.
    induction t as [|c t IHt]; [reflexivity|].
    simpl. rewrite flat_map_app, IHt. f_equal.
    destruct (c =? p); simpl.
    + apply flat_map_fix. eapply Forall_impl; [|exact Hr'].
      simpl. now intros d ->.
    + now rewrite app_nil_r.
Qed.

Lemma replacement_not_punctuation :
  Forall (fun c => mem c all_punctuations = false) punct_replacement.
Proof.
  eapply Forall_impl; [|exact replacement_blank]. now intros c ->.
Qed.

Lemma remove_punctuations_spec t :
  remove_punctuations punct_replacement t
  = flat_map (fun c => if mem c all_punctuations then punct_replacement
                       else [c]) t.
Proof.
  apply remove_punctuations_in_spec, replacement_not_punctuation.
Qed.

(** The order in which the set is visited does not matter. *)
Lemma remove_punctuations_any_order order t :
  (forall c, In c order <-> In c all_punctuations) ->
  remove_punctuations_in punct_replacement order t
  = remove_punctuations punct_replacement t.
Proof.
  intro H.
  assert (M : forall c, mem c order = mem c all_punctuations).
  { intro c. destruct (mem c all_punctuations) eqn:E.
    - apply mem_In, H, mem_In, E.
    - apply mem_not_In. intro Hin. apply H, mem_In in Hin. congruence. }
  rewrite remove_punctuations_spec, remove_punctuations_in_spec.
  - apply flat_map_ext. intro c. now rewrite M.
  - eapply Forall_impl; [|exact replacement_not_punctuation].
    cbv beta. intros c Hc. now rewrite M.
Qed.

Lemma remove_punctuations_fix t :
  Forall (fun c => mem c all_punctuations = false) t ->
  remove_punctuations punct_replacement t = t.
Proof.
  intro H. rewrite remove_punctuations_spec. apply flat_map_fix.
  eapply Forall_impl; [|exact H]. cbv beta. now intros c ->.
Qed.

Lemma remove_punctuations_plain t :
  Forall (fun c => is_diacritic c = false) t ->
  Forall plain (remove_punctuations punct_replacement t).
Proof.
  intro H. rewrite remove_punctuations_spec. apply Forall_forall.
  intros d Hd. apply in_flat_map in Hd as [c [Hc Hd]].
  destruct (mem c all_punctuations) eqn:E.
  - pose proof replacement_blank as G. rewrite Forall_forall in G.
    rewrite (G d Hd). apply plain_space.
  - destruct Hd as [<- | []]. split; [exact E|].
    rewrite Forall_forall in H. auto.
Qed.

(** After lower-casing and filtering, every character is kept by the
    filter and is still plain. *)
Definition good (c : Z) : Prop := is_alphanumeric c = true /\ plain c.

Lemma remove_non_alphanumeric_good (P : Z -> Prop) t :
  (forall c, is_ascii_lower c = true -> P c) ->
  Forall P t ->
  Forall (fun c => is_alphanumeric c = true /\ P c)
    (remove_non_alphanumeric t).
Proof.
  intros Haz H. apply Forall_forall. intros d Hd.
  unfold remove_non_alphanumeric, sub_class in Hd.
  apply filter_In in Hd as [Hd Hk]. rewrite negb_involutive in Hk.
  split; [exact Hk|].
  apply in_flat_map in Hd as [c [Hc Hd]].
  destruct (Z.eq_dec d c) as [-> | Hne].
  - rewrite Forall_forall in H. auto.
  - apply Haz. pose proof (lower_image c d Hd Hne) as G.
    unfold is_alphanumeric in Hk. rewrite G in Hk. exact Hk.
Qed.

Lemma remove_non_alphanumeric_fix t :
  Forall (fun c => is_alphanumeric c = true) t ->
  remove_non_alphanumeric t = t.
Proof.
  intro H. unfold remove_non_alphanumeric, str_lower.
  rewrite flat_map_fix.
  - apply sub_class_fix. eapply Forall_impl; [|exact H].
    simpl. now intros c ->.
  - eapply Forall_impl; [|exact H]. apply lower_alphanumeric.
Qed.

Lemma good_no_stop t : Forall good t -> ~ In 46 t.
Proof.
  intros H Hin. rewrite Forall_forall in H.
  destruct (H 46 Hin) as [_ [Hp _]]. vm_compute in Hp. discriminate.
Qed.

Lemma remove_extra_space_good t :
  Forall good t ->
  Forall good (remove_extra_space t)
  /\ spaced false (remove_extra_space t) = true.
Proof.
  intro H. unfold remove_extra_space.
  assert (G : Forall good (sub_spaces false t)).
  { apply Forall_forall. intros c Hc. apply sub_spaces_incl in Hc as [-> | Hc].
    - split; [reflexivity | apply plain_space].
    - rewrite Forall_forall in H. exact (H c Hc). }
  rewrite sub_space_dot_space_fix by (apply good_no_stop; exact G).
  split; [exact G | apply spaced_sub_spaces].
Qed.

Lemma remove_extra_space_fix t :
  Forall good t -> spaced false t = true -> remove_extra_space t = t.
Proof.
  intros H Hs. unfold remove_extra_space.
  rewrite sub_spaces_fix by exact Hs.
  apply sub_space_dot_space_fix, good_no_stop, H.
Qed.

Lemma remove_special_words_fix t :
  Forall (fun c => mem c all_punctuations = false) t ->
  remove_special_words words_to_remove t = t.
Proof. apply remove_special_words_marked, words_marked. Qed.

(** The shape of a cleaned text. *)
Definition cleaned (o : str) : Prop :=
  Forall good o /\ spaced false o = true /\ no_lead o /\ no_lead (rev o).

Lemma cleaning_cleaned s :
  cleaned (cleaning words_to_remove punct_replacement s).
Proof.
  unfold cleaning.
  set (t1 := remove_special_words words_to_remove s).
  set (t2 := remove_diacritics t1).
  set (t3 := remove_punctuations punct_replacement t2).
  set (t4 := remove_non_alphanumeric t3).
  assert (H2 : Forall (fun c => is_diacritic c = false) t2)
    by apply sub_class_Forall.
  assert (H3 : Forall plain t3) by (apply remove_punctuations_plain, H2).
  assert (H4 : Forall good t4)
    by (apply remove_non_alphanumeric_good;
        [apply plain_ascii_lower | exact H3]).
  destruct (remove_extra_space_good t4 H4) as [H5 S5].
  unfold cleaned. split; [|split; [|split]].
  - apply Forall_forall. intros c Hc. apply strip_incl in Hc.
    rewrite Forall_forall in H5. exact (H5 c Hc).
  - exact (spaced_strip _ _ S5).
  - exact (proj1 (strip_no_lead _)).
  - exact (proj2 (strip_no_lead _)).
Qed.

Lemma cleaning_fix o :
  cleaned o -> cleaning words_to_remove punct_replacement o = o.
Proof.
  intros (Hg & Hs & Hl & Hr). unfold cleaning.
  assert (Hp : Forall (fun c => mem c all_punctuations = false) o).
  { eapply Forall_impl; [|exact Hg]. now intros c [_ [? _]]. }
  rewrite remove_special_words_fix by exact Hp.
  unfold remove_diacritics. rewrite sub_class_fix.
  2:{ eapply Forall_impl; [|exact Hg]. now intros c [_ [_ ?]]. }
  rewrite remove_punctuations_fix by exact Hp.
  rewrite remove_non_alphanumeric_fix.
  2:{ eapply Forall_impl; [|exact Hg]. now intros c [? _]. }
  rewrite remove_extra_space_fix by assumption.
  now apply strip_fix.
Qed.

Lemma callhome_cleaning_idempotent s :
  cleaning words_to_remove punct_replacement
    (cleaning words_to_remove punct_replacement s)
  = cleaning words_to_remove punct_replacement s.
Proof. apply cleaning_fix, cleaning_cleaned. Qed.

End Callhome.

End TextFacts.

(** * Facts about the QASR cleaning function *)

Module QasrTextFacts.
Import Py Re PyFacts Text TextFacts.

(** A word of [str.split]: not empty and free of whitespace. *)
Definition wordlike (w : str) : Prop :=
  w <> [] /\ Forall (fun c => isspace c = false) w.

Lemma split_words_wordlike t : forall cur,
  Forall (fun c => isspace c = false) cur ->
  Forall wordlike (split_words cur t).
Proof.
  induction t as [|c t IH]; intros cur Hcur; simpl.
  - destruct cur as [|x cur]; constructor; [|constructor].
    split.
    + intro E. apply (f_equal (@rev Z)) in E. rewrite rev_involutive in E.
      discriminate.
    + apply Forall_rev. exact Hcur.
  - destruct (isspace c) eqn:E.
    + destruct cur as [|x cur]; [apply IH; constructor|].
      constructor; [|apply IH; constructor].
      split.
      * intro G. apply (f_equal (@rev Z)) in G. rewrite rev_involutive in G.
        discriminate.
      * apply Forall_rev. exact Hcur.
    + apply IH. constructor; assumption.
Qed.

Lemma split_words_incl t : forall cur w c,
  In w (split_words cur t) -> In c w -> In c cur \/ In c t.
Proof.
  induction t as [|x t IH]; intros cur w c Hw Hc; simpl in Hw.
  - destruct cur as [|y cur]; [contradiction|].
    destruct Hw as [<- | []]. left. now apply in_rev.
  - destruct (isspace x).
    + destruct cur as [|y cur].
      * destruct (IH _ _ _ Hw Hc) as [[] | H]. right. now right.
      * destruct Hw as [<- | Hw]; [left; now apply in_rev|].
        destruct (IH _ _ _ Hw Hc) as [[] | H]. right. now right.
    + destruct (IH _ _ _ Hw Hc) as [[<- | H] | H].
      * right. now left.
      * now left.
      * right. now right.
Qed.

Lemma split_incl t w c : In w (split t) -> In c w -> In c t.
Proof.
  intros Hw Hc. destruct (split_words_incl t [] w c Hw Hc) as [[] | H].
  exact H.
Qed.

Lemma split_words_app w : forall cur t,
  Forall (fun c => isspace c = false) w ->
  split_words cur (w ++ t) = split_words (rev w ++ cur) t.
Proof.
  induction w as [|c w IH]; intros cur t H; [reflexivity|].
  inversion H as [|? ? Hc Hw]; subst. simpl. rewrite Hc.
  rewrite IH by exact Hw. now rewrite <- app_assoc.
Qed.

Lemma rev_nonempty (w : str) : w <> [] -> exists x r, rev w = x :: r.
Proof.
  intro H. destruct (rev w) as [|x r] eqn:E.
  - apply (f_equal (@rev Z)) in E. rewrite rev_involutive in E. contradiction.
  - eauto.
Qed.

Lemma split_join ws :
  Forall wordlike ws -> split (join [32] ws) = ws.
Proof.
  unfold split. induction 1 as [|w ws [Hne Hw] Hws IH]; [reflexivity|].
  destruct (rev_nonempty w Hne) as [x [r Er]].
  destruct ws as [|w2 ws].
  - cbn [join]. rewrite <- (app_nil_r w) at 1.
    rewrite split_words_app by exact Hw. rewrite app_nil_r.
    cbn [split_words]. rewrite Er, <- Er. now rewrite rev_involutive.
  - change (join [32] (w :: w2 :: ws)) with (w ++ 32 :: join [32] (w2 :: ws)).
    rewrite split_words_app by exact Hw. rewrite app_nil_r.
    cbn [split_words]. change (isspace 32) with true. cbv iota.
    rewrite Er, <- Er, rev_involutive. now rewrite IH.
Qed.

Lemma spaced_word w t b :
  wordlike w -> spaced b (w ++ t) = spaced false t.
Proof.
  intros [Hne Hw]. destruct w as [|c w]; [contradiction|]. clear Hne.
  revert b c Hw. induction w as [|d w IH]; intros b c Hw;
    inversion Hw as [|? ? Hc Hw']; subst; simpl; rewrite Hc.
  - reflexivity.
  - apply (IH false d Hw').
Qed.

Lemma spaced_join ws : forall b,
  Forall wordlike ws -> spaced b (join [32] ws) = true.
Proof.
  induction ws as [|w ws IH]; intros b H; [reflexivity|].
  inversion H as [|? ? Hw Hws]; subst.
  destruct ws as [|w2 ws].
  - cbn [join]. rewrite <- (app_nil_r w). now rewrite spaced_word.
  - change (join [32] (w :: w2 :: ws)) with (w ++ 32 :: join [32] (w2 :: ws)).
    rewrite spaced_word by exact Hw. cbn [spaced].
    change (isspace 32) with true. cbv iota. rewrite (IH true Hws).
    reflexivity.
Qed.

Lemma join_incl sep ws c :
  In c (join sep ws) -> In c sep \/ exists w, In w ws /\ In c w.
Proof.
  induction ws as [|w ws IH]; [contradiction|].
  destruct ws as [|w2 ws].
  - cbn [join]. intro H. right. exists w. split; [now left | exact H].
  - change (join sep (w :: w2 :: ws)) with (w ++ sep ++ join sep (w2 :: ws)).
    intro H. apply in_app_or in H as [H | H].
    + right. exists w. split; [now left | exact H].
    + apply in_app_or in H as [H | H]; [now left|].
      destruct (IH H) as [G | [w' [Hw' Hc]]]; [now left|].
      right. exists w'. split; [now right | exact Hc].
Qed.

Lemma filter_filter {A} (f : A -> bool) l : filter f (filter f l) = filter f l.
Proof.
  induction l as [|x l IH]; [reflexivity|]. simpl.
  destruct (f x) eqn:E; simpl; [rewrite E, IH | rewrite IH]; reflexivity.
Qed.

(** ** The translation table *)

Definition translate := Qasr.translate_char Qasr.eastern_to_western.

Lemma translate_cases c :
  translate c = c
  \/ in_range 48 57 (translate c) = true
  \/ translate c = 37 \/ translate c = 32 \/ translate c = 0x641.
Proof.
  unfold translate, Qasr.eastern_to_western, Qasr.translate_char.
  repeat match goal with
  | |- context [c =? ?k] =>
    destruct (Z.eqb_spec c k); [right; vm_compute; tauto|]
  end.
  now left.
Qed.

Lemma translate_fix c :
  ~ In c (map fst Qasr.eastern_to_western) -> translate c = c.
Proof.
  unfold translate, Qasr.eastern_to_western, Qasr.translate_char. simpl.
  intro H.
  repeat match goal with
  | |- context [c =? ?k] =>
    destruct (Z.eqb_spec c k); [exfalso; apply H; lia|]
  end.
  reflexivity.
Qed.

Lemma translate_translate c : translate (translate c) = translate c.
Proof.
  destruct (translate_cases c) as [E | [E | [E | [E | E]]]].
  - now rewrite E.
  - apply translate_fix. simpl. unfold in_range in E. lia.
  - now rewrite E.
  - now rewrite E.
  - now rewrite E.
Qed.

Section Idempotence.
Context {U : Unicode} {L : UnicodeLaws U}.

(** A character of a cleaned QASR text. *)
Definition settled (c : Z) : Prop :=
  translate c = c /\ (mem c all_punctuations = false \/ c = 37)
  /\ is_diacritic c = false.

Lemma settled_ascii_lower c : is_ascii_lower c = true -> settled c.
Proof.
  intro H. destruct (plain_ascii_lower c H) as [Hp Hd].
  split; [|split; [now left | exact Hd]].
  apply translate_fix. simpl. unfold is_ascii_lower, in_range in H. lia.
Qed.

Lemma percent_dropped : is_alphanumeric 37 = false.
Proof.
  unfold is_alphanumeric. rewrite (isdecimal_ascii 37) by lia. reflexivity.
Qed.

Definition keep_word (word : str) : bool :=
  (1 <? length word)%nat || Qasr.str_isnumeric word.

Definition qasr_good (c : Z) : Prop := good c /\ translate c = c.

(** The shape of a cleaned QASR text. *)
Definition qasr_cleaned (o : str) : Prop :=
  exists ws, o = join [32] ws /\ Forall wordlike ws
    /\ Forall (Forall qasr_good) ws /\ filter keep_word ws = ws.

Lemma qasr_good_space : qasr_good 32.
Proof.
  split; [split; [reflexivity | apply plain_space] | reflexivity].
Qed.

Lemma qasr_cleaned_chars o : qasr_cleaned o -> Forall qasr_good o.
Proof.
  intros (ws & -> & _ & Hg & _). apply Forall_forall. intros c Hc.
  apply join_incl in Hc as [[<- | []] | [w [Hw Hc]]].
  - apply qasr_good_space.
  - rewrite Forall_forall in Hg. specialize (Hg w Hw).
    rewrite Forall_forall in Hg. exact (Hg c Hc).
Qed.

Lemma blank_space : Forall (fun c => c = 32) (utf8 " ").
Proof. repeat constructor. Qed.

Lemma remove_punctuations_clear t :
  Forall (fun c => mem c all_punctuations = false)
    (Qasr.remove_punctuations t).
Proof.
  unfold Qasr.remove_punctuations.
  rewrite (remove_punctuations_spec _ blank_space).
  apply Forall_forall. intros d Hd. apply in_flat_map in Hd as [c [_ Hd]].
  destruct (mem c all_punctuations) eqn:E.
  - destruct Hd as [<- | []]. vm_compute. reflexivity.
  - destruct Hd as [<- | []]. exact E.
Qed.

Lemma punctuations_not_digit :
  forallb (fun p => negb (in_range 48 57 p)) all_punctuations = true.
Proof. vm_compute. reflexivity. Qed.

Lemma translate_settles c :
  mem c all_punctuations = false ->
  mem (translate c) all_punctuations = false \/ translate c = 37.
Proof.
  intro H. destruct (translate_cases c) as [E | [E | [E | [E | E]]]].
  - left. rewrite E. exact H.
  - left. apply mem_not_In. intro Hin.
    pose proof punctuations_not_digit as G.
    rewrite forallb_forall in G. specialize (G _ Hin). rewrite E in G.
    discriminate G.
  - right. exact E.
  - left. rewrite E. vm_compute. reflexivity.
  - left. rewrite E. vm_compute. reflexivity.
Qed.

Lemma east_to_west_num_settled t :
  Forall (fun c => mem c all_punctuations = false) t ->
  Forall (fun c => translate c = c
            /\ (mem c all_punctuations = false \/ c = 37))
    (Qasr.east_to_west_num t).
Proof.
  intro H. unfold Qasr.east_to_west_num. apply Forall_map.
  eapply Forall_impl; [|exact H]. cbv beta. intros c Hc.
  split; [apply translate_translate | apply translate_settles, Hc].
Qed.

Lemma remove_diacritics_settled t :
  Forall (fun c => translate c = c
            /\ (mem c all_punctuations = false \/ c = 37)) t ->
  Forall settled (Qasr.remove_diacritics t).
Proof.
  intro H. apply Forall_forall. intros c Hc.
  apply filter_In in Hc as [Hc Hd]. apply negb_true_iff in Hd.
  rewrite Forall_forall in H. destruct (H c Hc) as [Ht Hp].
  split; [exact Ht | split; [exact Hp | exact Hd]].
Qed.

Lemma remove_non_alphanumeric_qasr_good t :
  Forall settled t -> Forall qasr_good (Qasr.remove_non_alphanumeric t).
Proof.
  intro H.
  pose proof (remove_non_alphanumeric_good settled t
                settled_ascii_lower H) as G.
  eapply Forall_impl; [|exact G]. cbv beta.
  intros c [Hk [Ht [[Hp | E] Hd]]].
  - split; [split; [exact Hk | split; [exact Hp | exact Hd]] | exact Ht].
  - rewrite E, percent_dropped in Hk. discriminate Hk.
Qed.

Lemma remove_single_char_word_cleaned t :
  Forall qasr_good t -> qasr_cleaned (Qasr.remove_single_char_word t).
Proof.
  intro H. exists (filter keep_word (split t)).
  split; [reflexivity|]. split; [|split].
  - apply Forall_forall. intros w Hin. apply filter_In in Hin as [Hin _].
    pose proof (split_words_wordlike t [] (Forall_nil _)) as G.
    rewrite Forall_forall in G. exact (G w Hin).
  - apply Forall_forall. intros w Hin. apply filter_In in Hin as [Hin _].
    apply Forall_forall. intros c Hc. rewrite Forall_forall in H.
    exact (H c (split_incl t w c Hin Hc)).
  - apply filter_filter.
Qed.

Lemma remove_extra_space_cleaned o :
  qasr_cleaned o -> Qasr.remove_extra_space o = o.
Proof.
  intro Hc. pose proof (qasr_cleaned_chars o Hc) as Hg.
  destruct Hc as (ws & -> & Hw & _ & _).
  apply remove_extra_space_fix.
  - eapply Forall_impl; [|exact Hg]. intros c G. exact (proj1 G).
  - exact (spaced_join ws false Hw).
Qed.

Lemma qasr_cleaning_cleaned s : qasr_cleaned (Qasr.cleaning s).
Proof.
  unfold Qasr.cleaning. cbv zeta.
  pose proof (remove_single_char_word_cleaned _
    (remove_non_alphanumeric_qasr_good _
      (remove_diacritics_settled _
        (east_to_west_num_settled _ (remove_punctuations_clear s))))) as H.
  rewrite (remove_extra_space_cleaned _ H). exact H.
Qed.

Lemma qasr_cleaning_fix o : qasr_cleaned o -> Qasr.cleaning o = o.
Proof.
  intro Hc. pose proof (qasr_cleaned_chars o Hc) as Hg.
  destruct Hc as (ws & -> & Hw & _ & Hf).
  unfold Qasr.cleaning.
  unfold Qasr.remove_punctuations.
  rewrite (remove_punctuations_fix _ blank_space).
  2:{ eapply Forall_impl; [|exact Hg]. now intros c [[_ [? _]] _]. }
  assert (E : Qasr.east_to_west_num (join [32] ws) = join [32] ws).
  { unfold Qasr.east_to_west_num. rewrite <- (map_id (join [32] ws)) at 2.
    apply map_ext_in. intros c Hin. rewrite Forall_forall in Hg.
    exact (proj2 (Hg c Hin)). }
  rewrite E.
  unfold Qasr.remove_diacritics, remove_diacritics. rewrite sub_class_fix.
  2:{ eapply Forall_impl; [|exact Hg]. now intros c [[_ [_ ?]] _]. }
  unfold Qasr.remove_non_alphanumeric. rewrite remove_non_alphanumeric_fix.
  2:{ eapply Forall_impl; [|exact Hg]. now intros c [[? _] _]. }
  assert (E2 : Qasr.remove_single_char_word (join [32] ws) = join [32] ws).
  { change (Qasr.remove_single_char_word (join [32] ws))
      with (join [32] (filter keep_word (split (join [32] ws)))).
    rewrite (split_join ws Hw). rewrite Hf. reflexivity. }
  rewrite E2. unfold Qasr.remove_extra_space.
  apply remove_extra_space_fix.
  - eapply Forall_impl; [|exact Hg]. now intros c [? _].
  - exact (spaced_join ws false Hw).
Qed.

Lemma qasr_cleaning_idempotent s :
  Qasr.cleaning (Qasr.cleaning s) = Qasr.cleaning s.
Proof. apply qasr_cleaning_fix, qasr_cleaning_cleaned. Qed.

End Idempotence.

End QasrTextFacts.

(** * Facts about numbers *)

Module NumFacts.
Import Py Num PyFacts.

(** ** Floats that are not NaNs *)


















(** ** Exact subtraction of decimals *)


(** ** Decimal notation *)

Lemma chars_uint_chars u : chars_uint (uint_chars u) = Some u.
Proof. induction u; simpl; try rewrite IHu; reflexivity. Qed.

Lemma digit_of_some c d : digit_of c = Some d -> is_ascii_digit c = true.
Proof.
  unfold digit_of, is_ascii_digit, in_range.
  repeat match goal with
  | |- context [c =? ?k] => destruct (Z.eqb_spec c k); [lia|]
  end.
  discriminate.
Qed.

Lemma chars_uint_digits t : forall u,
  chars_uint t = Some u -> Forall (fun c => is_ascii_digit c = true) t.
Proof.
  induction t as [|c t IH]; intros u H; [constructor|].
  simpl in H. destruct (digit_of c) as [d|] eqn:Ed; [|discriminate].
  destruct (chars_uint t) as [v|]; [|discriminate].
  constructor; [eapply digit_of_some; eassumption | eapply IH; reflexivity].
Qed.

(** The value of a string of digits. *)
Definition value_of (t : str) : option Z := option_map Z.of_uint (chars_uint t).

Lemma value_of_zeros k t : value_of (repeat 48 k ++ t) = value_of t.
Proof.
  unfold value_of. induction k as [|k IH]; [reflexivity|].
  simpl. change (digit_of 48) with (Some Decimal.D0).
  destruct (chars_uint (repeat 48 k ++ t)) as [u|] eqn:E;
    destruct (chars_uint t) as [v|] eqn:F; simpl in *; try congruence.
  - rewrite <- IH. reflexivity.
Qed.

Lemma value_of_str_of_int n : 0 <= n -> value_of (str_of_int n) = Some n.
Proof.
  intro H. unfold value_of, str_of_int.
  pose proof (DecimalZ.of_to n) as G.
  destruct (Z.to_int n) as [u|u] eqn:E.
  - rewrite chars_uint_chars. simpl. f_equal. exact G.
  - exfalso. destruct n; simpl in E; try discriminate. lia.
Qed.

Lemma value_of_rjust w n :
  0 <= n -> value_of (rjust w 48 (str_of_int n)) = Some n.
Proof.
  intro H. unfold rjust. rewrite value_of_zeros. now apply value_of_str_of_int.
Qed.

Lemma str_of_int_digits n :
  0 <= n -> Forall (fun c => is_ascii_digit c = true) (str_of_int n).
Proof.
  intro H. pose proof (value_of_str_of_int n H) as G. unfold value_of in G.
  destruct (chars_uint (str_of_int n)) as [u|] eqn:E; [|discriminate].
  eapply chars_uint_digits. exact E.
Qed.

Lemma rjust_digits w n :
  0 <= n -> Forall (fun c => is_ascii_digit c = true) (rjust w 48 (str_of_int n)).
Proof.
  intro H. unfold rjust. apply Forall_app. split.
  - apply Forall_forall. intros c Hc. apply repeat_spec in Hc. now subst.
  - now apply str_of_int_digits.
Qed.

Lemma rjust_length w fill t : (w <= length (rjust w fill t))%nat.
Proof. unfold rjust. rewrite length_app, repeat_length. lia. Qed.

Lemma zfill_length w t : (w <= length (zfill w t))%nat.
Proof.
  unfold zfill. destruct t as [|c r]; [now rewrite repeat_length|].
  destruct ((c =? 43) || (c =? 45)); simpl;
    rewrite length_app, repeat_length; simpl; lia.
Qed.

(** ** Zero-filled numbers *)

(** A zero-filled number is its sign, if it has one, and digits whose
    value is the magnitude. *)
Lemma zfill_body w n :
  exists body,
    zfill w (str_of_int n) = (if n <? 0 then [45] else []) ++ body
    /\ value_of body = Some (Z.abs n)
    /\ Forall (fun c => is_ascii_digit c = true) body.
Proof.
  destruct (Z.ltb_spec n 0) as [Hn | Hn].
  - unfold str_of_int. pose proof (DecimalZ.of_to n) as G.
    destruct (Z.to_int n) as [u|u] eqn:E.
    + exfalso. destruct n; simpl in E; try discriminate; lia.
    + unfold zfill. cbn [Z.eqb orb]. change (45 =? 43) with false.
      change (45 =? 45) with true. cbn [orb].
      exists (repeat 48 (w - length (45 :: uint_chars u)) ++ uint_chars u).
      split; [reflexivity|]. split.
      * rewrite value_of_zeros. unfold value_of. rewrite chars_uint_chars.
        cbn [option_map]. f_equal. cbn [Z.of_int] in G. lia.
      * apply Forall_app. split.
        -- apply Forall_forall. intros c Hc. apply repeat_spec in Hc.
           now subst.
        -- eapply chars_uint_digits, chars_uint_chars.
  - exists (rjust w 48 (str_of_int n)). split; [|split].
    + cbn [app]. pose proof (str_of_int_digits n Hn) as D.
      unfold zfill, rjust. destruct (str_of_int n) as [|c r].
      * cbn [length]. now rewrite Nat.sub_0_r, app_nil_r.
      * apply Forall_inv in D.
        destruct ((c =? 43) || (c =? 45)) eqn:E; [|reflexivity].
        exfalso. unfold is_ascii_digit, in_range in D. lia.
    + rewrite value_of_rjust by exact Hn. f_equal. lia.
    + now apply rjust_digits.
Qed.

Lemma zfill_no_underscore w n : ~ In 95 (zfill w (str_of_int n)).
Proof.
  destruct (zfill_body w n) as [body [-> [_ D]]]. intro H.
  apply in_app_or in H as [H | H].
  - destruct (n <? 0); [destruct H as [H | []]; discriminate H | exact H].
  - rewrite Forall_forall in D. specialize (D 95 H). discriminate D.
Qed.

Lemma zfill_inj w n m :
  zfill w (str_of_int n) = zfill w (str_of_int m) -> n = m.
Proof.
  destruct (zfill_body w n) as [a [-> [Va Da]]].
  destruct (zfill_body w m) as [b [-> [Vb Db]]].
  destruct (Z.ltb_spec n 0) as [Hn | Hn], (Z.ltb_spec m 0) as [Hm | Hm];
    cbn [app]; intro E.
  - injection E as ->. rewrite Va in Vb. injection Vb as Vb. lia.
  - exfalso. rewrite <- E in Db. apply Forall_inv in Db. discriminate Db.
  - exfalso. rewrite E in Da. apply Forall_inv in Da. discriminate Da.
  - subst b. rewrite Va in Vb. injection Vb as Vb. lia.
Qed.

End NumFacts.

(** * Facts about the loops *)

Module RunFacts.
Import Py Re Num Lhotse PyFacts NumFacts.

Lemma bind_ok {A B} (r : result A) (k : A -> result B) b :
  bind r k = Ok b -> exists a, r = Ok a /\ k a = Ok b.
Proof. destruct r as [a|e]; simpl; [eauto | discriminate]. Qed.

Lemma or_raise_ok {A} e (o : option A) a : or_raise e o = Ok a -> o = Some a.
Proof. destruct o; simpl; congruence. Qed.

Lemma unpack2_ok {A} (l : list A) a b : unpack2 l = Ok (a, b) -> l = [a; b].
Proof.
  destruct l as [|x [|y [|z l]]]; simpl; try discriminate. congruence.
Qed.

Lemma unpack3_ok {A} (l : list A) a b c :
  unpack3 l = Ok (a, b, c) -> l = [a; b; c].
Proof.
  destruct l as [|x [|y [|z [|w l]]]]; simpl; try discriminate. congruence.
Qed.

Lemma unpack4_ok {A} (l : list A) a b c d :
  unpack4 l = Ok (a, b, c, d) -> l = [a; b; c; d].
Proof.
  destruct l as [|x [|y [|z [|w [|v l]]]]]; simpl; try discriminate.
  congruence.
Qed.


(** A loop whose body appends to a list. *)
Lemma for_each_appends {A B} (f : A -> result (list B)) items :
  forall acc out,
  for_each (fun acc x => let* l := f x in Ok (acc ++ l)) items acc = Ok out ->
  exists parts,
    out = acc ++ concat parts
    /\ Forall2 (fun x l => f x = Ok l) items parts.
Proof.
  induction items as [|x items IH]; intros acc out H; simpl in H.
  - injection H as <-. exists []. split; [now rewrite app_nil_r | constructor].
  - destruct (f x) as [l|e] eqn:E; simpl in H; [|discriminate].
    destruct (IH _ _ H) as [parts [-> HF]].
    exists (l :: parts). split; [simpl; now rewrite app_assoc|].
    constructor; assumption.
Qed.

Lemma Forall2_In_l {A B} (R : A -> B -> Prop) l ks x :
  Forall2 R l ks -> In x l -> exists k, In k ks /\ R x k.
Proof.
  induction 1 as [|y k l ks Hy _ IH]; intro Hin; [contradiction|].
  destruct Hin as [-> | Hin].
  - exists k. split; [now left | exact Hy].
  - destruct (IH Hin) as [k' [Hk' HR]]. exists k'. split; [now right | exact HR].
Qed.

Lemma Forall2_and_r {A B} (R : A -> B -> Prop) (Q : B -> Prop) l ks :
  Forall2 R l ks -> Forall Q ks -> Forall2 (fun x k => Q k /\ R x k) l ks.
Proof.
  induction 1 as [|x k l ks Hx _ IH]; intro HQ; constructor;
    inversion HQ; subst; [split; assumption | apply IH; assumption].
Qed.

(** Keys that separate the elements of a list separate their images. *)
Lemma NoDup_by_keys {A K} (key : A -> K -> Prop) (f : A -> str) l :
  forall ks,
  Forall2 key l ks -> NoDup ks ->
  (forall x y kx ky, key x kx -> key y ky -> f x = f y -> kx = ky) ->
  NoDup (map f l).
Proof.
  induction l as [|x l IH]; intros ks HF Hks Hinj; simpl; [constructor|].
  inversion HF as [|? kx ? ks' Hx HF']; subst.
  inversion Hks as [|? ? Hnin Hks']; subst.
  constructor; [|eapply IH; eassumption].
  intro Hin. apply in_map_iff in Hin as [y [Hy Hin]].
  destruct (Forall2_In_l _ _ _ _ HF' Hin) as [ky [Hky Hk]].
  apply Hnin. rewrite (Hinj x y kx ky Hx Hk (eq_sym Hy)). exact Hky.
Qed.

End RunFacts.

(** * Facts about the CALLHOME loops *)

Module CallhomeFacts.
Import Py Re Num Lhotse PyFacts NumFacts RunFacts Callhome.

Definition indices (idx : Z) (n : nat) : list Z :=
  map (fun i => idx + Z.of_nat i) (seq 0 n).

Lemma indices_S idx n : indices idx (S n) = idx :: indices (idx + 1) n.
Proof.
  unfold indices. cbn [seq map]. rewrite Z.add_0_r. f_equal.
  rewrite <- seq_shift, map_map. apply map_ext. intro i. lia.
Qed.

Lemma indices_In idx n k : In k (indices idx n) -> idx <= k.
Proof.
  unfold indices. intro H. apply in_map_iff in H as [i [<- _]]. lia.
Qed.

Lemma indices_NoDup idx n : NoDup (indices idx n).
Proof.
  revert idx. induction n as [|n IH]; intro idx; [constructor|].
  rewrite indices_S. constructor; [|apply IH].
  intro H. apply indices_In in H. lia.
Qed.

Lemma supervision_id rid tag k fstart d t ch :
  id (supervision rid tag k fstart d t ch)
  = (rid ++ [95] ++ rjust 2 48 tag) ++ [95] ++ rjust 5 48 (str_of_int k).
Proof. cbn [id supervision]. now rewrite <- !app_assoc. Qed.

(** The counter is what follows the last underscore. *)
Lemma counter_suffix_inj pre1 pre2 k1 k2 :
  0 <= k1 -> 0 <= k2 ->
  pre1 ++ [95] ++ rjust 5 48 (str_of_int k1)
  = pre2 ++ [95] ++ rjust 5 48 (str_of_int k2) ->
  pre1 = pre2 /\ k1 = k2.
Proof.
  intros H1 H2 E.
  assert (D : forall k, 0 <= k -> ~ In 95 (rev (rjust 5 48 (str_of_int k)))).
  { intros k Hk Hin. apply in_rev in Hin.
    pose proof (rjust_digits 5 k Hk) as G. rewrite Forall_forall in G.
    specialize (G 95 Hin). discriminate G. }
  apply (f_equal (@rev Z)) in E. rewrite !rev_app_distr in E.
  cbn [rev app] in E. rewrite <- !app_assoc in E. cbn [app] in E.
  apply app_sep_unique in E as [Ea Eb]; [|now apply D | now apply D].
  apply (f_equal (@rev Z)) in Ea, Eb. rewrite !rev_involutive in Ea, Eb.
  split; [exact Eb|].
  pose proof (value_of_rjust 5 k1 H1) as V1.
  pose proof (value_of_rjust 5 k2 H2) as V2. congruence.
Qed.

(** ** The nested loops, for any body *)

Section Loops.
Variable process_line :
  str -> Z -> str -> result (option SupervisionSegment).

(** The segment [s] comes from a line of [p], read when the counter
    was [k]. *)
Definition emitted_at (p : transcript) (s : SupervisionSegment) (k : Z)
  : Prop :=
  0 <= k
  /\ exists line, In line (splitlines (content p))
       /\ process_line (stem p) k line = Ok (Some s).

Lemma lines_spec stem lines : forall sups idx sups' idx',
  for_each (line_step process_line stem) lines (sups, idx)
  = Ok (sups', idx') ->
  exists new,
    sups' = sups ++ new
    /\ Forall2
         (fun s k => exists line, In line lines
            /\ process_line stem k line = Ok (Some s))
         new (indices idx (length new)).
Proof.
  induction lines as [|line lines IH]; intros sups idx sups' idx' H.
  - injection H as <- <-. exists []. split; [now rewrite app_nil_r|].
    constructor.
  - cbn [for_each] in H.
    destruct (line_step process_line stem (sups, idx) line)
      as [[s1 i1]|e] eqn:E; [|discriminate].
    unfold Callhome.line_step in E.
    apply bind_ok in E as [r [Er E]].
    destruct (IH _ _ _ _ H) as [new [-> HF]].
    assert (Hmono : forall new0 i0,
      Forall2 (fun s k => exists l, In l lines
                 /\ process_line stem k l = Ok (Some s)) new0 i0 ->
      Forall2 (fun s k => exists l, In l (line :: lines)
                 /\ process_line stem k l = Ok (Some s)) new0 i0).
    { intros new0 i0 G. eapply Forall2_impl; [|exact G].
      intros a b [l [Hl Hp]]. exists l. split; [now right | exact Hp]. }
    destruct r as [s|]; injection E as <- <-.
    + exists (s :: new). split; [now rewrite <- app_assoc|].
      cbn [length]. rewrite indices_S. constructor; [|apply Hmono, HF].
      exists line. split; [now left | exact Er].
    + exists new. split; [reflexivity | apply Hmono, HF].
Qed.

Lemma transcript_spec sups p sups' :
  process_transcript process_line sups p = Ok sups' ->
  exists new,
    sups' = sups ++ new
    /\ Forall2 (emitted_at p) new (indices 0 (length new)).
Proof.
  unfold Callhome.process_transcript. intro H.
  apply bind_ok in H as [[s1 i1] [E H]]. injection H as <-.
  destruct (lines_spec _ _ _ _ _ _ E) as [new [-> HF]].
  exists new. split; [reflexivity|].
  apply (Forall2_and_r _ (fun k => 0 <= k) _ _ HF).
  apply Forall_forall. intros k Hk. exact (indices_In _ _ _ Hk).
Qed.

(** The segments are those of the transcripts, in order. *)
Lemma collect_spec paths : forall sups sups',
  for_each (process_transcript process_line) paths sups = Ok sups' ->
  exists parts,
    sups' = sups ++ concat parts
    /\ Forall2
         (fun p new => Forall2 (emitted_at p) new (indices 0 (length new)))
         paths parts.
Proof.
  induction paths as [|p paths IH]; intros sups sups' H.
  - injection H as <-. exists []. split; [now rewrite app_nil_r|]. constructor.
  - cbn [for_each] in H.
    destruct (process_transcript process_line sups p) as [s1|e] eqn:E;
      [|discriminate].
    destruct (transcript_spec _ _ _ E) as [new [-> HF]].
    destruct (IH _ _ H) as [parts [-> HP]].
    exists (new :: parts). split; [cbn [concat]; now rewrite app_assoc|].
    constructor; assumption.
Qed.




(** *** Identifiers *)

Variable recording_id_of : str -> str.
Variable two_channel : Prop.

Hypothesis process_line_id : forall stem k line s,
  process_line stem k line = Ok (Some s) ->
  exists tag,
    id s = (recording_id_of stem ++ [95] ++ rjust 2 48 tag)
           ++ [95] ++ rjust 5 48 (str_of_int k)
    /\ (two_channel -> exists c, tag = [c]).

Lemma emitted_id p s k :
  emitted_at p s k ->
  exists tag,
    id s = (recording_id_of (stem p) ++ [95] ++ rjust 2 48 tag)
           ++ [95] ++ rjust 5 48 (str_of_int k)
    /\ (two_channel -> exists c, tag = [c]).
Proof. intros [_ [line [_ H]]]. eapply process_line_id, H. Qed.

(** Within one transcript the counter separates the identifiers. *)
Lemma transcript_ids_distinct p sups :
  process_transcript process_line [] p = Ok sups -> NoDup (map id sups).
Proof.
  intro H. destruct (transcript_spec _ _ _ H) as [new [-> HF]].
  cbn [app]. eapply NoDup_by_keys; [exact HF | apply indices_NoDup|].
  intros x y kx ky Hx Hy E.
  destruct (emitted_id _ _ _ Hx) as [tx [Ex _]].
  destruct (emitted_id _ _ _ Hy) as [ty [Ey _]].
  rewrite Ex, Ey in E.
  apply counter_suffix_inj in E; [tauto | apply Hx | apply Hy].
Qed.

(** The recording and the counter that a segment carries. *)
Definition keyed (s : SupervisionSegment) (rk : str * Z) : Prop :=
  exists p, fst rk = recording_id_of (stem p) /\ emitted_at p s (snd rk).

Lemma collect_keys paths parts :
  Forall2
    (fun p new => Forall2 (emitted_at p) new (indices 0 (length new)))
    paths parts ->
  NoDup (map (fun p => recording_id_of (stem p)) paths) ->
  exists keys,
    Forall2 keyed (concat parts) keys
    /\ NoDup keys
    /\ forall rk, In rk keys ->
         In (fst rk) (map (fun p => recording_id_of (stem p)) paths).
Proof.
  induction 1 as [|p new paths parts Hp _ IH]; intro Hnd.
  - exists []. split; [constructor | split; [constructor | contradiction]].
  - cbn [map] in Hnd. inversion Hnd as [|? ? Hnin Hnd']; subst.
    destruct (IH Hnd') as (keys & HK & Hkn & Hin).
    set (rid := recording_id_of (stem p)) in *.
    exists (map (pair rid) (indices 0 (length new)) ++ keys).
    split; [|split].
    + cbn [concat]. apply Forall2_app; [|exact HK].
      clear -Hp. unfold rid. induction Hp as [|s k l ks Hs _ IHp]; cbn [map];
        constructor; [|exact IHp].
      exists p. split; [reflexivity | exact Hs].
    + apply NoDup_app; [|exact Hkn|].
      * apply NoDup_map_NoDup_ForallPairs; [|apply indices_NoDup].
        intros a b _ _ E. congruence.
      * intros [r k] Ha Hb. apply in_map_iff in Ha as [k' [E _]].
        injection E as <- _. apply Hin in Hb. cbn [fst] in Hb. contradiction.
    + intros rk H. apply in_app_or in H as [H | H].
      * apply in_map_iff in H as [k [<- _]]. cbn [fst map]. now left.
      * cbn [map]. right. apply Hin, H.
Qed.

(** With one-character tags the identifier gives back the recording
    and the counter. *)
Lemma keyed_inj x y kx ky :
  two_channel -> keyed x kx -> keyed y ky -> id x = id y -> kx = ky.
Proof.
  intros Hs [px [Rx Hx]] [py [Ry Hy]] E.
  destruct (emitted_id _ _ _ Hx) as [tx [Ex Cx]].
  destruct (emitted_id _ _ _ Hy) as [ty [Ey Cy]].
  destruct (Cx Hs) as [cx ->]. destruct (Cy Hs) as [cy ->].
  rewrite Ex, Ey in E.
  apply counter_suffix_inj in E as [Ep Ek]; [|apply Hx | apply Hy].
  change (rjust 2 48 [cx]) with [48; cx] in Ep.
  change (rjust 2 48 [cy]) with [48; cy] in Ep.
  change (?r ++ [95] ++ [48; ?c]) with (r ++ [95; 48; c]) in Ep.
  assert (G : forall (r : str) c, r ++ [95; 48; c] = ((r ++ [95]) ++ [48]) ++ [c])
    by (intros; now rewrite <- !app_assoc).
  rewrite !G in Ep.
  apply app_inj_tail in Ep as [Ep _]. apply app_inj_tail in Ep as [Ep _].
  apply app_inj_tail in Ep as [Ep _].
  destruct kx as [rx kx], ky as [ry ky]. cbn [fst snd] in *. congruence.
Qed.

Lemma collect_ids_distinct paths sups :
  two_channel ->
  NoDup (map (fun p => recording_id_of (stem p)) paths) ->
  collect process_line paths = Ok sups ->
  NoDup (map id sups).
Proof.
  intros Hs Hnd H. unfold Callhome.collect in H.
  destruct (collect_spec _ _ _ H) as [parts [-> HP]]. cbn [app].
  destruct (collect_keys _ _ HP Hnd) as (keys & HK & Hkn & _).
  eapply NoDup_by_keys; [exact HK | exact Hkn|].
  intros x y kx ky. now apply keyed_inj.
Qed.

End Loops.

(** ** The tab-delimited body *)

Section Recipe.
Variable recording_id_of : str -> str.
Variable cleaning : str -> str.

#[local] Abbreviation process_line :=
  (Callhome.process_line recording_id_of cleaning).

(** What a line that yields a segment looks like. *)
Lemma process_line_emits split tc stem idx line s :
  process_line split tc stem idx line = Ok (Some s) ->
  exists time spk text text_bw start end_ dend dstart fstart channel,
    split_sep [9] (strip line) = [time; spk; text; text_bw]
    /\ Py.split (sub_class is_bracket time) = [start; end_]
    /\ Decimal end_ = Some dend /\ Decimal start = Some dstart
    /\ le_zero (float_of_decimal (decimal_sub dend dstart)) = false
    /\ is_empty (if tc then cleaning text else text) = false
    /\ channel_of split (speaker_tag spk) = Ok channel
    /\ float_of_str start = Some fstart
    /\ s = supervision (recording_id_of stem) (speaker_tag spk) idx fstart
             (float_of_decimal (decimal_sub dend dstart))
             (if tc then cleaning text else text) channel.
Proof.
  unfold Callhome.process_line. intro H.
  destruct (is_empty (strip line) || _); [discriminate|].
  apply bind_ok in H as [[[[time spk] text] bw] [E1 H]].
  apply unpack4_ok in E1. cbv beta iota zeta in H.
  apply bind_ok in H as [[start end_] [E2 H]].
  apply unpack2_ok in E2. cbv beta iota zeta in H.
  apply bind_ok in H as [dend [E3 H]]. apply or_raise_ok in E3.
  apply bind_ok in H as [dstart [E4 H]]. apply or_raise_ok in E4.
  destruct (le_zero _ || is_empty _) eqn:E5; [discriminate|].
  apply orb_false_iff in E5 as [E5 E6].
  apply bind_ok in H as [channel [E7 H]].
  apply bind_ok in H as [fstart [E8 H]]. apply or_raise_ok in E8.
  injection H as <-.
  exists time, spk, text, bw, start, end_, dend, dstart, fstart, channel.
  repeat (split; [assumption|]). reflexivity.
Qed.


(** Blank lines and lines with fewer than four fields are passed over. *)
Lemma process_line_skips split tc stem idx line :
  strip line = [] \/ (length (split_sep [9%Z] (strip line)) < 4)%nat ->
  process_line split tc stem idx line = Ok None.
Proof.
  intro H. unfold Callhome.process_line.
  destruct H as [-> | H]; [reflexivity|].
  apply Nat.ltb_lt in H. cbv zeta. rewrite H. now rewrite orb_true_r.
Qed.


Lemma process_line_id split tc stem k line s :
  process_line split tc stem k line = Ok (Some s) ->
  exists tag,
    id s = (recording_id_of stem ++ [95] ++ rjust 2 48 tag)
           ++ [95] ++ rjust 5 48 (str_of_int k)
    /\ (split <> train1c -> exists c, tag = [c]).
Proof.
  intro H.
  destruct (process_line_emits _ _ _ _ _ _ H)
    as (time & spk & text & bw & start & end_ & dend & dstart & fstart
        & channel & _ & _ & _ & _ & _ & _ & Hc & _ & ->).
  exists (speaker_tag spk). split; [apply supervision_id|].
  intro Hs. unfold channel_of in Hc.
  destruct split; try congruence;
    (apply bind_ok in Hc as [c [Hc _]]; unfold ord in Hc;
     destruct (speaker_tag spk) as [|x [|y t]]; try discriminate; eauto).
Qed.



End Recipe.

End CallhomeFacts.

(** * Facts about the Levantine recipe *)

Module LevantFacts.
Import Py Re Num Lhotse PyFacts NumFacts RunFacts Callhome CallhomeFacts.

Section Body.
Context {U : Unicode}.

Lemma levant_line_emits tc stem idx line s :
  Levant.process_line tc stem idx line = Ok (Some s) ->
  exists start end_ spk text dend dstart fstart c,
    split_max 3 (strip line) = [start; end_; spk; text]
    /\ Decimal end_ = Some dend /\ Decimal start = Some dstart
    /\ le_zero (float_of_decimal (decimal_sub dend dstart)) = false
    /\ is_empty (if tc then Levant.cleaning text else text) = false
    /\ float_of_str start = Some fstart
    /\ Levant.speaker_tag spk = [c]
    /\ s = supervision (str_lower stem) [c] idx fstart
             (float_of_decimal (decimal_sub dend dstart))
             (if tc then Levant.cleaning text else text) (c - 65).
Proof.
  unfold Levant.process_line. intro H.
  destruct (is_empty (strip line) || _); [discriminate|].
  apply bind_ok in H as [[[[start end_] spk] text] [E1 H]].
  apply unpack4_ok in E1. cbv beta iota zeta in H.
  apply bind_ok in H as [dend [E3 H]]. apply or_raise_ok in E3.
  apply bind_ok in H as [dstart [E4 H]]. apply or_raise_ok in E4.
  destruct (le_zero _ || is_empty _) eqn:E5; [discriminate|].
  apply orb_false_iff in E5 as [E5 E6].
  apply bind_ok in H as [fstart [E8 H]]. apply or_raise_ok in E8.
  apply bind_ok in H as [c [E7 H]].
  unfold ord in E7.
  destruct (Levant.speaker_tag spk) as [|x [|y t]] eqn:Et; try discriminate.
  injection E7 as ->. injection H as <-.
  exists start, end_, spk, text, dend, dstart, fstart, c.
  rewrite Et. repeat (split; [assumption|]). split; reflexivity.
Qed.


(** Blank lines and lines with fewer than four tokens are passed over. *)
Lemma levant_line_skips tc stem idx line :
  strip line = [] \/ (length (Py.split (strip line)) < 4)%nat ->
  Levant.process_line tc stem idx line = Ok None.
Proof.
  intro H. unfold Levant.process_line.
  destruct H as [-> | H]; [reflexivity|].
  apply Nat.ltb_lt in H. cbv zeta. rewrite H. now rewrite orb_true_r.
Qed.


Lemma levant_line_id tc stem k line s :
  Levant.process_line tc stem k line = Ok (Some s) ->
  exists tag,
    id s = (str_lower stem ++ [95] ++ rjust 2 48 tag)
           ++ [95] ++ rjust 5 48 (str_of_int k)
    /\ (True -> exists c, tag = [c]).
Proof.
  intro H.
  destruct (levant_line_emits _ _ _ _ _ H)
    as (start & end_ & spk & text & dend & dstart & fstart & c
        & _ & _ & _ & _ & _ & _ & _ & ->).
  exists [c]. split; [apply supervision_id | eauto].
Qed.

End Body.

(** ** The split *)

Lemma startswith_last p : forall t a b,
  startswith (p ++ [a]) t = true -> startswith (p ++ [b]) t = true -> a = b.
Proof.
  induction p as [|x p IH]; intros [|y t] a b Ha Hb; cbn in Ha, Hb;
    try discriminate.
  - apply andb_true_iff in Ha as [Ha _]. apply andb_true_iff in Hb as [Hb _].
    apply Z.eqb_eq in Ha, Hb. congruence.
  - apply andb_true_iff in Ha as [_ Ha]. apply andb_true_iff in Hb as [_ Hb].
    eapply IH; eassumption.
Qed.

(** No identifier matches both patterns. *)
Lemma dev_not_test t : Levant.dev_re t = true -> Levant.test_re t = false.
Proof.
  unfold Levant.dev_re, Levant.test_re, Levant.match_fla. intro H.
  apply andb_true_iff in H as [H _].
  destruct (startswith (utf8 "fla_01") t) eqn:E; [|reflexivity].
  exfalso.
  change (utf8 "fla_00") with (utf8 "fla_0" ++ [48]) in H.
  change (utf8 "fla_01") with (utf8 "fla_0" ++ [49]) in E.
  pose proof (startswith_last _ _ _ _ H E). discriminate.
Qed.

(** Three filters on exclusive conditions split a list. *)
Section Partition.
Context {A : Type}.
Variables dev test : A -> bool.
Hypothesis exclusive : forall x, dev x = true -> test x = false.

Definition train (x : A) : bool := negb (test x) && negb (dev x).

Lemma exactly_one x :
  (dev x = true /\ test x = false /\ train x = false)
  \/ (dev x = false /\ test x = true /\ train x = false)
  \/ (dev x = false /\ test x = false /\ train x = true).
Proof.
  unfold train. pose proof (exclusive x).
  destruct (dev x), (test x); cbn; intuition congruence.
Qed.

Lemma partition_length l :
  (length (filter train l) + length (filter dev l) + length (filter test l)
   = length l)%nat.
Proof.
  induction l as [|x l IH]; [reflexivity|]. cbn [filter].
  destruct (exactly_one x) as [(-> & -> & ->) | [(-> & -> & ->) | (-> & -> & ->)]];
    cbn [length]; lia.
Qed.



End Partition.

End LevantFacts.

(** * Facts about the QASR recipe *)

Module QasrFacts.
Import Py Re Num Lhotse PyFacts NumFacts RunFacts.

Lemma index_ok {A} (l : list A) i a : index l i = Ok a -> nth_error l i = Some a.
Proof. apply or_raise_ok. Qed.

(** What a line that [read_text] accepts looks like. *)
Lemma read_line_ok line s :
  Qasr.read_line line = Ok s ->
  exists line1 rec_id spk_field time spk_str spk s_time1 e_time1
         s_int e_int s_time e_time,
    nth_error (Py.split (strip line)) 0 = Some line1
    /\ split_sep [95] line1 = [rec_id; spk_field; time]
    /\ nth_error (split_sep [45] spk_field) 1 = Some spk_str
    /\ int_of_str spk_str = Some spk
    /\ split_sep [58] (replace (utf8 "seg-") [] time) = [s_time1; e_time1]
    /\ int_of_str s_time1 = Some s_int /\ Qasr.hundredth s_int = Ok s_time
    /\ int_of_str e_time1 = Some e_int /\ Qasr.hundredth e_int = Ok e_time
    /\ id s = rec_id ++ [95] ++ str_of_int spk ++ [95] ++ s_time1
              ++ [95] ++ e_time1
    /\ recording_id s = rec_id
    /\ start s = s_time
    /\ duration s = round (fsub e_time s_time) 10
    /\ text s = join [32] (tl (Py.split (strip line)))
    /\ speaker s = SpeakerIndex spk.
Proof.
  unfold Qasr.read_line. intro H.
  apply bind_ok in H as [line1 [E0 H]]. apply index_ok in E0.
  cbv zeta in H.
  apply bind_ok in H as [[[rec_id spk_field] time] [E1 H]].
  apply unpack3_ok in E1. cbv beta iota in H.
  apply bind_ok in H as [spk_str [E2 H]]. apply index_ok in E2.
  apply bind_ok in H as [spk [E3 H]]. apply or_raise_ok in E3.
  apply bind_ok in H as [[s_time1 e_time1] [E4 H]].
  apply unpack2_ok in E4. cbv beta iota in H.
  apply bind_ok in H as [s_int [E5 H]]. apply or_raise_ok in E5.
  apply bind_ok in H as [s_time [E6 H]].
  apply bind_ok in H as [e_int [E7 H]]. apply or_raise_ok in E7.
  apply bind_ok in H as [e_time [E8 H]].
  injection H as <-.
  exists line1, rec_id, spk_field, time, spk_str, spk, s_time1, e_time1,
    s_int, e_int, s_time, e_time.
  repeat (split; [assumption|]). cbn. repeat split; reflexivity.
Qed.



(** [read_text] yields one segment for each line, or raises. *)
Lemma read_text_lines lines : forall acc out,
  for_each (fun segments line =>
              let* s := Qasr.read_line line in Ok (segments ++ [s]))
    lines acc = Ok out ->
  exists new, out = acc ++ new
    /\ Forall2 (fun line s => Qasr.read_line line = Ok s) lines new.
Proof.
  induction lines as [|line lines IH]; intros acc out H.
  - injection H as <-. exists []. split; [now rewrite app_nil_r | constructor].
  - cbn [for_each] in H.
    destruct (Qasr.read_line line) as [s|e] eqn:E; cbn [bind] in H;
      [|discriminate].
    destruct (IH _ _ H) as [new [-> HF]].
    exists (s :: new). split; [now rewrite <- app_assoc|].
    constructor; assumption.
Qed.

Lemma read_text_spec file sups :
  Qasr.read_text file = Ok sups ->
  Forall2 (fun line s => Qasr.read_line line = Ok s) (Qasr.readlines file) sups.
Proof.
  unfold Qasr.read_text. intro H.
  destruct (read_text_lines _ _ _ H) as [new [-> HF]]. exact HF.
Qed.

(** ** Identifiers of the flat format *)

Lemma split_sep_char_free c t : forall cur,
  ~ In c cur -> Forall (fun w => ~ In c w) (split_sep_from [c] 0 cur t).
Proof.
  induction t as [|x t IH]; intros cur Hc; cbn [split_sep_from].
  - constructor; [|constructor]. intro H. apply in_rev in H. contradiction.
  - cbn [startswith]. rewrite andb_true_r. cbn [length Nat.sub].
    destruct (Z.eqb_spec c x) as [<- | Hne].
    + constructor; [|apply IH; intros []].
      intro H. apply in_rev in H. contradiction.
    + apply IH. intros [H | H]; [congruence | contradiction].
Qed.

Lemma split_sep_incl sep t : forall skip cur w x,
  In w (split_sep_from sep skip cur t) -> In x w -> In x cur \/ In x t.
Proof.
  induction t as [|y t IH]; intros skip cur w x Hw Hx; cbn [split_sep_from] in Hw.
  - destruct Hw as [<- | []]. left. now apply in_rev.
  - destruct skip as [|k].
    + destruct (startswith sep (y :: t)).
      * destruct Hw as [<- | Hw]; [left; now apply in_rev|].
        destruct (IH _ _ _ _ Hw Hx) as [[] | H]. right. now right.
      * destruct (IH _ _ _ _ Hw Hx) as [[<- | H] | H];
          [right; now left | now left | right; now right].
    + destruct (IH _ _ _ _ Hw Hx) as [H | H]; [now left | right; now right].
Qed.

Lemma replace_from_incl old t : forall skip x,
  In x (replace_from old [] skip t) -> In x t.
Proof.
  induction t as [|y t IH]; intros skip x H; cbn [replace_from] in H;
    [contradiction|].
  destruct skip as [|k].
  - destruct (startswith old (y :: t)).
    + cbn [app] in H. right. eapply IH, H.
    + destruct H as [<- | H]; [now left | right; eapply IH, H].
  - right. eapply IH, H.
Qed.

Lemma uint_chars_inj u v : uint_chars u = uint_chars v -> u = v.
Proof.
  intro H. apply (f_equal chars_uint) in H.
  rewrite !chars_uint_chars in H. congruence.
Qed.

Lemma uint_chars_no_sign u t : uint_chars u <> 45 :: t.
Proof.
  intro H. apply (f_equal chars_uint) in H. rewrite chars_uint_chars in H.
  cbn in H. discriminate.
Qed.

Lemma str_of_int_inj n m : str_of_int n = str_of_int m -> n = m.
Proof.
  unfold str_of_int. intro H.
  rewrite <- (DecimalZ.of_to n), <- (DecimalZ.of_to m).
  destruct (Z.to_int n) as [u|u], (Z.to_int m) as [v|v].
  - apply uint_chars_inj in H. now subst.
  - exfalso. eapply uint_chars_no_sign, H.
  - exfalso. symmetry in H. eapply uint_chars_no_sign, H.
  - injection H as H. apply uint_chars_inj in H. now subst.
Qed.

Lemma str_of_int_no_underscore n : ~ In 95 (str_of_int n).
Proof.
  unfold str_of_int.
  assert (G : forall u, ~ In 95 (uint_chars u)).
  { intros u H. pose proof (chars_uint_digits _ _ (chars_uint_chars u)) as D.
    rewrite Forall_forall in D. specialize (D 95 H). discriminate D. }
  destruct (Z.to_int n) as [u|u]; [apply G|].
  intros [H | H]; [discriminate | eapply G, H].
Qed.

(** Two lines get the same identifier only if they agree in every
    field but the text. *)
Lemma read_line_id_inj l1 l2 s1 s2 :
  Qasr.read_line l1 = Ok s1 -> Qasr.read_line l2 = Ok s2 ->
  id s1 = id s2 ->
  recording_id s1 = recording_id s2 /\ speaker s1 = speaker s2
  /\ start s1 = start s2 /\ duration s1 = duration s2.
Proof.
  intros H1 H2 E.
  destruct (read_line_ok _ _ H1)
    as (a1 & r1 & f1 & t1 & g1 & k1 & x1 & y1 & i1 & j1 & u1 & v1 & _ & A1
        & _ & _ & B1 & C1 & D1 & F1 & G1 & I1 & R1 & S1 & T1 & _ & P1).
  destruct (read_line_ok _ _ H2)
    as (a2 & r2 & f2 & t2 & g2 & k2 & x2 & y2 & i2 & j2 & u2 & v2 & _ & A2
        & _ & _ & B2 & C2 & D2 & F2 & G2 & I2 & R2 & S2 & T2 & _ & P2).
  assert (free : forall a r f t x y,
    split_sep [95] a = [r; f; t] ->
    split_sep [58] (replace (utf8 "seg-") [] t) = [x; y] ->
    ~ In 95 r /\ ~ In 95 x).
  { intros a r f t x y A B.
    pose proof (split_sep_char_free 95 a [] (fun H => H)) as G.
    unfold split_sep in A. rewrite A in G.
    inversion G as [|? ? Hr G']; subst. inversion G' as [|? ? _ G'']; subst.
    inversion G'' as [|? ? Ht _]; subst.
    split; [exact Hr|]. intro Hx. apply Ht.
    assert (Hin : In x (split_sep_from [58] 0 [] (replace (utf8 "seg-") [] t))).
    { unfold split_sep in B. rewrite B. now left. }
    destruct (split_sep_incl _ _ _ _ _ _ Hin Hx) as [[] | H].
    eapply replace_from_incl, H. }
  destruct (free _ _ _ _ _ _ A1 B1) as [Fr1 Fx1].
  destruct (free _ _ _ _ _ _ A2 B2) as [Fr2 Fx2].
  rewrite I1, I2 in E. cbn [app] in E.
  apply app_sep_unique in E as [Er E]; [|exact Fr1 | exact Fr2].
  apply app_sep_unique in E as [Ek E];
    [|apply str_of_int_no_underscore | apply str_of_int_no_underscore].
  apply app_sep_unique in E as [Ex Ey]; [|exact Fx1 | exact Fx2].
  apply str_of_int_inj in Ek.
  rewrite R1, R2, P1, P2, S1, S2, T1, T2.
  assert (Ei : i1 = i2) by congruence. assert (Ej : j1 = j2) by congruence.
  assert (Eu : u1 = u2) by congruence. assert (Ev : v1 = v2) by congruence.
  rewrite Er, Ek, Eu, Ev. repeat split; reflexivity.
Qed.

(** ** The filter on durations *)

Section Parts.
Context {U : Unicode}.


(** The identifier that [make_supervisions] builds ends in the two
    centisecond stamps, filled with zeros to seven characters. *)
Lemma make_supervision_id mer segment s :
  Qasr.make_supervision mer segment = Ok (Some s) ->
  exists head spk s_cs e_cs,
    Qasr.centiseconds (Qasr.starttime segment) = Ok s_cs
    /\ Qasr.centiseconds (Qasr.endtime segment) = Ok e_cs
    /\ id s = head ++ [95] ++ str_of_int spk ++ [95]
              ++ zfill 7 (str_of_int s_cs) ++ [95] ++ zfill 7 (str_of_int e_cs).
Proof.
  unfold Qasr.make_supervision. intro H.
  apply bind_ok in H as [keep [_ H]].
  destruct (negb keep); [discriminate|].
  apply bind_ok in H as [head [_ H]].
  apply bind_ok in H as [g [_ H]].
  apply bind_ok in H as [spk [_ H]].
  apply bind_ok in H as [s_cs [E1 H]].
  apply bind_ok in H as [e_cs [E2 H]].
  apply bind_ok in H as [s_time [_ H]].
  apply bind_ok in H as [e_time [_ H]].
  injection H as <-. exists head, spk, s_cs, e_cs.
  split; [exact E1 | split; [exact E2 | reflexivity]].
Qed.

(** What a segment of the structured format is made of. *)
Lemma make_supervision_ok mer segment s :
  Qasr.make_supervision mer segment = Ok (Some s) ->
  exists head spk s_cs e_cs s_time e_time,
    Qasr.centiseconds (Qasr.starttime segment) = Ok s_cs
    /\ Qasr.centiseconds (Qasr.endtime segment) = Ok e_cs
    /\ float_of_str (Qasr.starttime segment) = Some s_time
    /\ float_of_str (Qasr.endtime segment) = Some e_time
    /\ id s = ((head ++ [95] ++ str_of_int spk) ++ [95]
               ++ zfill 7 (str_of_int s_cs)) ++ [95]
              ++ zfill 7 (str_of_int e_cs)
    /\ recording_id s = replace [95] [45] head
    /\ speaker s = SpeakerIndex spk
    /\ start s = s_time
    /\ duration s = round (fsub e_time s_time) 8.
Proof.
  unfold Qasr.make_supervision. intro H.
  apply bind_ok in H as [keep [_ H]].
  destruct (negb keep); [discriminate|].
  apply bind_ok in H as [head [_ H]].
  apply bind_ok in H as [g [_ H]].
  apply bind_ok in H as [spk [_ H]].
  apply bind_ok in H as [s_cs [E1 H]].
  apply bind_ok in H as [e_cs [E2 H]].
  apply bind_ok in H as [s_time [E3 H]]. apply or_raise_ok in E3.
  apply bind_ok in H as [e_time [E4 H]]. apply or_raise_ok in E4.
  injection H as <-. exists head, spk, s_cs, e_cs, s_time, e_time.
  cbn [id recording_id speaker start duration].
  split; [exact E1|]. split; [exact E2|]. split; [exact E3|].
  split; [exact E4|]. split; [now rewrite <- !app_assoc|].
  repeat split; reflexivity.
Qed.

(** Two segments of the structured format get the same identifier
    only if they agree in recording, in speaker and in the whole
    hundredths of their start and end. *)
Lemma make_supervision_id_inj mer1 mer2 seg1 seg2 s1 s2 :
  Qasr.make_supervision mer1 seg1 = Ok (Some s1) ->
  Qasr.make_supervision mer2 seg2 = Ok (Some s2) ->
  id s1 = id s2 ->
  recording_id s1 = recording_id s2 /\ speaker s1 = speaker s2
  /\ Qasr.centiseconds (Qasr.starttime seg1)
     = Qasr.centiseconds (Qasr.starttime seg2)
  /\ Qasr.centiseconds (Qasr.endtime seg1)
     = Qasr.centiseconds (Qasr.endtime seg2).
Proof.
  intros H1 H2 E.
  destruct (make_supervision_ok _ _ _ H1)
    as (h1 & k1 & a1 & b1 & _ & _ & A1 & B1 & _ & _ & I1 & R1 & P1 & _).
  destruct (make_supervision_ok _ _ _ H2)
    as (h2 & k2 & a2 & b2 & _ & _ & A2 & B2 & _ & _ & I2 & R2 & P2 & _).
  rewrite I1, I2 in E. cbn [app] in E.
  apply app_sep_unique_r in E as [E Eb];
    [|apply zfill_no_underscore | apply zfill_no_underscore].
  apply app_sep_unique_r in E as [E Ea];
    [|apply zfill_no_underscore | apply zfill_no_underscore].
  apply app_sep_unique_r in E as [Eh Ek];
    [|apply str_of_int_no_underscore | apply str_of_int_no_underscore].
  apply zfill_inj in Ea, Eb. apply str_of_int_inj in Ek. subst.
  rewrite R1, R2, P1, P2, A1, A2, B1, B2. repeat split; reflexivity.
Qed.


End Parts.

End QasrFacts.

(** * Further facts about the text functions *)

Module ShapeFacts.
Import Py Re Text PyFacts TextFacts QasrTextFacts.

(** In a spaced text the only whitespace is the space, and no two
    spaces meet. *)
Lemma spaced_space t : forall b c,
  spaced b t = true -> In c t -> isspace c = true -> c = 32.
Proof.
  induction t as [|x t IH]; intros b c H Hin Hc; [contradiction|].
  cbn [spaced] in H. destruct (isspace x) eqn:E.
  - apply andb_true_iff in H as [H Ht]. apply andb_true_iff in H as [_ Hx].
    destruct Hin as [<- | Hin]; [lia | exact (IH true c Ht Hin Hc)].
  - destruct Hin as [<- | Hin]; [congruence | exact (IH false c H Hin Hc)].
Qed.

Lemma spaced_no_double t : forall b,
  spaced b t = true -> contains [32; 32] t = false.
Proof.
  induction t as [|x t IH]; intros b H; [reflexivity|].
  cbn [spaced] in H. cbn [contains startswith].
  destruct (isspace x) eqn:E.
  - apply andb_true_iff in H as [H Ht]. rewrite (IH true Ht), orb_false_r.
    destruct t as [|y t]; [now rewrite andb_false_r|].
    destruct (32 =? y) eqn:Ey; [|now rewrite andb_false_r].
    apply Z.eqb_eq in Ey. subst y. cbn [spaced] in Ht.
    change (isspace 32) with true in Ht. discriminate Ht.
  - rewrite (IH false H), orb_false_r.
    destruct (32 =? x) eqn:Ex; [|reflexivity].
    apply Z.eqb_eq in Ex. subst x. discriminate E.
Qed.

Lemma filter_all {A} (f : A -> bool) l :
  filter f l = l -> Forall (fun x => f x = true) l.
Proof.
  intro H. apply Forall_forall. intros x Hx. rewrite <- H in Hx.
  now apply filter_In in Hx.
Qed.

Section Shapes.
Context {U : Unicode} {L : UnicodeLaws U}.

(** The shape of a text that a CALLHOME [cleaning] returns. *)
Definition tidy (o : str) : Prop :=
  Forall (fun c => is_alphanumeric c = true
                   /\ mem c all_punctuations = false
                   /\ is_diacritic c = false
                   /\ (isspace c = true -> c = 32)) o
  /\ contains (utf8 "  ") o = false
  /\ strip o = o.

Lemma cleaned_tidy o : cleaned o -> tidy o.
Proof.
  intros (Hg & Hs & Hl & Hr). split; [|split].
  - apply Forall_forall. intros c Hc. rewrite Forall_forall in Hg.
    destruct (Hg c Hc) as [Ha [Hp Hd]].
    split; [exact Ha|]. split; [exact Hp|]. split; [exact Hd|].
    exact (spaced_space o false c Hs Hc).
  - exact (spaced_no_double o false Hs).
  - exact (strip_fix o Hl Hr).
Qed.

(** The shape of a text that the QASR [cleaning] returns. *)
Definition qasr_tidy (o : str) : Prop :=
  Forall (fun c => is_alphanumeric c = true
                   /\ mem c all_punctuations = false
                   /\ is_diacritic c = false
                   /\ in_range 0x660 0x66A c = false
                   /\ c <> 0x6A4) o
  /\ o = join (utf8 " ") (Py.split o)
  /\ Forall (fun w => (1 < length w)%nat \/ Qasr.str_isnumeric w = true)
       (Py.split o).

Lemma translate_fixed c :
  translate c = c -> in_range 0x660 0x66A c = false /\ c <> 0x6A4.
Proof.
  unfold translate, Qasr.eastern_to_western, Qasr.translate_char, in_range.
  repeat match goal with
  | |- context [c =? ?k] => destruct (Z.eqb_spec c k); [lia|]
  end.
  lia.
Qed.

Lemma qasr_cleaned_tidy o : qasr_cleaned o -> qasr_tidy o.
Proof.
  intro Hc. pose proof (qasr_cleaned_chars o Hc) as Hg.
  destruct Hc as (ws & -> & Hw & _ & Hf).
  unfold qasr_tidy. change (utf8 " ") with [32]. rewrite (split_join ws Hw).
  split; [|split; [reflexivity|]].
  - eapply Forall_impl; [|exact Hg]. cbv beta.
    intros c [[Ha [Hp Hd]] Ht]. destruct (translate_fixed c Ht) as [H1 H2].
    repeat (split; [assumption|]). exact H2.
  - apply filter_all in Hf. eapply Forall_impl; [|exact Hf]. cbv beta.
    intros w Hk. unfold keep_word in Hk. apply orb_true_iff in Hk as [Hk | Hk].
    + left. now apply Nat.ltb_lt.
    + now right.
Qed.

End Shapes.

End ShapeFacts.

(** * Further facts about the parsers *)

Module ParseFacts.
Import Py Re Num Lhotse PyFacts NumFacts RunFacts Callhome CallhomeFacts.

(** ** Differences that are not positive *)






(** ** The first word of a string *)

(** The first word that [str.split] finds, and what follows the
    whitespace character that ends it. *)
Fixpoint first_word (cur : str) (t : str) : option (str * str) :=
  match t with
  | [] => match cur with [] => None | _ :: _ => Some (rev cur, []) end
  | c :: t' =>
    if isspace c
    then match cur with
         | [] => first_word [] t'
         | _ :: _ => Some (rev cur, t')
         end
    else first_word (c :: cur) t'
  end.

Lemma split_words_first t : forall cur,
  split_words cur t
  = match first_word cur t with
    | None => []
    | Some (w, r) => w :: split_words [] r
    end.
Proof.
  induction t as [|c t IH]; intro cur; cbn [split_words first_word].
  - destruct cur; reflexivity.
  - destruct (isspace c); [|apply IH].
    destruct cur; [apply IH | reflexivity].
Qed.

Lemma split_words_max_first t : forall n cur,
  (cur = [] \/ n <> O) ->
  split_words_max n cur t
  = match n with
    | O => match dropwhile isspace t with [] => [] | d => [d] end
    | S m =>
      match first_word cur t with
      | None => []
      | Some (w, r) => w :: split_words_max m [] r
      end
    end.
Proof.
  induction t as [|c t IH]; intros n cur H;
    cbn [split_words_max first_word dropwhile].
  - destruct n as [|m]; destruct cur as [|x cur]; try reflexivity.
    destruct H as [H | H]; [discriminate | contradiction].
  - destruct cur as [|x cur].
    + destruct (isspace c) eqn:E.
      * rewrite IH by (now left). destruct n; reflexivity.
      * destruct n as [|m]; [reflexivity|].
        rewrite IH by (right; discriminate). reflexivity.
    + destruct n as [|m]; [destruct H as [H | H]; [discriminate | contradiction]|].
      destruct (isspace c) eqn:E; [reflexivity|].
      rewrite IH by (right; discriminate). reflexivity.
Qed.

Lemma split_dropwhile t : Py.split (dropwhile isspace t) = Py.split t.
Proof.
  unfold Py.split. induction t as [|c t IH]; [reflexivity|].
  cbn [dropwhile split_words]. destruct (isspace c) eqn:E; [exact IH|].
  cbn [split_words]. now rewrite E.
Qed.

Lemma split_blank t : dropwhile isspace t = [] -> Py.split t = [].
Proof. intro H. rewrite <- split_dropwhile, H. reflexivity. Qed.

(** What follows the first word is a suffix of the string. *)
Lemma first_word_suffix t : forall cur w r,
  first_word cur t = Some (w, r) -> exists l, t = l ++ r.
Proof.
  induction t as [|c t IH]; intros cur w r H; cbn [first_word] in H.
  - destruct cur; [discriminate|]. injection H as _ <-. now exists [].
  - destruct (isspace c).
    + destruct cur.
      * destruct (IH _ _ _ H) as [l ->]. now exists (c :: l).
      * injection H as _ <-. now exists [c].
    + destruct (IH _ _ _ H) as [l ->]. now exists (c :: l).
Qed.

Lemma dropwhile_suffix f t : exists l, t = l ++ dropwhile f t.
Proof.
  induction t as [|c t [l IH]]; [now exists []|]. cbn [dropwhile].
  destruct (f c); [|now exists []]. exists (c :: l). cbn [app]. now f_equal.
Qed.

(** A non-empty suffix of a string without trailing whitespace has no
    trailing whitespace. *)
Lemma suffix_no_trail (l d : str) :
  d <> [] -> no_lead (rev (l ++ d)) -> no_lead (rev d).
Proof.
  intros Hd H. rewrite rev_app_distr in H.
  destruct (rev d) as [|x r] eqn:E; [exact I|]. exact H.
Qed.

(** With [maxsplit = 3] a string of at least four words splits into
    its first three words and the rest, which begins with the fourth
    word. *)
Lemma split_max_four t :
  (4 <= length (Py.split t))%nat ->
  exists a b c d,
    split_max 3 t = [a; b; c; d]
    /\ Py.split t = a :: b :: c :: Py.split d
    /\ d <> [] /\ no_lead d
    /\ exists l, t = l ++ d.
Proof.
  unfold split_max, Py.split. intro H.
  rewrite split_words_max_first by (now left).
  rewrite split_words_first in H |- *.
  destruct (first_word [] t) as [[a r1]|] eqn:E1; [|cbn in H; lia].
  destruct (first_word_suffix _ _ _ _ E1) as [l1 ->].
  rewrite split_words_max_first by (now left).
  rewrite split_words_first in H |- *.
  destruct (first_word [] r1) as [[b r2]|] eqn:E2; [|cbn in H; lia].
  destruct (first_word_suffix _ _ _ _ E2) as [l2 ->].
  rewrite split_words_max_first by (now left).
  rewrite split_words_first in H |- *.
  destruct (first_word [] r2) as [[c r3]|] eqn:E3; [|cbn in H; lia].
  destruct (first_word_suffix _ _ _ _ E3) as [l3 ->].
  rewrite split_words_max_first by (now left).
  destruct (dropwhile isspace r3) as [|x d] eqn:Ed.
  { apply split_blank in Ed. unfold Py.split in Ed. rewrite Ed in H.
    cbn in H. lia. }
  exists a, b, c, (x :: d). split; [reflexivity|].
  split.
  { do 3 f_equal. pose proof (split_dropwhile r3) as G.
    unfold Py.split in G. rewrite <- G, Ed. reflexivity. }
  split; [discriminate|]. split.
  { pose proof (no_lead_dropwhile r3) as G. now rewrite Ed in G. }
  destruct (dropwhile_suffix isspace r3) as [l4 E4]. rewrite Ed in E4.
  exists (l1 ++ l2 ++ l3 ++ l4). rewrite E4, <- !app_assoc. reflexivity.
Qed.

(** ** Positions in a numbered list *)

Lemma Forall2_indices {A} (R : A -> Z -> Prop) l : forall idx,
  Forall2 R l (indices idx (length l)) ->
  forall k x, nth_error l k = Some x -> R x (idx + Z.of_nat k).
Proof.
  induction l as [|y l IH]; intros idx H k x Hk.
  - destruct k; discriminate.
  - cbn [length] in H. rewrite indices_S in H.
    inversion H as [|? ? ? ? Hy Hl]; subst.
    destruct k as [|k]; cbn [nth_error] in Hk.
    + injection Hk as <-. now rewrite Z.add_0_r.
    + replace (idx + Z.of_nat (S k)) with (idx + 1 + Z.of_nat k) by lia.
      exact (IH _ Hl k x Hk).
Qed.

End ParseFacts.

(** * Further facts about the flat format *)

Module FlatFacts.
Import Py Re Num Lhotse PyFacts NumFacts RunFacts QasrTextFacts QasrFacts.
Import ParseFacts.

(** ** Splitting at a character *)

Lemma split_sep_from_free c a : forall cur,
  ~ In c a -> split_sep_from [c] 0 cur a = [rev cur ++ a].
Proof.
  induction a as [|x a IH]; intros cur H; cbn [split_sep_from].
  - now rewrite app_nil_r.
  - cbn [startswith]. rewrite andb_true_r.
    destruct (Z.eqb_spec c x) as [-> | Hne]; [exfalso; apply H; now left|].
    rewrite IH by (intro G; apply H; now right).
    cbn [rev]. now rewrite <- app_assoc.
Qed.

Lemma split_sep_from_first c a rest : forall cur,
  ~ In c a ->
  split_sep_from [c] 0 cur (a ++ c :: rest)
  = (rev cur ++ a) :: split_sep_from [c] 0 [] rest.
Proof.
  induction a as [|x a IH]; intros cur H; cbn [app split_sep_from].
  - cbn [startswith]. rewrite Z.eqb_refl. cbn [andb length Nat.sub].
    now rewrite app_nil_r.
  - cbn [startswith]. rewrite andb_true_r.
    destruct (Z.eqb_spec c x) as [-> | Hne]; [exfalso; apply H; now left|].
    rewrite IH by (intro G; apply H; now right).
    cbn [rev]. now rewrite <- app_assoc.
Qed.

Lemma split_sep_free c a : ~ In c a -> split_sep [c] a = [a].
Proof. intro H. unfold split_sep. now rewrite split_sep_from_free. Qed.

Lemma split_sep_first c a rest :
  ~ In c a -> split_sep [c] (a ++ c :: rest) = a :: split_sep [c] rest.
Proof. intro H. unfold split_sep. now rewrite split_sep_from_first. Qed.

(** ** Replacing a word that does not occur *)

Lemma replace_from_absent old t : forall x o,
  old = x :: o -> ~ In x t -> replace_from old [] 0 t = t.
Proof.
  intros x o ->. induction t as [|c t IH]; intro H; [reflexivity|].
  cbn [replace_from startswith].
  destruct (Z.eqb_spec x c) as [-> | Hne]; [exfalso; apply H; now left|].
  cbn [andb]. rewrite IH by (intro G; apply H; now right). reflexivity.
Qed.

Lemma replace_seg r :
  ~ In 115 r -> replace (utf8 "seg-") [] (utf8 "seg-" ++ r) = r.
Proof.
  intro H. change (utf8 "seg-") with [115; 101; 103; 45].
  cbn [replace app replace_from startswith length Nat.sub].
  rewrite !Z.eqb_refl. cbn [andb app replace_from].
  exact (replace_from_absent _ r 115 [101; 103; 45] eq_refl H).
Qed.

(** ** Words and surrounding whitespace *)

Lemma split_words_blank ws :
  Forall (fun c => isspace c = true) ws ->
  forall cur,
  split_words cur ws = match cur with [] => [] | _ :: _ => [rev cur] end.
Proof.
  induction 1 as [|c ws Hc _ IH]; intro cur; cbn [split_words];
    [reflexivity|].
  rewrite Hc. destruct cur; [exact (IH []) | now rewrite (IH [])].
Qed.

Lemma split_words_trail t ws : forall cur,
  Forall (fun c => isspace c = true) ws ->
  split_words cur (t ++ ws) = split_words cur t.
Proof.
  induction t as [|c t IH]; intros cur H; cbn [app split_words].
  - exact (split_words_blank ws H cur).
  - destruct (isspace c); [destruct cur|]; now rewrite IH.
Qed.

Lemma takewhile_all f t : Forall (fun c => f c = true) (takewhile f t).
Proof.
  induction t as [|c t IH]; cbn [takewhile]; [constructor|].
  destruct (f c) eqn:E; constructor; assumption.
Qed.

Lemma rstrip_trail t :
  exists ws, t = rstrip t ++ ws /\ Forall (fun c => isspace c = true) ws.
Proof.
  exists (rev (takewhile isspace (rev t))). split.
  - unfold rstrip. rewrite <- rev_app_distr, takewhile_dropwhile.
    now rewrite rev_involutive.
  - apply Forall_rev, takewhile_all.
Qed.

Lemma split_rstrip t : Py.split (rstrip t) = Py.split t.
Proof.
  destruct (rstrip_trail t) as [ws [E H]]. unfold Py.split.
  rewrite E at 2. now rewrite split_words_trail.
Qed.

(** Trimming a string does not change its words. *)
Lemma split_strip t : Py.split (strip t) = Py.split t.
Proof.
  unfold strip, lstrip. now rewrite split_rstrip, split_dropwhile.
Qed.

(** The words of a word followed by a space and a text. *)
Lemma split_word_first w t :
  wordlike w -> Py.split (w ++ 32 :: t) = w :: Py.split t.
Proof.
  intros [Hne Hw]. unfold Py.split.
  rewrite split_words_app by exact Hw. rewrite app_nil_r.
  destruct (rev_nonempty w Hne) as [x [r Er]].
  cbn [split_words]. change (isspace 32) with true. cbv iota.
  rewrite Er, <- Er, rev_involutive. reflexivity.
Qed.

(** ** Digits *)

Lemma digit_chars c :
  is_ascii_digit c = true ->
  isspace c = false /\ c <> 95 /\ c <> 45 /\ c <> 58 /\ c <> 115 /\ c <> 43.
Proof.
  unfold is_ascii_digit, in_range. intro H.
  assert (G : 48 <= c <= 57) by lia.
  split; [|lia]. unfold isspace, in_range. lia.
Qed.

(** ** The threshold on the match error rate *)

Lemma le_int_mono x n m : le_int x n = true -> n <= m -> le_int x m = true.
Proof.
  intros H Hle. destruct x as [s|s| |s mx e]; cbn [le_int] in *.
  - apply Z.leb_le in H. apply Z.leb_le. lia.
  - exact H.
  - discriminate H.
  - destruct (0 <=? e) eqn:E.
    + apply Z.leb_le in H. apply Z.leb_le. lia.
    + apply Z.leb_le in H. apply Z.leb_le. apply Z.leb_gt in E.
      assert (P : 0 < 2 ^ (- e)) by (apply Z.pow_pos_nonneg; lia).
      nia.
Qed.

End FlatFacts.

(** * Facts about the whole call of the Levantine recipe *)

Module CallFacts.
Import Py Lhotse LevantCall LevantFacts.

(** ** The assertions on the sizes *)

Lemma check_sizes_cases S :
  Levant.check_sizes S = Ok S \/ Levant.check_sizes S = Raise AssertionError.
Proof.
  unfold Levant.check_sizes.
  repeat (destruct (negb _); [now right|]). now left.
Qed.

Lemma check_sizes_ok S :
  Levant.check_sizes S = Ok S
  <-> length (Levant.rec_lev_dev S) = 79%nat
      /\ length (Levant.rec_lev_test S) = 80%nat
      /\ length (Levant.rec_lev_train S) = 1499%nat.
Proof.
  unfold Levant.check_sizes.
  destruct (Z.eqb_spec (Z.of_nat (length (Levant.rec_lev_dev S))) 79);
    cbn [negb]; [|split; [discriminate | lia]].
  destruct (Z.eqb_spec (Z.of_nat (length (Levant.rec_lev_test S))) 80);
    cbn [negb]; [|split; [discriminate | lia]].
  destruct (Z.eqb_spec (Z.of_nat (length (Levant.rec_lev_train S))) 1499);
    cbn [negb]; [|split; [discriminate | lia]].
  split; [lia | reflexivity].
Qed.

(** The sizes that [check_sizes] accepts add up to 1658. *)
Lemma accepted_total sups recs :
  Levant.check_sizes (Levant.lev_filters sups recs)
  = Ok (Levant.lev_filters sups recs) ->
  length recs = 1658%nat.
Proof.
  intro H. apply check_sizes_ok in H as (G1 & G2 & G3).
  pose proof (partition_length
                (fun x : Recording => Levant.dev_re (rec_id x))
                (fun x : Recording => Levant.test_re (rec_id x))
                (fun x => dev_not_test (rec_id x)) recs) as P.
  unfold Levant.lev_filters in G1, G2, G3.
  cbn [Levant.rec_lev_dev Levant.rec_lev_test Levant.rec_lev_train]
    in G1, G2, G3.
  unfold LevantFacts.train in P. lia.
Qed.

(** ** How a call ends *)

Lemma ends_with_ends {A} (o o' : outcome A) : ends_with (Ends o) o' -> o' = o.
Proof. intro H. inversion H. reflexivity. Qed.

Lemma ends_with_prompt {A} (k : pdb_command -> call A) o :
  ends_with (Prompt k) o -> exists command, ends_with (k command) o.
Proof. intro H. inversion H as [|k' c o' Hc]; subst. now exists c. Qed.

(** How a call that goes through [lev_split] can end. *)
Lemma after_lev_split {A} sups recs (k : Levant.subsets -> call A) o :
  ends_with (after_run (Levant.lev_split sups recs) k) o ->
  o = Fails (Raised BdbQuit)
  \/ o = Fails (Raised AssertionError)
  \/ (Levant.check_sizes (Levant.lev_filters sups recs)
      = Ok (Levant.lev_filters sups recs)
      /\ ends_with (k (Levant.lev_filters sups recs)) o).
Proof.
  unfold Levant.lev_split. cbn [after_run]. intro H.
  apply ends_with_prompt in H as [[|] H]; cbn [after_run] in H.
  - destruct (check_sizes_cases (Levant.lev_filters sups recs)) as [D | D];
      rewrite D in H; cbn [after_run] in H.
    + right. right. split; [exact D | exact H].
    + right. left. now apply ends_with_ends in H.
  - left. now apply ends_with_ends in H.
Qed.

(** With [skip_prep=True] no value is returned. *)
Lemma skip_prep_ends {U : Unicode} from_recordings transcript_paths
  fix_and_validate write_all load_all write_subsets output_dir
  (text_cleaning : bool) o :
  ends_with
    (prepare_callhome_levant from_recordings transcript_paths
       fix_and_validate write_all load_all write_subsets output_dir
       text_cleaning true) o ->
  exists f, o = Fails f.
Proof.
  intro H. unfold prepare_callhome_levant in H. cbv zeta in H. cbv iota in H.
  destruct output_dir as [dir|]; [|apply ends_with_ends in H; eauto].
  destruct (load_all None) as [[[r s]|f]|];
    [| apply ends_with_ends in H; eauto | apply ends_with_ends in H; eauto].
  apply after_lev_split in H as [-> | [-> | [_ H]]]; eauto.
  destruct (write_subsets _); apply ends_with_ends in H; eauto.
Qed.

End CallFacts.

(** * The width of formatted numbers *)

Module WidthFacts.
Import Py Num.

Lemma uint_chars_length u : length (uint_chars u) = Decimal.nb_digits u.
Proof.
  induction u; cbn [uint_chars length Decimal.nb_digits]; congruence.
Qed.

Lemma usize_digits u :
  DecimalPos.Unsigned.usize u = N.of_nat (Decimal.nb_digits u).
Proof.
  induction u; cbn [DecimalPos.Unsigned.usize Decimal.nb_digits];
    rewrite ?IHu, ?Nnat.Nat2N.inj_succ; reflexivity.
Qed.

(** A string of digits is below the power of ten of its length. *)
Lemma of_lu_bound l :
  (DecimalPos.Unsigned.of_lu l < 10 ^ DecimalPos.Unsigned.usize l)%N.
Proof.
  induction l;
    cbn [DecimalPos.Unsigned.of_lu DecimalPos.Unsigned.usize];
    rewrite ?N.pow_succ_r'; [rewrite N.pow_0_r|..]; lia.
Qed.

Lemma of_uint_bound u :
  (Pos.of_uint u < 10 ^ N.of_nat (Decimal.nb_digits u))%N.
Proof.
  rewrite DecimalPos.Unsigned.of_uint_alt.
  pose proof (of_lu_bound (Decimal.rev u)) as H.
  now rewrite usize_digits, DecimalFacts.nb_digits_rev in H.
Qed.

Definition leading_zero (u : Decimal.uint) : bool :=
  match u with
  | Decimal.D0 _ => true
  | _ => false
  end.

(** Without a leading zero it is not below the power of ten of its
    length less one. *)
Lemma of_uint_lower u :
  u <> Decimal.Nil -> leading_zero u = false ->
  (10 ^ N.of_nat (pred (Decimal.nb_digits u)) <= Pos.of_uint u)%N.
Proof.
  destruct u; intros Hn Hz; try congruence; try discriminate;
    cbn [Pos.of_uint Decimal.nb_digits pred];
    rewrite DecimalPos.Unsigned.of_uint_acc_rev, usize_digits; lia.
Qed.

Lemma nzhead_leading u : leading_zero (Decimal.nzhead u) = false.
Proof. induction u; cbn [Decimal.nzhead leading_zero]; auto. Qed.

(** [str] writes no leading zero. *)
Lemma to_uint_leading p : leading_zero (Pos.to_uint p) = false.
Proof.
  pose proof (DecimalPos.Unsigned.to_of (Pos.to_uint p)) as H.
  rewrite DecimalPos.Unsigned.of_to in H. cbn [N.to_uint] in H.
  pose proof (DecimalPos.Unsigned.to_uint_nonzero p) as Hz.
  pose proof (nzhead_leading (Pos.to_uint p)) as Hl.
  unfold Decimal.unorm in H.
  destruct (Decimal.nzhead (Pos.to_uint p)); try congruence;
    rewrite H; reflexivity.
Qed.

Lemma str_of_int_pos p : str_of_int (Zpos p) = uint_chars (Pos.to_uint p).
Proof. reflexivity. Qed.

(** The number of characters of [str(n)] for a positive [n]. *)
Lemma str_of_int_width p :
  10 ^ Z.of_nat (pred (length (str_of_int (Zpos p)))) <= Zpos p
  < 10 ^ Z.of_nat (length (str_of_int (Zpos p))).
Proof.
  rewrite str_of_int_pos, uint_chars_length.
  pose proof (of_uint_bound (Pos.to_uint p)) as Hu.
  pose proof (of_uint_lower (Pos.to_uint p)
                (DecimalPos.Unsigned.to_uint_nonnil p) (to_uint_leading p))
    as Hl.
  rewrite DecimalPos.Unsigned.of_to in Hu, Hl.
  apply N2Z.inj_lt in Hu. apply N2Z.inj_le in Hl.
  rewrite N2Z.inj_pow, nat_N_Z in Hu, Hl.
  change (Z.of_N 10) with 10 in Hu, Hl.
  change (Z.of_N (N.pos p)) with (Z.pos p) in Hu, Hl. lia.
Qed.

Lemma str_of_int_length_le k n :
  (1 <= k)%nat -> 0 <= n < 10 ^ Z.of_nat k ->
  (length (str_of_int n) <= k)%nat.
Proof.
  intros Hk [H0 Hn]. destruct n as [|p|p]; [exact Hk | | lia].
  destruct (str_of_int_width p) as [Hl _].
  assert (G : 10 ^ Z.of_nat (pred (length (str_of_int (Z.pos p))))
              < 10 ^ Z.of_nat k) by lia.
  apply Z.pow_lt_mono_r_iff in G; lia.
Qed.

Lemma str_of_int_length_gt k n :
  10 ^ Z.of_nat k <= n -> (k < length (str_of_int n))%nat.
Proof.
  intro Hn. assert (0 < 10 ^ Z.of_nat k) by (apply Z.pow_pos_nonneg; lia).
  destruct n as [|p|p]; try lia.
  destruct (str_of_int_width p) as [_ Hu].
  assert (G : 10 ^ Z.of_nat k < 10 ^ Z.of_nat (length (str_of_int (Z.pos p))))
    by lia.
  apply Z.pow_lt_mono_r_iff in G; lia.
Qed.

Lemma rjust_exact w fill t :
  (length t <= w)%nat -> length (rjust w fill t) = w.
Proof. intro H. unfold rjust. rewrite length_app, repeat_length. lia. Qed.

Lemma rjust_long w fill t :
  (w <= length t)%nat -> rjust w fill t = t.
Proof.
  intro H. unfold rjust. replace (w - length t)%nat with 0%nat by lia.
  reflexivity.
Qed.

Lemma zfill_exact w t : (length t <= w)%nat -> length (zfill w t) = w.
Proof.
  intro H. unfold zfill. destruct t as [|c r]; [apply repeat_length|].
  destruct ((c =? 43) || (c =? 45));
    cbn [length] in *; rewrite length_app, repeat_length; cbn [length]; lia.
Qed.

End WidthFacts.

(** * The properties of the specification *)

Module Claims.
Import Py Re Num Lhotse Text Samples.
Import PyFacts NumFacts RunFacts TextFacts QasrTextFacts.
Import CallhomeFacts LevantFacts QasrFacts.

(** ** Idempotence of the cleaning functions *)

Lemma marked_of_bool ws :
  forallb (existsb (fun c => mem c all_punctuations)) ws = true ->
  Forall (fun w => exists c, In c w /\ mem c all_punctuations = true) ws.
Proof.
  intro H. apply Forall_forall. intros w Hw.
  rewrite forallb_forall in H. specialize (H w Hw).
  apply existsb_exists in H. exact H.
Qed.

Lemma gulf_words_marked :
  Forall (fun w => exists c, In c w /\ mem c all_punctuations = true)
    Gulf.words_to_remove.
Proof. apply marked_of_bool. vm_compute. reflexivity. Qed.

Lemma iraqi_words_marked :
  Forall (fun w => exists c, In c w /\ mem c all_punctuations = true)
    Iraqi.words_to_remove.
Proof. apply marked_of_bool. vm_compute. reflexivity. Qed.

Lemma levant_words_marked :
  Forall (fun w => exists c, In c w /\ mem c all_punctuations = true)
    Levant.words_to_remove.
Proof. apply marked_of_bool. vm_compute. reflexivity. Qed.

Lemma blank_empty : Forall (fun c => c = 32) (utf8 "").
Proof. constructor. Qed.

Lemma gulf_cleaning_unfold {U : Unicode} s :
  Gulf.cleaning s = Text.cleaning Gulf.words_to_remove (utf8 " ") s.
Proof.
  unfold Gulf.cleaning, Text.cleaning, Gulf.remove_special_words,
    Gulf.remove_diacritics, Gulf.remove_punctuations,
    Gulf.remove_non_alphanumeric, Gulf.remove_extra_space.
  reflexivity.
Qed.

Lemma iraqi_cleaning_unfold {U : Unicode} s :
  Iraqi.cleaning s = Text.cleaning Iraqi.words_to_remove (utf8 "") s.
Proof.
  unfold Iraqi.cleaning, Text.cleaning, Iraqi.remove_special_words,
    Iraqi.remove_diacritics, Iraqi.remove_punctuations,
    Iraqi.remove_non_alphanumeric, Iraqi.remove_extra_space.
  reflexivity.
Qed.

Lemma levant_cleaning_unfold {U : Unicode} s :
  Levant.cleaning s = Text.cleaning Levant.words_to_remove (utf8 " ") s.
Proof.
  unfold Levant.cleaning, Text.cleaning, Levant.remove_special_words,
    Levant.remove_diacritics, Levant.remove_punctuations,
    Levant.remove_non_alphanumeric, Levant.remove_extra_space.
  reflexivity.
Qed.

(** C1. The text-normalisation pipeline is idempotent: cleaning a
    cleaned text changes nothing, for the Gulf, Iraqi and Levantine
    pipelines and for the QASR pipeline with its digit normalisation
    and its removal of one-character words. *)
Theorem cleaning_idempotent (U : Unicode) (L : UnicodeLaws U) (s : str) :
  Gulf.cleaning (Gulf.cleaning s) = Gulf.cleaning s
  /\ Iraqi.cleaning (Iraqi.cleaning s) = Iraqi.cleaning s
  /\ Levant.cleaning (Levant.cleaning s) = Levant.cleaning s
  /\ Qasr.cleaning (Qasr.cleaning s) = Qasr.cleaning s.
Proof.
  split; [|split; [|split]].
  - rewrite !gulf_cleaning_unfold.
    apply callhome_cleaning_idempotent;
      [exact blank_space | exact gulf_words_marked].
  - rewrite !iraqi_cleaning_unfold.
    apply callhome_cleaning_idempotent;
      [exact blank_empty | exact iraqi_words_marked].
  - rewrite !levant_cleaning_unfold.
    apply callhome_cleaning_idempotent;
      [exact blank_space | exact levant_words_marked].
  - apply qasr_cleaning_idempotent.
Qed.

Lemma cleaning_idempotent_witness :
  let U := Basic.basic_unicode in
  let s := raw_text in
  Gulf.cleaning (Gulf.cleaning s) = Gulf.cleaning s
  /\ Iraqi.cleaning (Iraqi.cleaning s) = Iraqi.cleaning s
  /\ Levant.cleaning (Levant.cleaning s) = Levant.cleaning s
  /\ Qasr.cleaning (Qasr.cleaning s) = Qasr.cleaning s.
Proof.
  exact (cleaning_idempotent Basic.basic_unicode basic_laws raw_text).
Defined.

(** ** Durations and texts of the segments *)


Section Tabbed.
Variable recording_id_of : str -> str.
Variable cleaning : str -> str.


End Tabbed.




Lemma gulf_example :
  @Gulf.split_supervisions Basic.basic_unicode Callhome.devtest true
    [example_transcript] = Ok [gulf_segment].
Proof. vm_compute. reflexivity. Qed.

Lemma iraqi_example :
  @Iraqi.split_supervisions Basic.basic_unicode Callhome.devtest true
    [example_transcript] = Ok [iraqi_segment].
Proof. vm_compute. reflexivity. Qed.

Lemma levant_example :
  @Levant.all_supervisions Basic.basic_unicode true [levant_transcript]
  = Ok [levant_segment].
Proof. vm_compute. reflexivity. Qed.


(** The start is not tested: a line whose first stamp is negative
    gives a segment that starts below zero. *)
Lemma start_not_tested :
  exists s,
    @Gulf.split_supervisions Basic.basic_unicode Callhome.devtest true
      [early_transcript] = Ok [s]
    /\ ge_zero (start s) = false.
Proof.
  eexists. split; [vm_compute; reflexivity | vm_compute; reflexivity].
Qed.

(** ** Uniqueness of the identifiers *)

(** C3, as stated, fails: the stems of [iraqi_pair] are distinct, and
    the two segments of the run have the same identifier. *)
Lemma iraqi_ids_collide :
  NoDup (map stem iraqi_pair)
  /\ exists sups,
       @Iraqi.split_supervisions Basic.basic_unicode Callhome.devtest true
         iraqi_pair = Ok sups
       /\ ~ NoDup (map id sups).
Proof.
  split.
  - constructor; [|constructor; [intros [] | constructor]].
    intros [H | []]. vm_compute in H. discriminate H.
  - exists [iraqi_segment; iraqi_segment].
    split; [vm_compute; reflexivity|].
    intro H. inversion H as [|? ? Hn _]; subst. apply Hn. now left.
Qed.

Lemma single_transcript_ids process_line recording_id_of (two_channel : Prop)
  p sups :
  (forall stem k line s,
     process_line stem k line = Ok (Some s) ->
     exists tag,
       id s = (recording_id_of stem ++ [95] ++ rjust 2 48 tag)
              ++ [95] ++ rjust 5 48 (str_of_int k)
       /\ (two_channel -> exists c, tag = [c])) ->
  Callhome.collect process_line [p] = Ok sups -> NoDup (map id sups).
Proof.
  intros Hid H. unfold Callhome.collect in H. cbn [for_each] in H.
  destruct (Callhome.process_transcript process_line [] p) as [l|e] eqn:E;
    [|discriminate H].
  injection H as <-.
  exact (transcript_ids_distinct process_line recording_id_of two_channel
           Hid p l E).
Qed.

(** C3, amended.  Within one transcript of the tab- and
    whitespace-delimited formats the identifiers are pairwise distinct.
    Across the transcripts of a two-channel CALLHOME run they are
    pairwise distinct when the recording identifiers are: the stems
    for Gulf, the lower-cased stems for Iraqi and Levantine.  In the
    flat format two lines get the same identifier only if they agree
    in recording, speaker index, start and duration, and in the
    structured format two segments get the same identifier only if
    they agree in recording, speaker index and the whole hundredths of
    their start and end. *)
Theorem ids_distinct (U : Unicode) :
  (forall split tc p sups,
     Gulf.split_supervisions split tc [p] = Ok sups -> NoDup (map id sups))
  /\ (forall split tc p sups,
        Iraqi.split_supervisions split tc [p] = Ok sups ->
        NoDup (map id sups))
  /\ (forall split tc paths sups,
        split <> Callhome.train1c ->
        NoDup (map stem paths) ->
        Gulf.split_supervisions split tc paths = Ok sups ->
        NoDup (map id sups))
  /\ (forall split tc paths sups,
        split <> Callhome.train1c ->
        NoDup (map (fun p => str_lower (stem p)) paths) ->
        Iraqi.split_supervisions split tc paths = Ok sups ->
        NoDup (map id sups))
  /\ (forall tc paths sups,
        NoDup (map (fun p => str_lower (stem p)) paths) ->
        Levant.all_supervisions tc paths = Ok sups ->
        NoDup (map id sups))
  /\ (forall line1 line2 s1 s2,
        Qasr.read_line line1 = Ok s1 -> Qasr.read_line line2 = Ok s2 ->
        id s1 = id s2 ->
        recording_id s1 = recording_id s2 /\ speaker s1 = speaker s2
        /\ start s1 = start s2 /\ duration s1 = duration s2)
  /\ (forall mer1 mer2 seg1 seg2 s1 s2,
        Qasr.make_supervision mer1 seg1 = Ok (Some s1) ->
        Qasr.make_supervision mer2 seg2 = Ok (Some s2) ->
        id s1 = id s2 ->
        recording_id s1 = recording_id s2 /\ speaker s1 = speaker s2
        /\ Qasr.centiseconds (Qasr.starttime seg1)
           = Qasr.centiseconds (Qasr.starttime seg2)
        /\ Qasr.centiseconds (Qasr.endtime seg1)
           = Qasr.centiseconds (Qasr.endtime seg2)).
Proof.
  split; [|split; [|split; [|split; [|split; [|split]]]]].
  - intros split tc p sups.
    exact (single_transcript_ids _ _ _ p sups
             (CallhomeFacts.process_line_id (fun x => x) Gulf.cleaning split tc)).
  - intros split tc p sups.
    exact (single_transcript_ids _ _ _ p sups
             (CallhomeFacts.process_line_id str_lower Iraqi.cleaning split tc)).
  - intros split tc paths sups Hs Hn H.
    exact (collect_ids_distinct _ _ _
             (CallhomeFacts.process_line_id (fun x => x) Gulf.cleaning split tc)
             paths sups Hs Hn H).
  - intros split tc paths sups Hs Hn H.
    exact (collect_ids_distinct _ _ _
             (CallhomeFacts.process_line_id str_lower Iraqi.cleaning split tc)
             paths sups Hs Hn H).
  - intros tc paths sups Hn H.
    exact (collect_ids_distinct _ _ _ (levant_line_id tc) paths sups I Hn H).
  - exact read_line_id_inj.
  - exact make_supervision_id_inj.
Qed.

Lemma flat_example : Qasr.read_line flat_line = Ok flat_segment.
Proof. vm_compute. reflexivity. Qed.

Lemma flat_example_again :
  Qasr.read_line flat_line_again = Ok flat_segment_again.
Proof. vm_compute. reflexivity. Qed.

Lemma ids_distinct_witness :
  NoDup (map id [gulf_segment])
  /\ NoDup (map id [iraqi_segment])
  /\ NoDup (map id [levant_segment])
  /\ (recording_id flat_segment = recording_id flat_segment_again
      /\ speaker flat_segment = speaker flat_segment_again
      /\ start flat_segment = start flat_segment_again
      /\ duration flat_segment = duration flat_segment_again).
Proof.
  destruct (ids_distinct Basic.basic_unicode) as (_ & _ & G & Q & V & F & _).
  assert (D : forall (x : str), NoDup [x])
    by (intro x; constructor; [intros [] | constructor]).
  split; [|split; [|split]].
  - apply (G Callhome.devtest true [example_transcript]);
      [discriminate | apply D | exact gulf_example].
  - apply (Q Callhome.devtest true [example_transcript]);
      [discriminate | apply D | exact iraqi_example].
  - apply (V true [levant_transcript]); [apply D | exact levant_example].
  - exact (F flat_line flat_line_again flat_segment flat_segment_again
             flat_example flat_example_again eq_refl).
Defined.

(** ** How durations are computed *)



Lemma gulf_line_example :
  @Gulf.process_line Basic.basic_unicode Callhome.devtest true
    (stem example_transcript) 0 example_line = Ok (Some gulf_segment).
Proof. vm_compute. reflexivity. Qed.

Lemma levant_line_example :
  @Levant.process_line Basic.basic_unicode true (stem levant_transcript) 0
    (content levant_transcript) = Ok (Some levant_segment).
Proof. vm_compute. reflexivity. Qed.


(** ** Malformed records *)

(** C5, as stated, fails for the flat format: the line of
    [undecodable_flat] is not skipped, it raises [ValueError], and the
    preparation of the part stops with it. *)
Lemma flat_line_raises :
  Qasr.read_text undecodable_flat = Raise ValueError
  /\ @Qasr.prepare_part Basic.basic_unicode (Qasr.test_part undecodable_flat)
       true (Some 80) = Raise ValueError.
Proof. split; vm_compute; reflexivity. Qed.

Lemma skip_step process_line stem sups idx line :
  process_line stem idx line = Ok None ->
  Callhome.line_step process_line stem (sups, idx) line = Ok (sups, idx).
Proof. intro H. unfold Callhome.line_step. now rewrite H. Qed.

(** C5, amended.  In the tab-delimited format every line that is empty
    after trimming or has fewer than four tab-separated fields, and in
    the whitespace-delimited format every line that is empty after
    trimming or has fewer than four tokens, is skipped: the iteration
    raises nothing and leaves the segments and the counter as they
    are.  The flat time-coded parser skips nothing: when it returns,
    it has built one segment from each line. *)
Theorem malformed_lines (U : Unicode) :
  (forall split tc stem sups idx line,
     strip line = [] \/ (length (split_sep [9%Z] (strip line)) < 4)%nat ->
     Callhome.line_step (Gulf.process_line split tc) stem (sups, idx) line
     = Ok (sups, idx)
     /\ Callhome.line_step (Iraqi.process_line split tc) stem (sups, idx) line
        = Ok (sups, idx))
  /\ (forall tc stem sups idx line,
        strip line = [] \/ (length (Py.split (strip line)) < 4)%nat ->
        Callhome.line_step (Levant.process_line tc) stem (sups, idx) line
        = Ok (sups, idx))
  /\ (forall file sups,
        Qasr.read_text file = Ok sups ->
        Forall2 (fun line s => Qasr.read_line line = Ok s)
          (Qasr.readlines file) sups).
Proof.
  split; [|split].
  - intros split tc stem sups idx line H. split; apply skip_step.
    + exact (CallhomeFacts.process_line_skips _ _ split tc stem idx line H).
    + exact (CallhomeFacts.process_line_skips _ _ split tc stem idx line H).
  - intros tc stem sups idx line H. apply skip_step.
    exact (levant_line_skips tc stem idx line H).
  - exact read_text_spec.
Qed.

(** The guard of the tab-delimited loop lets a line with more than
    four fields through, and the unpacking of the fields raises. *)
Lemma five_fields_raise :
  @Gulf.process_line Basic.basic_unicode Callhome.devtest true
    (stem example_transcript) 0 five_fields = Raise ValueError.
Proof. vm_compute. reflexivity. Qed.

Lemma flat_file_example : Qasr.read_text flat_file = Ok [flat_segment].
Proof. vm_compute. reflexivity. Qed.

Lemma malformed_lines_witness :
  (Callhome.line_step
     (@Gulf.process_line Basic.basic_unicode Callhome.devtest true)
     (stem example_transcript) ([], 0) two_fields = Ok ([], 0)
   /\ Callhome.line_step
        (@Iraqi.process_line Basic.basic_unicode Callhome.devtest true)
        (stem example_transcript) ([], 0) two_fields = Ok ([], 0))
  /\ Callhome.line_step (@Levant.process_line Basic.basic_unicode true)
       (stem levant_transcript) ([], 0) two_fields = Ok ([], 0)
  /\ Forall2 (fun line s => Qasr.read_line line = Ok s)
       (Qasr.readlines flat_file) [flat_segment].
Proof.
  destruct (malformed_lines Basic.basic_unicode) as (T & W & F).
  split; [|split].
  - apply T. right. vm_compute. lia.
  - apply W. right. vm_compute. lia.
  - apply F. exact flat_file_example.
Defined.

(** ** Channels *)

Lemma callhome_channel recording_id_of cleaning split tc stem idx line s :
  Callhome.process_line recording_id_of cleaning split tc stem idx line
  = Ok (Some s) ->
  (split = Callhome.train1c -> channel s = 0)
  /\ (split <> Callhome.train1c ->
      exists spk c,
        nth_error (split_sep [9] (strip line)) 1 = Some spk
        /\ Callhome.speaker_tag spk = [c]
        /\ channel s = c - 65
        /\ (Callhome.speaker_tag spk = utf8 "A" -> channel s = 0)
        /\ (Callhome.speaker_tag spk = utf8 "B" -> channel s = 1)).
Proof.
  intro H.
  destruct (CallhomeFacts.process_line_emits _ _ _ _ _ _ _ _ H)
    as (time & spk & txt & bw & start & end_ & dend & dstart & fstart
        & ch & E1 & _ & _ & _ & _ & _ & Hc & _ & ->).
  cbn [channel Callhome.supervision]. unfold Callhome.channel_of in Hc.
  split.
  - intros ->. now injection Hc as <-.
  - intro Hs. exists spk.
    destruct split; try congruence;
      (apply bind_ok in Hc as [c [Hc Hv]]; unfold ord in Hc;
       destruct (Callhome.speaker_tag spk) as [|x [|y t]]; try discriminate;
       injection Hc as ->; injection Hv as <-; exists c; rewrite E1;
       (split; [reflexivity|]); (split; [reflexivity|]);
       (split; [reflexivity|]);
       split; intro E; injection E as ->; reflexivity).
Qed.

(** C6.  In the single-channel split [train1c] the channel of every
    segment is 0; in the two-channel splits the speaker tag is one
    character and the channel is its offset from [A], so that [A]
    gives channel 0 and [B] channel 1.  The Levantine recipe, which
    has no single-channel split, takes the offset on every line. *)
Theorem channel_assignment (U : Unicode) :
  (forall split tc stem idx line s,
     Gulf.process_line split tc stem idx line = Ok (Some s)
     \/ Iraqi.process_line split tc stem idx line = Ok (Some s) ->
     (split = Callhome.train1c -> channel s = 0)
     /\ (split <> Callhome.train1c ->
         exists spk c,
           nth_error (split_sep [9] (strip line)) 1 = Some spk
           /\ Callhome.speaker_tag spk = [c]
           /\ channel s = c - 65
           /\ (Callhome.speaker_tag spk = utf8 "A" -> channel s = 0)
           /\ (Callhome.speaker_tag spk = utf8 "B" -> channel s = 1)))
  /\ (forall tc stem idx line s,
        Levant.process_line tc stem idx line = Ok (Some s) ->
        exists spk c,
          nth_error (split_max 3 (strip line)) 2 = Some spk
          /\ Levant.speaker_tag spk = [c]
          /\ channel s = c - 65
          /\ (Levant.speaker_tag spk = utf8 "A" -> channel s = 0)
          /\ (Levant.speaker_tag spk = utf8 "B" -> channel s = 1)).
Proof.
  split.
  - intros split tc stem idx line s [H | H].
    + unfold Gulf.process_line in H. exact (callhome_channel _ _ _ _ _ _ _ _ H).
    + unfold Iraqi.process_line in H.
      exact (callhome_channel _ _ _ _ _ _ _ _ H).
  - intros tc stem idx line s H.
    destruct (levant_line_emits _ _ _ _ _ H)
      as (start & end_ & spk & txt & dend & dstart & fstart & c
          & E1 & _ & _ & _ & _ & _ & Et & ->).
    exists spk, c. rewrite E1. cbn [channel Callhome.supervision].
    split; [reflexivity|]. split; [exact Et|]. split; [reflexivity|].
    rewrite Et. split; intro E; injection E as ->; reflexivity.
Qed.

Lemma gulf_line_1c :
  @Gulf.process_line Basic.basic_unicode Callhome.train1c true
    (stem example_transcript) 0 example_line = Ok (Some gulf_segment_1c).
Proof. vm_compute. reflexivity. Qed.

Lemma channel_assignment_witness :
  channel gulf_segment_1c = 0
  /\ channel gulf_segment = 1
  /\ channel levant_segment = 0.
Proof.
  destruct (channel_assignment Basic.basic_unicode) as (G & V).
  split; [|split].
  - exact (proj1 (G Callhome.train1c true (stem example_transcript) 0
                    example_line gulf_segment_1c (or_introl gulf_line_1c))
             eq_refl).
  - destruct (G Callhome.devtest true (stem example_transcript) 0
                example_line gulf_segment (or_introl gulf_line_example))
      as [_ G2].
    destruct G2 as (spk & c & E1 & _ & _ & _ & B); [discriminate|].
    apply B. vm_compute in E1. injection E1 as <-. vm_compute. reflexivity.
  - destruct (V true (stem levant_transcript) 0 (content levant_transcript)
                levant_segment levant_line_example)
      as (spk & c & E1 & _ & _ & A & _).
    apply A. vm_compute in E1. injection E1 as <-. vm_compute. reflexivity.
Defined.

(** ** The Levantine split *)


(** ** Padding of the identifiers *)

(** C8, as stated, fails for the flat format: the identifier built
    from [short_flat_line] is [r_1_5_9]; its stamps are the one-digit
    fields of the line, and it has three digits in all. *)
Lemma flat_id_not_padded :
  exists s,
    Qasr.read_line short_flat_line = Ok s
    /\ id s = utf8 "r_1_5_9"
    /\ (length (filter is_ascii_digit (id s)) < 7)%nat.
Proof.
  destruct (Qasr.read_line short_flat_line) as [s|e] eqn:E;
    [|vm_compute in E; discriminate E].
  exists s. vm_compute in E. injection E as <-. cbn [id].
  split; [reflexivity|]. split; [reflexivity|]. vm_compute. lia.
Qed.

(** C8, amended.  The identifiers of the tab- and whitespace-delimited
    formats end in the counter of the transcript, padded with zeros to
    at least five digits; those of the structured format end in the
    two centisecond stamps, each filled with zeros to at least seven
    characters; those of the flat format end in the two stamp fields
    of the compound identifier as they are written. *)
Theorem id_sequence_component (U : Unicode) :
  (forall split tc stem idx line s,
     0 <= idx ->
     Gulf.process_line split tc stem idx line = Ok (Some s)
     \/ Iraqi.process_line split tc stem idx line = Ok (Some s)
     \/ Levant.process_line tc stem idx line = Ok (Some s) ->
     exists prefix,
       id s = prefix ++ utf8 "_" ++ rjust 5 48 (str_of_int idx)
       /\ (5 <= length (rjust 5 48 (str_of_int idx)))%nat
       /\ Forall (fun c => is_ascii_digit c = true)
            (rjust 5 48 (str_of_int idx)))
  /\ (forall mer_thresh segment s,
        Qasr.make_supervision mer_thresh segment = Ok (Some s) ->
        exists head spk s_cs e_cs,
          Qasr.centiseconds (Qasr.starttime segment) = Ok s_cs
          /\ Qasr.centiseconds (Qasr.endtime segment) = Ok e_cs
          /\ id s = head ++ utf8 "_" ++ str_of_int spk ++ utf8 "_"
                    ++ zfill 7 (str_of_int s_cs) ++ utf8 "_"
                    ++ zfill 7 (str_of_int e_cs)
          /\ (7 <= length (zfill 7 (str_of_int s_cs)))%nat
          /\ (7 <= length (zfill 7 (str_of_int e_cs)))%nat)
  /\ (forall line s,
        Qasr.read_line line = Ok s ->
        exists line1 rec_id spk_field time spk s_time1 e_time1,
          nth_error (Py.split (strip line)) 0 = Some line1
          /\ split_sep (utf8 "_") line1 = [rec_id; spk_field; time]
          /\ split_sep (utf8 ":") (replace (utf8 "seg-") (utf8 "") time)
             = [s_time1; e_time1]
          /\ id s = rec_id ++ utf8 "_" ++ str_of_int spk ++ utf8 "_"
                    ++ s_time1 ++ utf8 "_" ++ e_time1).
Proof.
  split; [|split].
  - intros split tc stem idx line s Hk H.
    assert (G : exists tag rid,
      id s = (rid ++ [95] ++ rjust 2 48 tag) ++ [95]
             ++ rjust 5 48 (str_of_int idx)).
    { destruct H as [H | [H | H]].
      - destruct (CallhomeFacts.process_line_id _ _ _ _ _ _ _ _ H)
          as [tag [E _]]. eauto.
      - destruct (CallhomeFacts.process_line_id _ _ _ _ _ _ _ _ H)
          as [tag [E _]]. eauto.
      - destruct (levant_line_id _ _ _ _ _ H) as [tag [E _]]. eauto. }
    destruct G as (tag & rid & E). eexists. split; [exact E|].
    split; [apply rjust_length | apply rjust_digits, Hk].
  - intros mer segment s H.
    destruct (make_supervision_id _ _ _ H)
      as (head & spk & s_cs & e_cs & E1 & E2 & E).
    exists head, spk, s_cs, e_cs.
    split; [exact E1|]. split; [exact E2|]. split; [exact E|].
    split; apply zfill_length.
  - intros line s H.
    destruct (read_line_ok _ _ H)
      as (a1 & r1 & f1 & t1 & g1 & k1 & x1 & y1 & i1 & j1 & u1 & v1 & A0 & A1
          & _ & _ & B1 & _ & _ & _ & _ & I1 & _).
    exists a1, r1, f1, t1, k1, x1, y1.
    split; [exact A0|]. split; [exact A1|]. split; [exact B1 | exact I1].
Qed.

Lemma xml_example_segment :
  @Qasr.make_supervision Basic.basic_unicode (Some 80) xml_example
  = Ok (Some xml_segment_example).
Proof. vm_compute. reflexivity. Qed.

Lemma id_sequence_component_witness :
  (exists prefix,
     id gulf_segment = prefix ++ utf8 "_" ++ rjust 5 48 (str_of_int 0)
     /\ (5 <= length (rjust 5 48 (str_of_int 0)))%nat
     /\ Forall (fun c => is_ascii_digit c = true) (rjust 5 48 (str_of_int 0)))
  /\ (exists head spk s_cs e_cs,
        Qasr.centiseconds (Qasr.starttime xml_example) = Ok s_cs
        /\ Qasr.centiseconds (Qasr.endtime xml_example) = Ok e_cs
        /\ id xml_segment_example
           = head ++ utf8 "_" ++ str_of_int spk ++ utf8 "_"
             ++ zfill 7 (str_of_int s_cs) ++ utf8 "_"
             ++ zfill 7 (str_of_int e_cs)
        /\ (7 <= length (zfill 7 (str_of_int s_cs)))%nat
        /\ (7 <= length (zfill 7 (str_of_int e_cs)))%nat)
  /\ (exists line1 rec_id spk_field time spk s_time1 e_time1,
        nth_error (Py.split (strip flat_line)) 0 = Some line1
        /\ split_sep (utf8 "_") line1 = [rec_id; spk_field; time]
        /\ split_sep (utf8 ":") (replace (utf8 "seg-") (utf8 "") time)
           = [s_time1; e_time1]
        /\ id flat_segment
           = rec_id ++ utf8 "_" ++ str_of_int spk ++ utf8 "_"
             ++ s_time1 ++ utf8 "_" ++ e_time1).
Proof.
  destruct (id_sequence_component Basic.basic_unicode) as (T & X & F).
  split; [|split].
  - exact (T Callhome.devtest true (stem example_transcript) 0 example_line
             gulf_segment (Z.le_refl 0) (or_introl gulf_line_example)).
  - exact (X (Some 80) xml_example xml_segment_example xml_example_segment).
  - exact (F flat_line flat_segment flat_example).
Defined.

(** ** The breakpoint of the Levantine split *)

(** C9 fails on the code: whatever it is given, [lev_split] first
    stops at the debugger prompt and computes nothing until a command
    arrives; the whole recipe does so as soon as the segments are
    built. *)
Theorem lev_split_suspends (U : Unicode) :
  (forall sups recs, exists k, Levant.lev_split sups recs = Breakpoint k)
  /\ (forall recs paths tc,
        (exists e, Levant.prepare_callhome_levant recs paths tc
                   = Done (Raise e))
        \/ (exists k, Levant.prepare_callhome_levant recs paths tc
                      = Breakpoint k)).
Proof.
  split.
  - intros sups recs. eexists. reflexivity.
  - intros recs paths tc. unfold Levant.prepare_callhome_levant.
    destruct (Levant.all_supervisions tc paths) as [sups|e].
    + right. eexists. reflexivity.
    + left. exists e. reflexivity.
Qed.

(** ** Speaker tags that are not one character *)




End Claims.

(** * Further properties of the recipes *)

Module Extras.
Import Py Re Num Lhotse Text Samples MoreSamples.
Import PyFacts NumFacts RunFacts TextFacts QasrTextFacts.
Import CallhomeFacts LevantFacts QasrFacts ShapeFacts ParseFacts FlatFacts.
Import LevantCall CallFacts WidthFacts.

(** ** The shape of a cleaned text *)

(** X1.  The text that [cleaning] returns in the Gulf, Iraqi and
    Levantine recipes is made of characters that the alphanumeric
    filter keeps (Arabic block, whitespace, decimal digits, [a-z]); it
    has no punctuation mark of the recipe's set, no diacritic, no
    whitespace other than single spaces between words, and none at
    either end. *)
Theorem cleaning_tidy (U : Unicode) (L : UnicodeLaws U) (s : str) :
  tidy (Gulf.cleaning s) /\ tidy (Iraqi.cleaning s)
  /\ tidy (Levant.cleaning s).
Proof.
  split; [|split]; apply cleaned_tidy.
  - rewrite Claims.gulf_cleaning_unfold.
    apply cleaning_cleaned, blank_space.
  - rewrite Claims.iraqi_cleaning_unfold.
    apply cleaning_cleaned, Claims.blank_empty.
  - rewrite Claims.levant_cleaning_unfold.
    apply cleaning_cleaned, blank_space.
Qed.

Lemma cleaning_tidy_witness :
  @tidy Basic.basic_unicode (@Gulf.cleaning Basic.basic_unicode raw_text)
  /\ @tidy Basic.basic_unicode (@Iraqi.cleaning Basic.basic_unicode raw_text)
  /\ @tidy Basic.basic_unicode
       (@Levant.cleaning Basic.basic_unicode raw_text).
Proof. exact (cleaning_tidy Basic.basic_unicode basic_laws raw_text). Defined.

(** X2.  The text that the QASR [cleaning] returns is its words joined
    by single spaces; every word has more than one character or is
    numeric; every character is one that the alphanumeric filter
    keeps, and none is a punctuation mark, a diacritic, an Eastern
    Arabic digit, the Arabic percent sign or the letter veh. *)
Theorem qasr_cleaning_tidy (U : Unicode) (L : UnicodeLaws U) (s : str) :
  qasr_tidy (Qasr.cleaning s).
Proof. apply qasr_cleaned_tidy, qasr_cleaning_cleaned. Qed.

Lemma qasr_cleaning_tidy_witness :
  @qasr_tidy Basic.basic_unicode (@Qasr.cleaning Basic.basic_unicode raw_text).
Proof. exact (qasr_cleaning_tidy Basic.basic_unicode basic_laws raw_text). Defined.

(** ** The punctuation loop *)

(** X3.  The loop of [remove_punctuations] runs over a set, whose
    order of iteration is not fixed.  The order does not matter: in
    whatever order, and however often, the punctuation marks are
    visited, the result is the same. *)
Theorem remove_punctuations_order (order : list Z) (t : str) :
  (forall c, In c order <-> In c all_punctuations) ->
  remove_punctuations_in (utf8 " ") order t = Gulf.remove_punctuations t
  /\ remove_punctuations_in (utf8 "") order t = Iraqi.remove_punctuations t
  /\ remove_punctuations_in (utf8 " ") order t = Levant.remove_punctuations t
  /\ remove_punctuations_in (utf8 " ") order t = Qasr.remove_punctuations t.
Proof.
  intro H.
  pose proof (remove_punctuations_any_order (utf8 " ") blank_space order t H)
    as G.
  split; [exact G|]. split; [|split; exact G].
  exact (remove_punctuations_any_order (utf8 "") Claims.blank_empty order t H).
Qed.

Lemma remove_punctuations_order_witness :
  remove_punctuations_in (utf8 " ") (rev all_punctuations) raw_text
  = Gulf.remove_punctuations raw_text
  /\ remove_punctuations_in (utf8 "") (rev all_punctuations) raw_text
     = Iraqi.remove_punctuations raw_text
  /\ remove_punctuations_in (utf8 " ") (rev all_punctuations) raw_text
     = Levant.remove_punctuations raw_text
  /\ remove_punctuations_in (utf8 " ") (rev all_punctuations) raw_text
     = Qasr.remove_punctuations raw_text.
Proof.
  apply (remove_punctuations_order (rev all_punctuations) raw_text).
  intro c. symmetry. apply in_rev.
Defined.

(** X4.  [remove_punctuations] acts on each character by itself.  With
    a space as replacement (Gulf, Levantine, QASR) every punctuation
    mark becomes a space and the text keeps its length; with the empty
    replacement (Iraqi) the punctuation marks are deleted, so that the
    words around them merge. *)
Theorem remove_punctuations_charwise (t : str) :
  Gulf.remove_punctuations t
  = map (fun c => if mem c all_punctuations then 32 else c) t
  /\ Levant.remove_punctuations t
     = map (fun c => if mem c all_punctuations then 32 else c) t
  /\ Qasr.remove_punctuations t
     = map (fun c => if mem c all_punctuations then 32 else c) t
  /\ length (Gulf.remove_punctuations t) = length t
  /\ Iraqi.remove_punctuations t
     = filter (fun c => negb (mem c all_punctuations)) t.
Proof.
  assert (G : Text.remove_punctuations (utf8 " ") t
              = map (fun c => if mem c all_punctuations then 32 else c) t).
  { rewrite (remove_punctuations_spec (utf8 " ") blank_space).
    induction t as [|c t IH]; [reflexivity|]. cbn [flat_map map].
    rewrite IH. destruct (mem c all_punctuations); reflexivity. }
  unfold Gulf.remove_punctuations, Levant.remove_punctuations,
    Qasr.remove_punctuations.
  split; [exact G|]. split; [exact G|]. split; [exact G|].
  split; [rewrite G; apply length_map|]. clear G.
  unfold Iraqi.remove_punctuations.
  rewrite (remove_punctuations_spec (utf8 "") Claims.blank_empty).
  induction t as [|c t IH]; [reflexivity|]. cbn [flat_map filter].
  rewrite IH. destruct (mem c all_punctuations); reflexivity.
Qed.

(** ** Words of one character *)

(** X5.  The words of the text that [remove_single_char_word] returns
    are the words of its argument that have more than one character or
    are numeric, in their order. *)
Theorem remove_single_char_word_words (U : Unicode) (t : str) :
  Py.split (Qasr.remove_single_char_word t)
  = filter (fun word => (1 <? length word)%nat || Qasr.str_isnumeric word)
      (Py.split t).
Proof.
  unfold Qasr.remove_single_char_word. cbv zeta.
  change (utf8 " ") with [32]. apply split_join.
  apply Forall_forall. intros w Hw. apply filter_In in Hw as [Hw _].
  pose proof (split_words_wordlike t [] (Forall_nil _)) as G.
  rewrite Forall_forall in G. exact (G w Hw).
Qed.

(** ** The second rule of [remove_extra_space] *)

(** X6.  Inside [cleaning] the second substitution of
    [remove_extra_space], which joins the two sides of a spaced full
    stop, never applies: no full stop reaches it.  In the QASR
    pipeline [remove_extra_space] changes nothing at all, since
    [remove_single_char_word] has already joined the words by single
    spaces. *)
Theorem remove_extra_space_unused (U : Unicode) (L : UnicodeLaws U) (s : str) :
  (let t := Gulf.remove_non_alphanumeric
              (Gulf.remove_punctuations
                 (Gulf.remove_diacritics (Gulf.remove_special_words s))) in
   Gulf.remove_extra_space t = sub_spaces false t)
  /\ (let t := Iraqi.remove_non_alphanumeric
                 (Iraqi.remove_punctuations
                    (Iraqi.remove_diacritics
                       (Iraqi.remove_special_words s))) in
      Iraqi.remove_extra_space t = sub_spaces false t)
  /\ (let t := Levant.remove_non_alphanumeric
                 (Levant.remove_punctuations
                    (Levant.remove_diacritics
                       (Levant.remove_special_words s))) in
      Levant.remove_extra_space t = sub_spaces false t)
  /\ (let t := Qasr.remove_single_char_word
                 (Qasr.remove_non_alphanumeric
                    (Qasr.remove_diacritics
                       (Qasr.east_to_west_num
                          (Qasr.remove_punctuations s)))) in
      Qasr.remove_extra_space t = t).
Proof.
  assert (G : forall t,
    remove_extra_space (remove_non_alphanumeric t)
    = sub_spaces false (remove_non_alphanumeric t)).
  { intro t. unfold remove_extra_space. cbv zeta.
    apply sub_space_dot_space_fix. intro Hin.
    apply sub_spaces_incl in Hin as [Hin | Hin]; [discriminate Hin|].
    unfold remove_non_alphanumeric, sub_class in Hin.
    apply filter_In in Hin as [_ Hk]. rewrite negb_involutive in Hk.
    unfold is_alphanumeric in Hk.
    rewrite (isdecimal_ascii 46) in Hk by lia. discriminate Hk. }
  split; [apply G|]. split; [apply G|]. split; [apply G|].
  cbv zeta. apply remove_extra_space_cleaned.
  exact (remove_single_char_word_cleaned _
    (remove_non_alphanumeric_qasr_good _
      (remove_diacritics_settled _
        (east_to_west_num_settled _ (remove_punctuations_clear s))))).
Qed.

Lemma remove_extra_space_unused_witness :
  let U := Basic.basic_unicode in
  let s := raw_text in
  (let t := Gulf.remove_non_alphanumeric
              (Gulf.remove_punctuations
                 (Gulf.remove_diacritics (Gulf.remove_special_words s))) in
   Gulf.remove_extra_space t = sub_spaces false t)
  /\ (let t := Iraqi.remove_non_alphanumeric
                 (Iraqi.remove_punctuations
                    (Iraqi.remove_diacritics
                       (Iraqi.remove_special_words s))) in
      Iraqi.remove_extra_space t = sub_spaces false t)
  /\ (let t := Levant.remove_non_alphanumeric
                 (Levant.remove_punctuations
                    (Levant.remove_diacritics
                       (Levant.remove_special_words s))) in
      Levant.remove_extra_space t = sub_spaces false t)
  /\ (let t := Qasr.remove_single_char_word
                 (Qasr.remove_non_alphanumeric
                    (Qasr.remove_diacritics
                       (Qasr.east_to_west_num
                          (Qasr.remove_punctuations s)))) in
      Qasr.remove_extra_space t = t).
Proof.
  exact (remove_extra_space_unused Basic.basic_unicode basic_laws raw_text).
Defined.

(** ** Order and numbering of the segments *)

Lemma collect_numbered process_line paths sups :
  Callhome.collect process_line paths = Ok sups ->
  exists parts,
    sups = concat parts
    /\ Forall2
         (fun p part => forall k s,
            nth_error part k = Some s ->
            exists line, In line (splitlines (content p))
              /\ process_line (stem p) (Z.of_nat k) line = Ok (Some s))
         paths parts.
Proof.
  unfold Callhome.collect. intro H.
  destruct (collect_spec _ _ _ _ H) as [parts [-> HP]].
  exists parts. split; [reflexivity|].
  eapply Forall2_impl; [|exact HP]. cbv beta. intros p part HF k s Hk.
  exact (proj2 (Forall2_indices _ part 0 HF k s Hk)).
Qed.

Lemma callhome_numbered recording_id_of cleaning split tc paths sups :
  Callhome.split_supervisions recording_id_of cleaning split tc paths
  = Ok sups ->
  exists parts,
    sups = concat parts
    /\ Forall2
         (fun p part => forall k s,
            nth_error part k = Some s ->
            recording_id s = recording_id_of (stem p)
            /\ exists tag,
                 id s = recording_id_of (stem p) ++ utf8 "_"
                        ++ rjust 2 48 tag ++ utf8 "_"
                        ++ rjust 5 48 (str_of_int (Z.of_nat k)))
         paths parts.
Proof.
  intro H. destruct (collect_numbered _ _ _ H) as [parts [-> HP]].
  exists parts. split; [reflexivity|].
  eapply Forall2_impl; [|exact HP]. cbv beta.
  intros p part G k s Hk. destruct (G k s Hk) as (line & _ & Hl).
  destruct (CallhomeFacts.process_line_emits _ _ _ _ _ _ _ _ Hl)
    as (time & spk & txt & bw & start & end_ & dend & dstart & fstart
        & channel & _ & _ & _ & _ & _ & _ & _ & _ & ->).
  split; [reflexivity|]. exists (Callhome.speaker_tag spk).
  cbn [id Callhome.supervision]. reflexivity.
Qed.

(** X7.  The segments of a run come grouped by transcript, in the
    order of the transcript paths.  Within a transcript the segment
    built in position [k], counted from 0, carries the counter [k] in
    its identifier: a line that is skipped uses up no number.  The
    recording identifier of a segment is the stem of its transcript,
    lower-cased in the Iraqi and Levantine recipes. *)
Theorem segments_numbered (U : Unicode) :
  (forall split tc paths sups,
     Gulf.split_supervisions split tc paths = Ok sups ->
     exists parts,
       sups = concat parts
       /\ Forall2
            (fun p part => forall k s,
               nth_error part k = Some s ->
               recording_id s = stem p
               /\ exists tag,
                    id s = stem p ++ utf8 "_" ++ rjust 2 48 tag ++ utf8 "_"
                           ++ rjust 5 48 (str_of_int (Z.of_nat k)))
            paths parts)
  /\ (forall split tc paths sups,
        Iraqi.split_supervisions split tc paths = Ok sups ->
        exists parts,
          sups = concat parts
          /\ Forall2
               (fun p part => forall k s,
                  nth_error part k = Some s ->
                  recording_id s = str_lower (stem p)
                  /\ exists tag,
                       id s = str_lower (stem p) ++ utf8 "_"
                              ++ rjust 2 48 tag ++ utf8 "_"
                              ++ rjust 5 48 (str_of_int (Z.of_nat k)))
               paths parts)
  /\ (forall tc paths sups,
        Levant.all_supervisions tc paths = Ok sups ->
        exists parts,
          sups = concat parts
          /\ Forall2
               (fun p part => forall k s,
                  nth_error part k = Some s ->
                  recording_id s = str_lower (stem p)
                  /\ exists tag,
                       id s = str_lower (stem p) ++ utf8 "_"
                              ++ rjust 2 48 tag ++ utf8 "_"
                              ++ rjust 5 48 (str_of_int (Z.of_nat k)))
               paths parts).
Proof.
  split; [|split].
  - intros split tc paths sups H. unfold Gulf.split_supervisions in H.
    exact (callhome_numbered _ _ _ _ _ _ H).
  - intros split tc paths sups H. unfold Iraqi.split_supervisions in H.
    exact (callhome_numbered _ _ _ _ _ _ H).
  - intros tc paths sups H. unfold Levant.all_supervisions in H.
    destruct (collect_numbered _ _ _ H) as [parts [-> HP]].
    exists parts. split; [reflexivity|].
    eapply Forall2_impl; [|exact HP]. cbv beta.
    intros p part G k s Hk. destruct (G k s Hk) as (line & _ & Hl).
    destruct (levant_line_emits _ _ _ _ _ Hl)
      as (start & end_ & spk & txt & dend & dstart & fstart & c
          & _ & _ & _ & _ & _ & _ & _ & ->).
    split; [reflexivity|]. exists [c].
    cbn [id Callhome.supervision]. reflexivity.
Qed.

Lemma gapped_example :
  @Gulf.split_supervisions Basic.basic_unicode Callhome.devtest true
    [gapped_transcript] = Ok gapped_segments.
Proof. vm_compute. reflexivity. Qed.

Lemma segments_numbered_witness :
  exists parts,
    gapped_segments = concat parts
    /\ Forall2
         (fun p part => forall k s,
            nth_error part k = Some s ->
            recording_id s = stem p
            /\ exists tag,
                 id s = stem p ++ utf8 "_" ++ rjust 2 48 tag ++ utf8 "_"
                        ++ rjust 5 48 (str_of_int (Z.of_nat k)))
         [gapped_transcript] parts.
Proof.
  exact (proj1 (segments_numbered Basic.basic_unicode) Callhome.devtest true
           [gapped_transcript] gapped_segments gapped_example).
Defined.

(** ** Lines that raise in the tab-delimited format *)

Lemma callhome_many_fields recording_id_of cleaning split tc stem idx line :
  (4 < length (split_sep [9%Z] (strip line)))%nat ->
  Callhome.process_line recording_id_of cleaning split tc stem idx line
  = Raise ValueError.
Proof.
  intro H. unfold Callhome.process_line. cbv zeta.
  destruct (strip line) as [|c l] eqn:El; [cbn in H; lia|].
  cbn [is_empty orb].
  destruct (Nat.ltb_spec (length (split_sep [9] (c :: l))) 4) as [G|_];
    [lia|].
  destruct (split_sep [9] (c :: l)) as [|x1 [|x2 [|x3 [|x4 [|x5 r]]]]];
    cbn in H; try lia. reflexivity.
Qed.

Lemma callhome_time_tokens recording_id_of cleaning split tc stem idx line
  (time spk text text_bw : str) :
  split_sep [9] (strip line) = [time; spk; text; text_bw] ->
  length (Py.split (sub_class Callhome.is_bracket time)) <> 2%nat ->
  Callhome.process_line recording_id_of cleaning split tc stem idx line
  = Raise ValueError.
Proof.
  intros E H. unfold Callhome.process_line. cbv zeta. rewrite E.
  destruct (strip line) as [|c l] eqn:El; [cbn in E; discriminate|].
  cbn [is_empty orb length Nat.ltb Nat.leb unpack4 bind].
  destruct (Py.split (sub_class Callhome.is_bracket time))
    as [|y1 [|y2 [|y3 r]]]; cbn in H; try reflexivity. congruence.
Qed.

(** X8.  The guard of the tab-delimited loop tests for fewer than four
    fields only.  A line with more than four tab-separated fields, and
    a four-field line whose time field does not hold exactly two
    stamps once the brackets are removed, make the loop body raise
    [ValueError]. *)
Theorem tab_line_value_errors (U : Unicode) :
  (forall split tc stem idx line,
     (4 < length (split_sep [9%Z] (strip line)))%nat ->
     Gulf.process_line split tc stem idx line = Raise ValueError
     /\ Iraqi.process_line split tc stem idx line = Raise ValueError)
  /\ (forall split tc stem idx line (time spk text text_bw : str),
        split_sep [9%Z] (strip line) = [time; spk; text; text_bw] ->
        length (Py.split (sub_class Callhome.is_bracket time)) <> 2%nat ->
        Gulf.process_line split tc stem idx line = Raise ValueError
        /\ Iraqi.process_line split tc stem idx line = Raise ValueError).
Proof.
  split.
  - intros split tc stem idx line H. split.
    + exact (callhome_many_fields _ _ split tc stem idx line H).
    + exact (callhome_many_fields _ _ split tc stem idx line H).
  - intros split tc stem idx line time spk text bw E H. split.
    + exact (callhome_time_tokens _ _ split tc stem idx line _ _ _ _ E H).
    + exact (callhome_time_tokens _ _ split tc stem idx line _ _ _ _ E H).
Qed.

Lemma tab_line_value_errors_witness :
  (@Gulf.process_line Basic.basic_unicode Callhome.devtest true
     (utf8 "AR_4001") 0 five_fields = Raise ValueError
   /\ @Iraqi.process_line Basic.basic_unicode Callhome.devtest true
        (utf8 "AR_4001") 0 five_fields = Raise ValueError)
  /\ (@Gulf.process_line Basic.basic_unicode Callhome.devtest true
        (utf8 "AR_4001") 0 one_stamp = Raise ValueError
      /\ @Iraqi.process_line Basic.basic_unicode Callhome.devtest true
           (utf8 "AR_4001") 0 one_stamp = Raise ValueError).
Proof.
  destruct (tab_line_value_errors Basic.basic_unicode) as (M & T).
  split.
  - apply M. vm_compute. lia.
  - apply (T Callhome.devtest true (utf8 "AR_4001") 0 one_stamp
             (utf8 "[1.0]") (utf8 "A:") (utf8 "ألو") (utf8 ">alw")).
    + vm_compute. reflexivity.
    + vm_compute. lia.
Defined.

(** ** The fields of the whitespace-delimited format *)

(** X9.  In the Levantine loop the guard and the unpacking agree: a
    trimmed line with at least four words splits, with [maxsplit=3],
    into exactly four fields.  The first three are its first three
    words; the fourth is the rest of the line, which begins with the
    fourth word and keeps its inner whitespace. *)
Theorem whitespace_fields_exact (line : str) :
  (4 <= length (Py.split (strip line)))%nat ->
  exists start end_ spk text,
    split_max 3 (strip line) = [start; end_; spk; text]
    /\ unpack4 (split_max 3 (strip line)) = Ok (start, end_, spk, text)
    /\ Py.split (strip line) = start :: end_ :: spk :: Py.split text
    /\ text <> [] /\ strip text = text.
Proof.
  intro H. destruct (split_max_four _ H) as (a & b & c & d & E & Es & Hd & Hl
                                             & l & El).
  exists a, b, c, d. rewrite E.
  split; [reflexivity|]. split; [reflexivity|]. split; [exact Es|].
  split; [exact Hd|]. apply strip_fix; [exact Hl|].
  apply (suffix_no_trail l d Hd). rewrite <- El.
  exact (proj2 (strip_no_lead line)).
Qed.

Lemma whitespace_fields_exact_witness :
  exists start end_ spk text,
    split_max 3 (strip levant_two_letter_line) = [start; end_; spk; text]
    /\ unpack4 (split_max 3 (strip levant_two_letter_line))
       = Ok (start, end_, spk, text)
    /\ Py.split (strip levant_two_letter_line)
       = start :: end_ :: spk :: Py.split text
    /\ text <> [] /\ strip text = text.
Proof.
  apply (whitespace_fields_exact levant_two_letter_line). vm_compute. lia.
Defined.

(** ** Lines that do not end after they start *)




(** ** Lines that raise in the flat format *)

Lemma strip_blank line :
  Forall (fun c => isspace c = true) line -> strip line = [].
Proof.
  intro H. unfold strip, lstrip.
  assert (E : dropwhile isspace line = []).
  { induction H as [|c l Hc _ IH]; [reflexivity|]. cbn [dropwhile].
    now rewrite Hc. }
  rewrite E. reflexivity.
Qed.

(** X11.  [read_text] has a line for every error: a line of
    whitespace only raises [IndexError], as no first word exists; a
    first word that the underscores do not cut into exactly three
    parts raises [ValueError]; a speaker part without a hyphen raises
    [IndexError]. *)
Theorem flat_line_errors :
  (forall line,
     Forall (fun c => isspace c = true) line ->
     Qasr.read_line line = Raise IndexError)
  /\ (forall line line1,
        nth_error (Py.split (strip line)) 0 = Some line1 ->
        length (split_sep (utf8 "_") line1) <> 3%nat ->
        Qasr.read_line line = Raise ValueError)
  /\ (forall line line1 (rec_id spk time : str),
        nth_error (Py.split (strip line)) 0 = Some line1 ->
        split_sep (utf8 "_") line1 = [rec_id; spk; time] ->
        ~ In 45 spk ->
        Qasr.read_line line = Raise IndexError).
Proof.
  split; [|split].
  - intros line H. unfold Qasr.read_line. rewrite (strip_blank line H).
    reflexivity.
  - intros line line1 E H. unfold Qasr.read_line, index. rewrite E.
    cbn [or_raise bind]. cbv zeta.
    destruct (split_sep (utf8 "_") line1) as [|a [|b [|c [|d r]]]];
      cbn in H; try reflexivity. congruence.
  - intros line line1 rec_id spk time E E1 H.
    unfold Qasr.read_line, index. rewrite E. cbn [or_raise bind]. cbv zeta.
    rewrite E1. cbn [unpack3 bind].
    change (utf8 "-") with [45]. rewrite (split_sep_free 45 spk H).
    reflexivity.
Qed.

Lemma flat_line_errors_witness :
  Qasr.read_line (utf8 "  ") = Raise IndexError
  /\ Qasr.read_line flat_two_parts = Raise ValueError
  /\ Qasr.read_line flat_no_hyphen = Raise IndexError.
Proof.
  destruct flat_line_errors as (B & P & H).
  split; [|split].
  - apply B. repeat constructor.
  - apply (P flat_two_parts (utf8 "rec01_seg-0000001:0000002")).
    + vm_compute. reflexivity.
    + vm_compute. lia.
  - apply (H flat_no_hyphen (utf8 "rec01_spk1_seg-0000001:0000002")
             (utf8 "rec01") (utf8 "spk1") (utf8 "seg-0000001:0000002")).
    + vm_compute. reflexivity.
    + vm_compute. reflexivity.
    + vm_compute. intros [G | [G | [G | [G | []]]]]; discriminate G.
Defined.

Lemma read_text_raise lines : forall acc line after e,
  Forall (fun l => exists s, Qasr.read_line l = Ok s) lines ->
  Qasr.read_line line = Raise e ->
  for_each (fun segments l =>
              let* s := Qasr.read_line l in Ok (segments ++ [s]))
    (lines ++ line :: after) acc = Raise e.
Proof.
  induction lines as [|l lines IH]; intros acc line after e H Hr.
  - cbn [app for_each]. rewrite Hr. reflexivity.
  - inversion H as [|? ? [s Hs] Hl]; subst. cbn [app for_each].
    rewrite Hs. cbn [bind]. exact (IH _ _ _ _ Hl Hr).
Qed.

(** X12.  The flat parser is all or nothing: the first line that
    raises ends [read_text] with that exception, whatever comes after
    it, and with it the preparation of the part and, when no part is
    skipped as already prepared, the whole call (the test part comes
    first); no segment of the lines before it is returned. *)
Theorem read_text_all_or_nothing (U : Unicode) :
  forall file before line after e,
    Qasr.readlines file = before ++ line :: after ->
    Forall (fun l => exists s, Qasr.read_line l = Ok s) before ->
    Qasr.read_line line = Raise e ->
    Qasr.read_text file = Raise e
    /\ (forall tc mer,
          Qasr.prepare_part (Qasr.test_part file) tc mer = Raise e
          /\ Qasr.prepare_part (Qasr.dev_part file) tc mer = Raise e)
    /\ (forall train_xml dev tc mer,
          Qasr.prepare_qasr file train_xml dev tc mer = Raise e).
Proof.
  intros file before line after e El Hb Hr.
  assert (R : Qasr.read_text file = Raise e).
  { unfold Qasr.read_text. rewrite El. exact (read_text_raise _ _ _ _ _ Hb Hr). }
  split; [exact R|]. split.
  - intros tc mer. unfold Qasr.prepare_part, Qasr.supervisions_list.
    rewrite R. split; reflexivity.
  - intros train_xml dev tc mer. unfold Qasr.prepare_qasr. cbn [for_each].
    unfold Qasr.prepare_part at 1. unfold Qasr.supervisions_list at 1.
    rewrite R. reflexivity.
Qed.

Lemma flat_blank_lines :
  Qasr.readlines flat_with_blank = [flat_file] ++ (utf8 "  " ++ [10]) :: [].
Proof. vm_compute. reflexivity. Qed.

Lemma read_text_all_or_nothing_witness :
  Qasr.read_text flat_with_blank = Raise IndexError
  /\ (forall tc mer,
        @Qasr.prepare_part Basic.basic_unicode (Qasr.test_part flat_with_blank)
          tc mer = Raise IndexError
        /\ @Qasr.prepare_part Basic.basic_unicode
             (Qasr.dev_part flat_with_blank) tc mer = Raise IndexError)
  /\ (forall train_xml dev tc mer,
        @Qasr.prepare_qasr Basic.basic_unicode flat_with_blank train_xml dev
          tc mer = Raise IndexError).
Proof.
  apply (read_text_all_or_nothing Basic.basic_unicode flat_with_blank
           [flat_file] (utf8 "  " ++ [10]) [] IndexError flat_blank_lines).
  - constructor; [|constructor]. exists flat_segment.
    vm_compute. reflexivity.
  - vm_compute. reflexivity.
Defined.

(** ** Decoding a line of the flat format *)

(** X13.  [read_text] decodes the lines it is written for.  A line
    [rec_label-n_seg-s:e text], where the recording name and the
    speaker label hold no whitespace and no underscore (the label no
    hyphen either) and [n], [s] and [e] are strings of digits, gives
    the segment with that recording, the speaker index [int(n)], the
    start [int(s)/100], the identifier [rec_n_s_e] with [n] in
    canonical notation, channel 0, language [ar], and the words of the
    text joined by single spaces. *)
Theorem flat_line_decodes
  (rec_id label spk_digits s_time1 e_time1 text : str)
  (spk s_int e_int : Z) (s_time e_time : float) :
  Forall (fun c => isspace c = false /\ c <> 95) rec_id ->
  Forall (fun c => isspace c = false /\ c <> 95 /\ c <> 45) label ->
  Forall (fun c => is_ascii_digit c = true) spk_digits ->
  Forall (fun c => is_ascii_digit c = true) s_time1 ->
  Forall (fun c => is_ascii_digit c = true) e_time1 ->
  int_of_str spk_digits = Some spk ->
  int_of_str s_time1 = Some s_int ->
  int_of_str e_time1 = Some e_int ->
  Qasr.hundredth s_int = Ok s_time ->
  Qasr.hundredth e_int = Ok e_time ->
  Qasr.read_line
    (rec_id ++ utf8 "_" ++ label ++ utf8 "-" ++ spk_digits ++ utf8 "_seg-"
     ++ s_time1 ++ utf8 ":" ++ e_time1 ++ utf8 " " ++ text)
  = Ok {| id := rec_id ++ utf8 "_" ++ str_of_int spk ++ utf8 "_" ++ s_time1
                ++ utf8 "_" ++ e_time1;
          recording_id := rec_id;
          start := s_time;
          duration := round (fsub e_time s_time) 10;
          channel := 0;
          text := join (utf8 " ") (Py.split text);
          language := Some (utf8 "ar");
          speaker := SpeakerIndex spk |}.
Proof.
  intros Hr Hl Hn Hs He En Es Ee Fs Fe.
  assert (D : forall c t, Forall (fun c => is_ascii_digit c = true) t ->
              In c t -> isspace c = false /\ c <> 95 /\ c <> 45 /\ c <> 58
                        /\ c <> 115 /\ c <> 43).
  { intros c t H Hin. rewrite Forall_forall in H. apply digit_chars, H, Hin. }
  set (time := [115; 101; 103; 45] ++ s_time1 ++ 58 :: e_time1).
  set (field := label ++ 45 :: spk_digits).
  set (line1 := rec_id ++ 95 :: field ++ 95 :: time).
  change (utf8 "_") with [95]. change (utf8 "-") with [45].
  change (utf8 ":") with [58]. change (utf8 " ") with [32].
  change (utf8 "_seg-") with (95 :: [115; 101; 103; 45]).
  assert (E : rec_id ++ [95] ++ label ++ [45] ++ spk_digits
                ++ (95 :: [115; 101; 103; 45]) ++ s_time1 ++ [58] ++ e_time1
                ++ [32] ++ text
              = line1 ++ 32 :: text).
  { unfold line1, field, time.
    repeat (progress (rewrite <- ?app_assoc; cbn [app])). reflexivity. }
  rewrite E. clear E.
  assert (Wt : forall c, In c time -> isspace c = false /\ c <> 95).
  { unfold time. intros c Hin. cbn [app] in Hin.
    destruct Hin as [<- | [<- | [<- | [<- | Hin]]]];
      try (split; [reflexivity | discriminate]).
    apply in_app_or in Hin as [Hin | [<- | Hin]].
    - destruct (D c _ Hs Hin) as (? & ? & _). now split.
    - split; [reflexivity | discriminate].
    - destruct (D c _ He Hin) as (? & ? & _). now split. }
  assert (Wf : forall c, In c field -> isspace c = false /\ c <> 95).
  { unfold field. intros c Hin.
    apply in_app_or in Hin as [Hin | [<- | Hin]].
    - rewrite Forall_forall in Hl. destruct (Hl c Hin) as (? & ? & _).
      now split.
    - split; [reflexivity | discriminate].
    - destruct (D c _ Hn Hin) as (? & ? & _). now split. }
  assert (W : wordlike line1).
  { split.
    - unfold line1. intro G. apply app_eq_nil in G as [_ G]. discriminate G.
    - apply Forall_forall. unfold line1. intros c Hin.
      apply in_app_or in Hin as [Hin | [<- | Hin]].
      + rewrite Forall_forall in Hr. exact (proj1 (Hr c Hin)).
      + reflexivity.
      + apply in_app_or in Hin as [Hin | [<- | Hin]].
        * exact (proj1 (Wf c Hin)).
        * reflexivity.
        * exact (proj1 (Wt c Hin)). }
  unfold Qasr.read_line. rewrite split_strip, (split_word_first line1 text W).
  cbn [index nth_error or_raise bind tl]. cbv zeta.
  change (utf8 "_") with [95]. change (utf8 "-") with [45].
  change (utf8 ":") with [58]. change (utf8 "seg-") with [115; 101; 103; 45].
  change (utf8 "") with (@nil Z).
  assert (E1 : split_sep [95] line1 = [rec_id; field; time]).
  { unfold line1. rewrite split_sep_first.
    2:{ intro G. rewrite Forall_forall in Hr. now destruct (Hr 95 G). }
    rewrite split_sep_first.
    2:{ intro G. now destruct (Wf 95 G). }
    rewrite split_sep_free; [reflexivity|].
    intro G. now destruct (Wt 95 G). }
  rewrite E1. cbn [unpack3 bind].
  assert (E2 : split_sep [45] field = [label; spk_digits]).
  { unfold field. rewrite split_sep_first.
    2:{ intro G. rewrite Forall_forall in Hl. destruct (Hl 45 G) as (_ & _ & ?).
        congruence. }
    rewrite split_sep_free; [reflexivity|].
    intro G. destruct (D 45 _ Hn G) as (_ & _ & ? & _). congruence. }
  rewrite E2. cbn [index nth_error or_raise bind]. rewrite En.
  cbn [or_raise bind].
  assert (E3 : replace [115; 101; 103; 45] [] time = s_time1 ++ 58 :: e_time1).
  { unfold time. apply replace_seg. intro G.
    apply in_app_or in G as [G | [G | G]].
    - destruct (D 115 _ Hs G) as (_ & _ & _ & _ & ? & _). congruence.
    - discriminate G.
    - destruct (D 115 _ He G) as (_ & _ & _ & _ & ? & _). congruence. }
  rewrite E3.
  assert (E4 : split_sep [58] (s_time1 ++ 58 :: e_time1) = [s_time1; e_time1]).
  { rewrite split_sep_first.
    2:{ intro G. destruct (D 58 _ Hs G) as (_ & _ & _ & ? & _). congruence. }
    rewrite split_sep_free; [reflexivity|].
    intro G. destruct (D 58 _ He G) as (_ & _ & _ & ? & _). congruence. }
  rewrite E4. cbn [unpack2 bind]. rewrite Es. cbn [or_raise bind].
  rewrite Fs. cbn [bind]. rewrite Ee. cbn [or_raise bind]. rewrite Fe.
  cbn [bind]. reflexivity.
Qed.

Lemma flat_line_decodes_witness :
  Qasr.read_line
    (utf8 "ABC123" ++ utf8 "_" ++ utf8 "spk" ++ utf8 "-" ++ utf8 "0001"
     ++ utf8 "_seg-" ++ utf8 "0000171" ++ utf8 ":" ++ utf8 "0000458"
     ++ utf8 " " ++ utf8 "hello   world")
  = Ok {| id := utf8 "ABC123" ++ utf8 "_" ++ str_of_int 1 ++ utf8 "_"
                ++ utf8 "0000171" ++ utf8 "_" ++ utf8 "0000458";
          recording_id := utf8 "ABC123";
          start := start flat_segment;
          duration := round (fsub (S754_finite false 5156621573339218 (-50))
                               (start flat_segment)) 10;
          channel := 0;
          text := join (utf8 " ") (Py.split (utf8 "hello   world"));
          language := Some (utf8 "ar");
          speaker := SpeakerIndex 1 |}.
Proof.
  apply (flat_line_decodes (utf8 "ABC123") (utf8 "spk") (utf8 "0001")
           (utf8 "0000171") (utf8 "0000458") (utf8 "hello   world")
           1 171 458).
  - vm_compute. repeat constructor; discriminate.
  - vm_compute. repeat constructor; discriminate.
  - vm_compute. repeat constructor.
  - vm_compute. repeat constructor.
  - vm_compute. repeat constructor.
  - vm_compute. reflexivity.
  - vm_compute. reflexivity.
  - vm_compute. reflexivity.
  - vm_compute. reflexivity.
  - vm_compute. reflexivity.
Defined.

(** ** The asserted counts of QASR *)



(** ** The threshold on the match error rate *)

Lemma make_supervision_kept (U : Unicode) mer segment s :
  Qasr.make_supervision mer segment = Ok (Some s) ->
  Qasr.make_supervision None segment = Ok (Some s).
Proof.
  unfold Qasr.make_supervision. intro H.
  apply bind_ok in H as [keep [_ H]]. cbn [bind negb].
  destruct (negb keep); [discriminate | exact H].
Qed.

Lemma make_supervision_mono (U : Unicode) t1 t2 segment s :
  t1 <= t2 ->
  Qasr.make_supervision (Some t1) segment = Ok (Some s) ->
  Qasr.make_supervision (Some t2) segment = Ok (Some s).
Proof.
  intros Hle H. pose proof (make_supervision_kept U _ _ _ H) as G.
  unfold Qasr.make_supervision in H |- *.
  destruct (float_of_str (Qasr.WMER segment)) as [w|]; [|discriminate H].
  cbn [or_raise bind] in H |- *.
  destruct (le_int w t1) eqn:E; cbn [negb] in H; [|discriminate H].
  rewrite (le_int_mono w t1 t2 E Hle). cbn [negb].
  unfold Qasr.make_supervision in G. cbn [bind negb] in G. exact G.
Qed.

Lemma make_supervisions_incl (U : Unicode) mer1 mer2 xml :
  (forall segment s,
     Qasr.make_supervision mer1 segment = Ok (Some s) ->
     Qasr.make_supervision mer2 segment = Ok (Some s)) ->
  forall acc1 acc2 l1 l2,
  incl acc1 acc2 ->
  for_each
    (fun segments segment =>
       let* r := Qasr.make_supervision mer1 segment in
       match r with
       | Some s => Ok (segments ++ [s])
       | None => Ok segments
       end) xml acc1 = Ok l1 ->
  for_each
    (fun segments segment =>
       let* r := Qasr.make_supervision mer2 segment in
       match r with
       | Some s => Ok (segments ++ [s])
       | None => Ok segments
       end) xml acc2 = Ok l2 ->
  incl l1 l2.
Proof.
  intro Hm. induction xml as [|seg xml IH]; intros acc1 acc2 l1 l2 Hi H1 H2.
  - injection H1 as <-. injection H2 as <-. exact Hi.
  - cbn [for_each] in H1, H2.
    destruct (Qasr.make_supervision mer1 seg) as [[s1|]|e1] eqn:E1;
      cbn [bind] in H1; [| |discriminate H1].
    + rewrite (Hm _ _ E1) in H2. cbn [bind] in H2.
      apply (IH _ _ _ _ (incl_app_app Hi (incl_refl [s1])) H1 H2).
    + destruct (Qasr.make_supervision mer2 seg) as [[s2|]|e2];
        cbn [bind] in H2; [| |discriminate H2].
      * apply (IH _ _ _ _ (incl_appl [s2] Hi) H1 H2).
      * apply (IH _ _ _ _ Hi H1 H2).
Qed.

(** X15.  The threshold on the match error rate only ever removes
    segments.  A segment that is kept under a threshold is kept,
    unchanged, under every higher threshold and without threshold;
    over a whole document, whatever a run with the lower threshold
    returns is among what a run with the higher threshold, or without
    threshold, returns.  Without threshold the [WMER] attribute is not
    read. *)
Theorem mer_threshold_monotone (U : Unicode) :
  (forall t1 t2 segment s,
     t1 <= t2 ->
     Qasr.make_supervision (Some t1) segment = Ok (Some s) ->
     Qasr.make_supervision (Some t2) segment = Ok (Some s)
     /\ Qasr.make_supervision None segment = Ok (Some s))
  /\ (forall t1 t2 xml l1 l2,
        t1 <= t2 ->
        Qasr.make_supervisions xml (Some t1) = Ok l1 ->
        Qasr.make_supervisions xml (Some t2) = Ok l2 ->
        incl l1 l2)
  /\ (forall t xml l1 l2,
        Qasr.make_supervisions xml (Some t) = Ok l1 ->
        Qasr.make_supervisions xml None = Ok l2 ->
        incl l1 l2)
  /\ (forall segment wmer,
        Qasr.make_supervision None segment
        = Qasr.make_supervision None
            {| Qasr.seg_id := Qasr.seg_id segment;
               Qasr.who := Qasr.who segment;
               Qasr.starttime := Qasr.starttime segment;
               Qasr.endtime := Qasr.endtime segment;
               Qasr.WMER := wmer;
               Qasr.elements := Qasr.elements segment |}).
Proof.
  split; [|split; [|split]].
  - intros t1 t2 segment s Hle H.
    split; [exact (make_supervision_mono U t1 t2 segment s Hle H)|].
    exact (make_supervision_kept U _ _ _ H).
  - intros t1 t2 xml l1 l2 Hle H1 H2. unfold Qasr.make_supervisions in H1, H2.
    refine (make_supervisions_incl U (Some t1) (Some t2) xml _ [] [] l1 l2
              (incl_refl []) H1 H2).
    intros segment s. exact (make_supervision_mono U t1 t2 segment s Hle).
  - intros t xml l1 l2 H1 H2. unfold Qasr.make_supervisions in H1, H2.
    refine (make_supervisions_incl U (Some t) None xml _ [] [] l1 l2
              (incl_refl []) H1 H2).
    intros segment s. exact (make_supervision_kept U _ _ _).
  - intros segment wmer. reflexivity.
Qed.

Lemma xml_noisy_example :
  @Qasr.make_supervisions Basic.basic_unicode [xml_example; xml_noisy]
    (Some 90) = Ok [xml_segment_example; xml_noisy_segment].
Proof. vm_compute. reflexivity. Qed.

Lemma xml_quiet_example :
  @Qasr.make_supervisions Basic.basic_unicode [xml_example; xml_noisy]
    (Some 80) = Ok [xml_segment_example].
Proof. vm_compute. reflexivity. Qed.

Lemma mer_threshold_monotone_witness :
  (@Qasr.make_supervision Basic.basic_unicode (Some 90) xml_example
   = Ok (Some xml_segment_example)
   /\ @Qasr.make_supervision Basic.basic_unicode None xml_example
      = Ok (Some xml_segment_example))
  /\ incl [xml_segment_example] [xml_segment_example; xml_noisy_segment].
Proof.
  destruct (mer_threshold_monotone Basic.basic_unicode) as (S & M & _).
  split.
  - apply (S 80 90 xml_example xml_segment_example); [lia|].
    exact Claims.xml_example_segment.
  - apply (M 80 90 [xml_example; xml_noisy]); [lia | |].
    + exact xml_quiet_example.
    + exact xml_noisy_example.
Defined.

(** ** The sizes that the Levantine split asserts *)

(** X16.  Resumed with [continue], [lev_split] returns the subsets
    only if the recordings fall into exactly 79 for dev, 80 for test
    and 1499 for train, hence only on a set of 1658 recordings; on
    any other set it raises [AssertionError].  The number of
    supervisions is not tested.  Resumed with [quit] it raises
    [BdbQuit]. *)
Theorem lev_split_sizes :
  forall sups recs,
  exists k,
    Levant.lev_split sups recs = Breakpoint k
    /\ k pdb_quit = Done (Raise BdbQuit)
    /\ (k pdb_continue = Done (Ok (Levant.lev_filters sups recs))
        \/ k pdb_continue = Done (Raise AssertionError))
    /\ (k pdb_continue = Done (Ok (Levant.lev_filters sups recs))
        <-> length (Levant.rec_lev_dev (Levant.lev_filters sups recs)) = 79%nat
            /\ length (Levant.rec_lev_test (Levant.lev_filters sups recs))
               = 80%nat
            /\ length (Levant.rec_lev_train (Levant.lev_filters sups recs))
               = 1499%nat)
    /\ (k pdb_continue = Done (Ok (Levant.lev_filters sups recs)) ->
        length recs = 1658%nat).
Proof.
  intros sups recs. eexists. split; [reflexivity|]. cbv beta iota.
  split; [reflexivity|].
  set (S := Levant.lev_filters sups recs).
  split.
  { destruct (check_sizes_cases S) as [-> | ->]; [now left | now right]. }
  split.
  - split.
    + intro H. apply check_sizes_ok. congruence.
    + intro H. apply check_sizes_ok in H. now rewrite H.
  - intro H. apply (accepted_total sups recs). fold S. congruence.
Qed.

Lemma lev_split_sizes_witness :
  (exists k,
     Levant.lev_split [levant_segment] levant_recordings = Breakpoint k
     /\ k pdb_continue
        = Done (Ok (Levant.lev_filters [levant_segment] levant_recordings)))
  /\ (exists k,
        Levant.lev_split [levant_segment] [] = Breakpoint k
        /\ k pdb_continue = Done (Raise AssertionError)).
Proof.
  split.
  - destruct (lev_split_sizes [levant_segment] levant_recordings)
      as (k & E & _ & _ & I & _).
    exists k. split; [exact E|]. apply I. vm_compute. repeat split.
  - destruct (lev_split_sizes [levant_segment] [])
      as (k & E & _ & [C | C] & _ & T).
    + specialize (T C). discriminate T.
    + exists k. split; [exact E | exact C].
Defined.

(** ** The whole call of the Levantine recipe *)

(** X17.  [output_dir] may not be omitted: with [output_dir=None] the
    call never returns a value.  The statement
    [output_dir = Path(output_dir)] after the preparation raises
    [TypeError], at once with [skip_prep=True] and, with
    [skip_prep=False], after the recordings are read, the transcripts
    parsed and the manifests validated. *)
Theorem levant_output_dir_required (U : Unicode)
  from_recordings transcript_paths fix_and_validate write_all load_all
  write_subsets (text_cleaning : bool) :
  (forall skip_prep o,
     ends_with
       (prepare_callhome_levant from_recordings transcript_paths
          fix_and_validate write_all load_all write_subsets None
          text_cleaning skip_prep) o ->
     exists f, o = Fails f)
  /\ prepare_callhome_levant from_recordings transcript_paths
       fix_and_validate write_all load_all write_subsets None text_cleaning
       true
     = Ends (Fails (Raised TypeError))
  /\ (forall recordings supervisions fixed,
        from_recordings = Returns recordings ->
        Levant.all_supervisions text_cleaning transcript_paths
        = Ok supervisions ->
        fix_and_validate recordings supervisions = Returns fixed ->
        prepare_callhome_levant from_recordings transcript_paths
          fix_and_validate write_all load_all write_subsets None
          text_cleaning false
        = Ends (Fails (Raised TypeError))).
Proof.
  split; [|split].
  - intros skip_prep o H. unfold prepare_callhome_levant in H. cbv zeta in H.
    destruct skip_prep.
    + apply ends_with_ends in H. eauto.
    + destruct (prepare_manifests _ _ _ _ _ _) as [rs|f];
        apply ends_with_ends in H; eauto.
  - reflexivity.
  - intros recordings supervisions [r s] E1 E2 E3.
    unfold prepare_callhome_levant, prepare_manifests.
    rewrite E1, E2, E3. reflexivity.
Qed.

Lemma levant_output_dir_required_witness :
  @prepare_callhome_levant Basic.basic_unicode (Returns levant_recordings)
    [levant_transcript] unchanged always_written read_back always_written
    None true false
  = Ends (Fails (Raised TypeError)).
Proof.
  refine (proj2 (proj2 (levant_output_dir_required Basic.basic_unicode
                          (Returns levant_recordings) [levant_transcript]
                          unchanged always_written read_back always_written
                          true))
            levant_recordings [levant_segment]
            (levant_recordings, [levant_segment]) _ _ _).
  - reflexivity.
  - vm_compute. reflexivity.
  - reflexivity.
Defined.

(** X18.  With [skip_prep=True] the call never returns a value either:
    [manifests] is assigned under [if not skip_prep] only.  When the
    manifest of all recordings is not in the output directory the call
    raises [UnboundLocalError] before [lev_split] is entered; when it
    is, the split runs and writes its six files, and the assignment to
    [manifests] after it raises [UnboundLocalError]. *)
Theorem levant_skip_prep_fails (U : Unicode)
  from_recordings transcript_paths fix_and_validate write_all load_all
  write_subsets (text_cleaning : bool) :
  (forall output_dir o,
     ends_with
       (prepare_callhome_levant from_recordings transcript_paths
          fix_and_validate write_all load_all write_subsets output_dir
          text_cleaning true) o ->
     exists f, o = Fails f)
  /\ (forall dir,
        load_all None = None ->
        prepare_callhome_levant from_recordings transcript_paths
          fix_and_validate write_all load_all write_subsets (Some dir)
          text_cleaning true
        = Ends (Fails UnboundLocalError))
  /\ (forall dir recordings supervisions done,
        load_all None = Some (Returns (recordings, supervisions)) ->
        Levant.check_sizes (Levant.lev_filters supervisions recordings)
        = Ok (Levant.lev_filters supervisions recordings) ->
        write_subsets (Levant.lev_filters supervisions recordings)
        = Returns done ->
        ends_with
          (prepare_callhome_levant from_recordings transcript_paths
             fix_and_validate write_all load_all write_subsets (Some dir)
             text_cleaning true)
          (Fails UnboundLocalError)).
Proof.
  split; [|split].
  - intros output_dir o H. exact (skip_prep_ends _ _ _ _ _ _ _ _ _ H).
  - intros dir E. unfold prepare_callhome_levant. cbv zeta. cbv iota.
    rewrite E. reflexivity.
  - intros dir recordings supervisions done E Hc Hw.
    unfold prepare_callhome_levant. cbv zeta. cbv iota. rewrite E.
    unfold Levant.lev_split. cbn [after_run].
    apply (ends_later _ pdb_continue). rewrite Hc. cbn [after_run].
    rewrite Hw. apply ends_now.
Qed.

Lemma levant_skip_prep_fails_witness :
  ends_with
    (@prepare_callhome_levant Basic.basic_unicode (Returns levant_recordings)
       [levant_transcript] unchanged always_written
       (fun _ => Some (Returns (levant_recordings, [levant_segment])))
       always_written (Some (utf8 "out")) true true)
    (Fails UnboundLocalError).
Proof.
  refine (proj2 (proj2 (levant_skip_prep_fails Basic.basic_unicode
                          (Returns levant_recordings) [levant_transcript]
                          unchanged always_written
                          (fun _ => Some (Returns (levant_recordings,
                                                   [levant_segment])))
                          always_written true))
            (utf8 "out") levant_recordings [levant_segment] tt _ _ _).
  - reflexivity.
  - vm_compute. reflexivity.
  - reflexivity.
Defined.

(** X19.  The call returns a value in one case only: [skip_prep] is
    false, an output directory is given, nothing fails, the debugger
    is told to continue, and the recordings, as they are written and
    read back, are 1658 with 79 for dev, 80 for test and 1499 for
    train.  The value has the one key [train], and under it all
    recordings and supervisions, not the train subset. *)
Theorem levant_call_returns (U : Unicode)
  from_recordings transcript_paths fix_and_validate write_all load_all
  write_subsets output_dir (text_cleaning skip_prep : bool) m :
  ends_with
    (prepare_callhome_levant from_recordings transcript_paths
       fix_and_validate write_all load_all write_subsets output_dir
       text_cleaning skip_prep) (Returns m) ->
  skip_prep = false
  /\ exists dir written recordings supervisions,
       output_dir = Some dir
       /\ prepare_manifests from_recordings transcript_paths
            fix_and_validate write_all output_dir text_cleaning
          = Returns written
       /\ (load_all (Some written) = Some (Returns (recordings, supervisions))
           \/ (load_all (Some written) = None
               /\ written = (recordings, supervisions)))
       /\ Levant.check_sizes (Levant.lev_filters supervisions recordings)
          = Ok (Levant.lev_filters supervisions recordings)
       /\ length recordings = 1658%nat
       /\ m = [(utf8 "train", (recordings, supervisions))].
Proof.
  intro H.
  destruct skip_prep.
  { destruct (skip_prep_ends _ _ _ _ _ _ _ _ _ H) as [f E]. discriminate E. }
  split; [reflexivity|].
  unfold prepare_callhome_levant in H. cbv zeta in H. cbv iota in H.
  destruct (prepare_manifests _ _ _ _ output_dir text_cleaning)
    as [written|f] eqn:Ep; [|apply ends_with_ends in H; discriminate H].
  destruct output_dir as [dir|]; [|apply ends_with_ends in H; discriminate H].
  assert (G : forall recordings supervisions,
    ends_with
      (after_run (Levant.lev_split supervisions recordings)
         (fun subsets =>
            match write_subsets subsets with
            | Fails f => Ends (Fails f)
            | Returns _ =>
              Ends (Returns ([] ++ [(utf8 "train",
                                     (recordings, supervisions))]))
            end)) (Returns m) ->
    Levant.check_sizes (Levant.lev_filters supervisions recordings)
    = Ok (Levant.lev_filters supervisions recordings)
    /\ length recordings = 1658%nat
    /\ m = [(utf8 "train", (recordings, supervisions))]).
  { intros recordings supervisions G.
    apply after_lev_split in G as [G | [G | [Hc G]]]; try discriminate G.
    split; [exact Hc|]. split.
    - exact (accepted_total supervisions recordings Hc).
    - destruct (write_subsets _); apply ends_with_ends in G;
        [|discriminate G]. now injection G as ->. }
  exists dir, written.
  destruct (load_all (Some written)) as [[[r s]|f]|] eqn:El.
  - exists r, s. split; [reflexivity|]. split; [reflexivity|].
    split; [now left|]. exact (G r s H).
  - apply ends_with_ends in H. discriminate H.
  - destruct written as [r s]. exists r, s.
    split; [reflexivity|]. split; [reflexivity|].
    split; [right; now split|]. exact (G r s H).
Qed.

Lemma levant_call_example :
  ends_with
    (@prepare_callhome_levant Basic.basic_unicode (Returns levant_recordings)
       [levant_transcript] unchanged always_written read_back always_written
       (Some (utf8 "out")) true false)
    (Returns [(utf8 "train", (levant_recordings, [levant_segment]))]).
Proof.
  vm_compute. apply (ends_later _ pdb_continue). vm_compute. apply ends_now.
Qed.

Lemma levant_call_returns_witness :
  false = false
  /\ exists dir written recordings supervisions,
       Some (utf8 "out") = Some dir
       /\ @prepare_manifests Basic.basic_unicode (Returns levant_recordings)
            [levant_transcript] unchanged always_written
            (Some (utf8 "out")) true
          = Returns written
       /\ (read_back (Some written) = Some (Returns (recordings, supervisions))
           \/ (read_back (Some written) = None
               /\ written = (recordings, supervisions)))
       /\ Levant.check_sizes (Levant.lev_filters supervisions recordings)
          = Ok (Levant.lev_filters supervisions recordings)
       /\ length recordings = 1658%nat
       /\ [(utf8 "train", (levant_recordings, [levant_segment]))]
          = [(utf8 "train", (recordings, supervisions))].
Proof.
  exact (levant_call_returns Basic.basic_unicode (Returns levant_recordings)
           [levant_transcript] unchanged always_written read_back
           always_written (Some (utf8 "out")) true false _
           levant_call_example).
Defined.

(** ** Exceptions in the loops of the CALLHOME recipes *)




(** ** The length of the identifiers *)

Lemma callhome_id_length recording_id_of cleaning split tc stem idx line s :
  Callhome.process_line recording_id_of cleaning split tc stem idx line
  = Ok (Some s) ->
  exists tag,
    length (id s)
    = (length (recording_id s) + length (rjust 2 48 tag)
       + length (rjust 5 48 (str_of_int idx)) + 2)%nat
    /\ (split <> Callhome.train1c -> length tag = 1%nat).
Proof.
  intro H.
  destruct (process_line_emits _ _ _ _ _ _ _ _ H)
    as (time & spk & text & bw & start & end_ & dend & dstart & fstart
        & channel & _ & _ & _ & _ & _ & _ & Hc & _ & ->).
  exists (Callhome.speaker_tag spk). split.
  - rewrite supervision_id. cbn [recording_id Callhome.supervision].
    rewrite !length_app. cbn [length]. lia.
  - intro Hs. unfold Callhome.channel_of in Hc.
    destruct split; try congruence;
      (apply bind_ok in Hc as [c [Hc _]]; unfold ord in Hc;
       destruct (Callhome.speaker_tag spk) as [|x [|y t]];
       try discriminate; reflexivity).
Qed.

Lemma levant_id_length (U : Unicode) tc stem idx line s :
  Levant.process_line tc stem idx line = Ok (Some s) ->
  length (id s)
  = (length (recording_id s) + length (rjust 5 48 (str_of_int idx)) + 4)%nat.
Proof.
  intro H.
  destruct (levant_line_emits _ _ _ _ _ H)
    as (start & end_ & spk & text & dend & dstart & fstart & c
        & _ & _ & _ & _ & _ & _ & _ & ->).
  rewrite supervision_id. cbn [recording_id Callhome.supervision].
  rewrite !length_app. cbn [length rjust repeat Nat.sub app]. lia.
Qed.

(** X21.  The identifiers of a transcript have one length as long as
    the transcript yields at most 100000 segments.  On a two-channel
    split of the Gulf and Iraqi recipes and in the Levantine recipe an
    identifier is nine characters longer than the recording
    identifier: an underscore, the speaker letter after a zero, an
    underscore and five digits.  From the counter 100000 on the
    identifier is longer.  In the structured format of QASR each stamp
    field has exactly seven characters when the stamp is not negative
    and below ten million centiseconds, and more from ten million
    on. *)
Theorem id_fixed_width (U : Unicode) :
  (forall split tc stem idx line s,
     split <> Callhome.train1c -> 0 <= idx < 100000 ->
     Gulf.process_line split tc stem idx line = Ok (Some s)
     \/ Iraqi.process_line split tc stem idx line = Ok (Some s) ->
     length (id s) = (length (recording_id s) + 9)%nat)
  /\ (forall tc stem idx line s,
        0 <= idx < 100000 ->
        Levant.process_line tc stem idx line = Ok (Some s) ->
        length (id s) = (length (recording_id s) + 9)%nat)
  /\ (forall split tc stem idx line s,
        100000 <= idx ->
        Gulf.process_line split tc stem idx line = Ok (Some s)
        \/ Iraqi.process_line split tc stem idx line = Ok (Some s)
        \/ Levant.process_line tc stem idx line = Ok (Some s) ->
        (length (recording_id s) + 9 < length (id s))%nat)
  /\ (forall mer_thresh segment s,
        Qasr.make_supervision mer_thresh segment = Ok (Some s) ->
        exists head spk s_cs e_cs,
          Qasr.centiseconds (Qasr.starttime segment) = Ok s_cs
          /\ Qasr.centiseconds (Qasr.endtime segment) = Ok e_cs
          /\ id s = head ++ utf8 "_" ++ str_of_int spk ++ utf8 "_"
                    ++ zfill 7 (str_of_int s_cs) ++ utf8 "_"
                    ++ zfill 7 (str_of_int e_cs)
          /\ (0 <= s_cs < 10000000 ->
              length (zfill 7 (str_of_int s_cs)) = 7%nat)
          /\ (0 <= e_cs < 10000000 ->
              length (zfill 7 (str_of_int e_cs)) = 7%nat)
          /\ (10000000 <= s_cs ->
              (7 < length (zfill 7 (str_of_int s_cs)))%nat)
          /\ (10000000 <= e_cs ->
              (7 < length (zfill 7 (str_of_int e_cs)))%nat)).
Proof.
  assert (W5 : forall idx, 0 <= idx < 100000 ->
                 length (rjust 5 48 (str_of_int idx)) = 5%nat).
  { intros idx Hi. apply rjust_exact.
    apply str_of_int_length_le; [lia|]. change (10 ^ Z.of_nat 5) with 100000.
    exact Hi. }
  assert (L5 : forall idx, 100000 <= idx ->
                 (5 < length (rjust 5 48 (str_of_int idx)))%nat).
  { intros idx Hi.
    assert (G : (5 < length (str_of_int idx))%nat)
      by (apply str_of_int_length_gt; exact Hi).
    rewrite rjust_long by lia. exact G. }
  assert (W7 : forall n, 0 <= n < 10000000 ->
                 length (zfill 7 (str_of_int n)) = 7%nat).
  { intros n Hi. apply zfill_exact. apply str_of_int_length_le; [lia|].
    change (10 ^ Z.of_nat 7) with 10000000. exact Hi. }
  assert (L7 : forall n, 10000000 <= n ->
                 (7 < length (zfill 7 (str_of_int n)))%nat).
  { intros n Hi.
    assert (G : (7 < length (str_of_int n))%nat)
      by (apply str_of_int_length_gt; exact Hi).
    unfold zfill. destruct (str_of_int n) as [|c r]; [cbn in G; lia|].
    destruct ((c =? 43) || (c =? 45));
      cbn [length] in *; rewrite length_app, repeat_length;
      cbn [length]; lia. }
  assert (C : forall recording_id_of cleaning split tc stem idx line s,
    split <> Callhome.train1c -> 0 <= idx < 100000 ->
    Callhome.process_line recording_id_of cleaning split tc stem idx line
    = Ok (Some s) ->
    length (id s) = (length (recording_id s) + 9)%nat).
  { intros rid cl split tc stem idx line s Hs Hi H.
    destruct (callhome_id_length _ _ _ _ _ _ _ _ H) as (tag & E & T).
    rewrite E, (W5 idx Hi). specialize (T Hs).
    destruct tag as [|c [|d r]]; try discriminate T.
    cbn [rjust length Nat.sub repeat app]. lia. }
  assert (D : forall recording_id_of cleaning split tc stem idx line s,
    100000 <= idx ->
    Callhome.process_line recording_id_of cleaning split tc stem idx line
    = Ok (Some s) ->
    (length (recording_id s) + 9 < length (id s))%nat).
  { intros rid cl split tc stem idx line s Hi H.
    destruct (callhome_id_length _ _ _ _ _ _ _ _ H) as (tag & E & _).
    rewrite E. pose proof (L5 idx Hi). pose proof (rjust_length 2 48 tag).
    lia. }
  split; [|split; [|split]].
  - intros split tc stem idx line s Hs Hi [H | H].
    + exact (C _ _ split tc stem idx line s Hs Hi H).
    + exact (C _ _ split tc stem idx line s Hs Hi H).
  - intros tc stem idx line s Hi H.
    rewrite (levant_id_length U _ _ _ _ _ H), (W5 idx Hi). lia.
  - intros split tc stem idx line s Hi [H | [H | H]].
    + exact (D _ _ split tc stem idx line s Hi H).
    + exact (D _ _ split tc stem idx line s Hi H).
    + rewrite (levant_id_length U _ _ _ _ _ H). pose proof (L5 idx Hi). lia.
  - intros mer segment s H.
    destruct (make_supervision_id _ _ _ H)
      as (head & spk & s_cs & e_cs & E1 & E2 & E).
    exists head, spk, s_cs, e_cs.
    split; [exact E1|]. split; [exact E2|]. split; [exact E|].
    split; [exact (W7 s_cs)|]. split; [exact (W7 e_cs)|].
    split; [exact (L7 s_cs) | exact (L7 e_cs)].
Qed.

Lemma id_fixed_width_witness :
  length (id gulf_segment) = (length (recording_id gulf_segment) + 9)%nat
  /\ length (id levant_segment)
     = (length (recording_id levant_segment) + 9)%nat
  /\ exists head spk s_cs e_cs,
       Qasr.centiseconds (Qasr.starttime xml_example) = Ok s_cs
       /\ Qasr.centiseconds (Qasr.endtime xml_example) = Ok e_cs
       /\ id xml_segment_example
          = head ++ utf8 "_" ++ str_of_int spk ++ utf8 "_"
            ++ zfill 7 (str_of_int s_cs) ++ utf8 "_"
            ++ zfill 7 (str_of_int e_cs)
       /\ (0 <= s_cs < 10000000 ->
           length (zfill 7 (str_of_int s_cs)) = 7%nat)
       /\ (0 <= e_cs < 10000000 ->
           length (zfill 7 (str_of_int e_cs)) = 7%nat)
       /\ (10000000 <= s_cs ->
           (7 < length (zfill 7 (str_of_int s_cs)))%nat)
       /\ (10000000 <= e_cs ->
           (7 < length (zfill 7 (str_of_int e_cs)))%nat).
Proof.
  destruct (id_fixed_width Basic.basic_unicode) as (G & V & _ & X).
  split; [|split].
  - refine (G Callhome.devtest true (stem example_transcript) 0 example_line
              gulf_segment _ _ (or_introl Claims.gulf_line_example)).
    + discriminate.
    + lia.
  - refine (V true (stem levant_transcript) 0 levant_first_line
              levant_segment _ Claims.levant_line_example).
    lia.
  - exact (X (Some 80) xml_example xml_segment_example
             Claims.xml_example_segment).
Defined.

End Extras.
